(** * pumpfun-parse-trade-history: the decoder, the classifier and the
      bounded fetch pipeline of [scripts/parse-history.js]

    The source file holds two versions of the script.  The first one
    (137-byte guard, mint, timestamp, token name, decode in a detached
    promise) is embedded in [Module Full], the second one (no length
    guard, decode inside the [.then] callback) in [Module Minimal].
    [getTransactionDetails] is the same in both up to its [.then] callback
    and one console line, and is embedded once, with the script as a
    parameter.

    Pure code is embedded as functions, with [Res] for what may throw.
    The pipeline is a state ([State]: the variables closed over by the
    callbacks, the console, the promise jobs still to come) and a step
    function ([step]) that runs one promise job to completion; a run is a
    list of jobs, so that the theorems range over every order in which
    fetches and name lookups can settle.  What lies outside the file is
    supplied by the events: the outcome of
    [connection.getParsedTransaction], the outcome of [nameOfToken]. *)

From Stdlib Require Import ZArith Strings.String Strings.Ascii Strings.Byte Numbers.DecimalString
  Numbers.DecimalPos Numbers.DecimalZ.
From stdpp Require Import base decidable option list gmap sets strings.

Local Open Scope Z_scope.

(** ** JavaScript values and exceptions *)

Inductive Exn : Type :=
| TypeError                 (* property access on undefined / null; bs58 on a non-string *)
| RangeError                (* out-of-range Buffer read, invalid Date *)
| Error (msg : string).     (* anything else: network, bs58, PublicKey *)

Inductive Res (A : Type) : Type :=
| Ok (a : A)
| Throw (e : Exn).
Arguments Ok {A} a.
Arguments Throw {A} e.

#[export] Instance Res_ret : MRet Res := fun A a => Ok a.
#[export] Instance Res_bind : MBind Res := fun A B f m =>
  match m with Ok a => f a | Throw e => Throw e end.

Definition is_Ok {A} (r : Res A) : bool :=
  match r with Ok _ => true | Throw _ => false end.

(** ** Uint8Array / Buffer *)

Module Buffer.

(** [encoded.slice(a, b)]: clamps to the array, never throws. *)
Definition slice (a b : nat) (l : list byte) : list byte :=
  take (b - a) (drop a l).

(** Little-endian value of a byte string, as a natural number. *)
Fixpoint le_unsigned (bs : list byte) : Z :=
  match bs with
  | [] => 0
  | b :: r => Z.of_N (Byte.to_N b) + 256 * le_unsigned r
  end.

(** Two's complement reading of a 64-bit pattern. *)
Definition to_int64 (u : Z) : Z :=
  if Z.testbit u 63 then u - 2 ^ 64 else u.

(** [buf.readBigInt64LE()] at offset 0: a signed 64-bit little-endian
    read; a buffer of fewer than 8 bytes raises a RangeError. *)
Definition readBigInt64LE (buf : list byte) : Res Z :=
  if decide (8 <= length buf)%nat
  then Ok (to_int64 (le_unsigned (take 8 buf)))
  else Throw RangeError.

(** [BigInt.prototype.toString()]: decimal, with a leading minus. *)
Definition toString (z : Z) : string :=
  NilZero.string_of_int (Z.to_int z).

(** [parseInt] on a decimal string ([None] is NaN). *)
Definition parseInt (s : string) : option Z :=
  Z.of_int <$> NilZero.int_of_string s.

End Buffer.
Import Buffer.

(** ** The fetched record *)

Definition PublicKey : Type := string.

Definition PUMPFUN_PROGRAM_ID : PublicKey :=
  "6EF8rrecthR5Dkzon8Nwu78hRvfCKubJ14M5uBEwF6P"%string.

Definition equals (a b : PublicKey) : bool := String.eqb a b.

Definition batchSize : nat := 20.

(** The [data] property of an instruction entry, as [bs58.decode] sees it. *)
Inductive InstructionData : Type :=
| NoData                      (* no data string: a parsed instruction *)
| NotBase58                   (* a string with a character outside the alphabet *)
| Base58 (blob : list byte).  (* a base58 string, and the bytes it stands for *)

(** [bs58.decode(instruction.data)]: a TypeError when the argument is not
    a string, an Error on a character outside the alphabet. *)
Definition bs58_decode (d : InstructionData) : Res (list byte) :=
  match d with
  | NoData => Throw TypeError
  | NotBase58 => Throw (Error "Non-base58 character")
  | Base58 blob => Ok blob
  end.

(** An instruction entry. *)
Record Instruction : Type := {
  programId : option PublicKey;
  data : InstructionData
}.

Record InnerInstructions : Type := {
  inner_instructions : list Instruction   (* innerInst.instructions *)
}.

Record Message : Type := {
  instructions : option (list Instruction)
}.

Record Transaction : Type := {
  message : Message;
  signatures : list string
}.

Record Meta : Type := {
  logMessages : option (list string);
  innerInstructions : option (list InnerInstructions);
  err_is_null : bool                      (* meta.err === null *)
}.

Record VersionedTransactionResponse : Type := {
  transaction : option Transaction;
  meta : option Meta;
  slot : Z;
  blockTime : option Z
}.

(** [s.includes(sub)] *)
Fixpoint includes (sub s : string) : bool :=
  String.prefix sub s ||
  match s with
  | EmptyString => false
  | String _ s' => includes sub s'
  end.

(** [arr.some(p)] *)
Definition some {A} (p : A -> bool) (l : list A) : bool := existsb p l.

Definition buy_marker : string := "Program log: Instruction: Buy".
Definition sell_marker : string := "Program log: Instruction: Sell".

(** [instruction.programId && instruction.programId.equals(PUMPFUN_PROGRAM_ID)] *)
Definition references_program (i : Instruction) : bool :=
  match programId i with
  | Some p => equals p PUMPFUN_PROGRAM_ID
  | None => false
  end.

(** [tx.meta.logMessages.some(log => log.includes(marker))]: a TypeError
    when [meta] or [logMessages] is missing. *)
Definition logs_some (tx : VersionedTransactionResponse) (marker : string) : Res bool :=
  match meta tx with
  | None => Throw TypeError
  | Some m =>
      match logMessages m with
      | None => Throw TypeError
      | Some logs => Ok (some (includes marker) logs)
      end
  end.

(** The body of the [if] of [isPumpfunTx], shared by the two scripts. *)
Definition classify_logs (tx : VersionedTransactionResponse) : Res nat :=
  b ← logs_some tx buy_marker;
  if b : bool then Ok 1%nat
  else
    s ← logs_some tx sell_marker;
    if s : bool then Ok 2%nat else Ok 0%nat.

(** [tx.meta?.innerInstructions ?? []] *)
Definition inner_groups (tx : VersionedTransactionResponse) : list InnerInstructions :=
  match meta tx with
  | None => []
  | Some m => default [] (innerInstructions m)
  end.

(** [tx.meta?.err === null] *)
Definition success_of (tx : VersionedTransactionResponse) : bool :=
  match meta tx with
  | None => false
  | Some m => err_is_null m
  end.

(** [encoded[64] == 1]; an index past the end reads [undefined]. *)
Definition isBuy_of (encoded : list byte) : bool :=
  match encoded !! 64%nat with
  | Some b => N.eqb (Byte.to_N b) 1
  | None => false
  end.

(** The [timestamp] property of a pushed record: a decimal string in the
    first script, the number [tx.blockTime] (or null) in the second. *)
Inductive JsTime : Type :=
| TimeString (s : string)
| TimeNumber (n : option Z).

(** The objects pushed on [transactions].  A property that the object does
    not have is [None]. *)
Record PumpfunTxResult : Type := {
  r_mint : option (list byte);
  r_solAmount : option string;
  r_tokenAmount : option string;
  r_isBuy : option bool;
  r_timestamp : JsTime;
  r_slot : Z;
  r_signature : option string;
  r_success : bool;
  r_tokenName : option string
}.

(** ** First script *)

Module Full.

(** [isPumpfunTx] *)
Definition isPumpfunTx (tx : option VersionedTransactionResponse) : Res nat :=
  match tx with
  | None => Throw TypeError
  | Some tx =>
      match transaction tx with
      | None => Ok 0%nat
      | Some t =>
          match instructions (message t) with
          | None => Ok 0%nat
          | Some ins =>
              if some references_program ins then
                n ← classify_logs tx;
                Ok n
              else Ok 0%nat
          end
      end
  end.

(** The fields read from one blob. *)
Record Fields : Type := {
  mint : list byte;
  solAmount : string;
  tokenAmount : string;
  isBuy : bool;
  timestamp : string
}.

(** The body of the inner loop on one decoded blob: [Ok None] is the
    [continue] of the length guard. *)
Definition decode (encoded : list byte) : Res (option Fields) :=
  if decide (length encoded ≠ 137%nat) then Ok None
  else
    let mint := slice 16 48 encoded in
    (* new PublicKey(...) rejects anything but 32 bytes *)
    if decide (length mint ≠ 32%nat) then Throw (Error "Invalid public key input")
    else
      sol ← readBigInt64LE (slice 48 56 encoded);
      tok ← readBigInt64LE (slice 56 64 encoded);
      ts ← readBigInt64LE (slice 97 105 encoded);
      Ok (Some {| mint := mint;
                  solAmount := toString sol;
                  tokenAmount := toString tok;
                  isBuy := isBuy_of encoded;
                  timestamp := toString ts |}).

(** The inner [for] loop: stops at the first instruction of the target
    program whose blob passes the guard. *)
Fixpoint scan_instructions (l : list Instruction) : Res (option Fields) :=
  match l with
  | [] => Ok None
  | i :: rest =>
      match programId i with
      | None => Throw TypeError
      | Some p =>
          if equals p PUMPFUN_PROGRAM_ID then
            match bs58_decode (data i) with
            | Throw e => Throw e
            | Ok encoded =>
                r ← decode encoded;
                match r with
                | Some f => Ok (Some f)
                | None => scan_instructions rest
                end
            end
          else scan_instructions rest
      end
  end.

(** The outer [for] loop. *)
Fixpoint scan_groups (gs : list InnerInstructions) : Res (option Fields) :=
  match gs with
  | [] => Ok None
  | g :: rest =>
      r ← scan_instructions (inner_instructions g);
      match r with
      | Some f => Ok (Some f)
      | None => scan_groups rest
      end
  end.

(** [parsePumpfunTx] up to its [await]: what the scan found. *)
Definition parsePumpfunTx_scan (tx : VersionedTransactionResponse) : Res (option Fields) :=
  scan_groups (inner_groups tx).

(** [parsePumpfunTx] after [await nameOfToken(mint)] returned [name]: the
    object literal of the [return]. *)
Definition parsePumpfunTx_finish (tx : VersionedTransactionResponse)
    (f : Fields) (name : string) : Res PumpfunTxResult :=
  match transaction tx with
  | None => Throw TypeError
  | Some t =>
      Ok {| r_mint := Some (mint f);
            r_solAmount := Some (solAmount f);
            r_tokenAmount := Some (tokenAmount f);
            r_isBuy := Some (isBuy f);
            r_timestamp := TimeString (timestamp f);
            r_slot := slot tx;
            r_signature := signatures t !! 0%nat;
            r_success := success_of tx;
            r_tokenName := Some name |}
  end.

(** [showPumpfunTx]: prints one line; [toISOString] raises a RangeError
    on a date outside +-8.64e15 ms, and reading [parsedTx.timestamp] of
    [undefined] raises a TypeError.  [parseInt] first turns its argument
    into a string: [null] gives NaN, and a number from 1e21 on is written
    with an exponent, of which [parseInt] reads the leading digit only. *)
Definition showPumpfunTx (parsed : option PumpfunTxResult) : Res PumpfunTxResult :=
  match parsed with
  | None => Throw TypeError
  | Some p =>
      match r_timestamp p with
      | TimeString s =>
          match parseInt s with
          | Some t =>
              if (Z.abs t <=? 8640000000000) then Ok p else Throw RangeError
          | None => Throw RangeError
          end
      | TimeNumber (Some t) =>
          if (Z.abs t <? 10 ^ 21)
          then if (Z.abs t <=? 8640000000000) then Ok p else Throw RangeError
          else Ok p
      | TimeNumber None => Throw RangeError
      end
  end.

End Full.

(** ** Second script *)

Module Minimal.

(** [isPumpfunTx]: no test of [tx.transaction] here. *)
Definition isPumpfunTx (tx : option VersionedTransactionResponse) : Res nat :=
  match tx with
  | None => Throw TypeError
  | Some tx =>
      match transaction tx with
      | None => Throw TypeError
      | Some t =>
          match instructions (message t) with
          | None => Ok 0%nat
          | Some ins =>
              if some references_program ins then
                n ← classify_logs tx;
                Ok n
              else Ok 0%nat
          end
      end
  end.

Record Fields : Type := {
  solAmount : string;
  tokenAmount : string;
  isBuy : bool
}.

(** The body of the inner loop on one decoded blob. *)
Definition decode (encoded : list byte) : Res Fields :=
  sol ← readBigInt64LE (slice 48 56 encoded);
  tok ← readBigInt64LE (slice 56 64 encoded);
  Ok {| solAmount := toString sol;
        tokenAmount := toString tok;
        isBuy := isBuy_of encoded |}.

Fixpoint scan_instructions (l : list Instruction) : Res (option Fields) :=
  match l with
  | [] => Ok None
  | i :: rest =>
      match programId i with
      | None => Throw TypeError
      | Some p =>
          if equals p PUMPFUN_PROGRAM_ID then
            match bs58_decode (data i) with
            | Throw e => Throw e
            | Ok encoded =>
                f ← decode encoded;
                Ok (Some f)
            end
          else scan_instructions rest
      end
  end.

Fixpoint scan_groups (gs : list InnerInstructions) : Res (option Fields) :=
  match gs with
  | [] => Ok None
  | g :: rest =>
      r ← scan_instructions (inner_instructions g);
      match r with
      | Some f => Ok (Some f)
      | None => scan_groups rest
      end
  end.

(** [parsePumpfunTx]: [Ok None] is the [undefined] returned when the
    loops run to their end. *)
Definition parsePumpfunTx (tx : VersionedTransactionResponse) : Res (option Fields) :=
  scan_groups (inner_groups tx).

(** The object literal pushed by the [then] callback; spreading
    [undefined] adds no property. *)
Definition record_of (sig : string) (tx : VersionedTransactionResponse)
    (parsed : option Fields) : PumpfunTxResult :=
  {| r_mint := None;
     r_solAmount := solAmount <$> parsed;
     r_tokenAmount := tokenAmount <$> parsed;
     r_isBuy := isBuy <$> parsed;
     r_timestamp := TimeNumber (blockTime tx);
     r_slot := slot tx;
     r_signature := Some sig;
     r_success := success_of tx;
     r_tokenName := None |}.

End Minimal.

(** ** The pipeline: [getTransactionDetails] *)

Local Close Scope Z_scope.

Inductive Script : Type := FullScript | MinimalScript.

(** The objects of the [signatures] array; only [signature] is read. *)
Record SignatureInfo : Type := {
  signature : string;
  sig_blockTime : option Z
}.

(** What the script writes on the console. *)
Inductive Line : Type :=
| FetchingDetails
| ErrorFetching (sig : string) (e : Exn)     (* console.error in .catch *)
| Processed (done total : nat)               (* second script only *)
| Shown (p : PumpfunTxResult).               (* showPumpfunTx *)

(** A detached [parsePumpfunTx(tx).then(...)] promise of the first script:
    the record it works on and what its scan found before the [await]. *)
Record Detached : Type := {
  d_tx : VersionedTransactionResponse;
  d_scan : Res (option Full.Fields)
}.

(** The numbers stored in the object passed to [resolve]; its
    [transactions] property is the array itself (see [observe]). *)
Record PipelineResult : Type := {
  txCount : nat;
  pumpfunCount : nat
}.

(** The variables closed over by [startNext] and the callbacks, the calls
    made to [connection.getParsedTransaction], the console and the promise
    jobs still to run.  A promise put in [inProgress] is named by the rank
    of its fetch call, so [launched !! k] is the position in [signatures]
    that promise [k] fetches.  [settled] holds the promises whose [.then]
    or [.catch] callback has run and whose [.finally] callback is queued. *)
Record State : Type := {
  transactions : list PumpfunTxResult;
  inProgress : gset nat;
  completed : nat;
  launched : list nat;
  console : list Line;
  settled : gset nat;
  detached : list Detached;
  unhandled : list Exn;                (* rejections nobody handles *)
  resolved : option PipelineResult     (* set by the first [resolve] *)
}.

Definition push (p : PumpfunTxResult) (st : State) : State :=
  {| transactions := transactions st ++ [p];
     inProgress := inProgress st; completed := completed st;
     launched := launched st; console := console st;
     settled := settled st;
     detached := detached st; unhandled := unhandled st;
     resolved := resolved st |}.

Definition log_line (l : Line) (st : State) : State :=
  {| transactions := transactions st;
     inProgress := inProgress st; completed := completed st;
     launched := launched st; console := console st ++ [l];
     settled := settled st;
     detached := detached st; unhandled := unhandled st;
     resolved := resolved st |}.

Definition detach (d : Detached) (st : State) : State :=
  {| transactions := transactions st;
     inProgress := inProgress st; completed := completed st;
     launched := launched st; console := console st;
     settled := settled st;
     detached := detached st ++ [d]; unhandled := unhandled st;
     resolved := resolved st |}.

Definition drop_detached (j : nat) (st : State) : State :=
  {| transactions := transactions st;
     inProgress := inProgress st; completed := completed st;
     launched := launched st; console := console st;
     settled := settled st;
     detached := delete j (detached st); unhandled := unhandled st;
     resolved := resolved st |}.

(** A rejection that no handler takes.  Node (from version 15) reports it
    and ends the process once the jobs already queued have run (see
    [exiting]). *)
Definition reject_unhandled (e : Exn) (st : State) : State :=
  {| transactions := transactions st;
     inProgress := inProgress st; completed := completed st;
     launched := launched st; console := console st;
     settled := settled st;
     detached := detached st; unhandled := unhandled st ++ [e];
     resolved := resolved st |}.

(** The [.finally] callback of promise [k] is queued. *)
Definition queue_finally (k : nat) (st : State) : State :=
  {| transactions := transactions st;
     inProgress := inProgress st; completed := completed st;
     launched := launched st; console := console st;
     settled := {[ k ]} ∪ settled st;
     detached := detached st; unhandled := unhandled st;
     resolved := resolved st |}.

(** One turn of the [while] body: fetch [signatures[pos]] and add the new
    promise to [inProgress]. *)
Definition launch (pos : nat) (st : State) : State :=
  {| transactions := transactions st;
     inProgress := {[ length (launched st) ]} ∪ inProgress st;
     completed := completed st;
     launched := launched st ++ [pos]; console := console st;
     settled := settled st;
     detached := detached st; unhandled := unhandled st;
     resolved := resolved st |}.

(** [inProgress.delete(promise); completed++] *)
Definition retire (k : nat) (st : State) : State :=
  {| transactions := transactions st;
     inProgress := inProgress st ∖ {[ k ]};
     completed := S (completed st);
     launched := launched st; console := console st;
     settled := settled st ∖ {[ k ]};
     detached := detached st; unhandled := unhandled st;
     resolved := resolved st |}.

(** [resolve({transactions, txCount, pumpfunCount})]: the counts are
    computed now; a promise already resolved stays as it is. *)
Definition resolve (total : nat) (st : State) : State :=
  {| transactions := transactions st;
     inProgress := inProgress st; completed := completed st;
     launched := launched st; console := console st;
     settled := settled st;
     detached := detached st; unhandled := unhandled st;
     resolved :=
       match resolved st with
       | Some r => Some r
       | None => Some {| txCount := total;
                         pumpfunCount := length (transactions st) |}
       end |}.

(** The guard of the [while] of [startNext]. *)
Definition guard (signatures : list SignatureInfo) (st : State) : bool :=
  (size (inProgress st) <? batchSize) &&
  (completed st + size (inProgress st) <? length signatures).

Fixpoint startNext_loop (fuel : nat) (signatures : list SignatureInfo)
    (st : State) : State :=
  match fuel with
  | 0 => st
  | S fuel' =>
      if guard signatures st
      then startNext_loop fuel' signatures
             (launch (completed st + size (inProgress st)) st)
      else st
  end.

(** [startNext]: every turn adds a promise to [inProgress], so the loop
    makes at most [batchSize] turns (see [startNext_guard]). *)
Definition startNext (signatures : list SignatureInfo) (st : State) : State :=
  startNext_loop batchSize signatures st.

(** The [.then] callback. *)
Definition then_callback (s : Script) (sig : SignatureInfo)
    (tx : option VersionedTransactionResponse) (st : State) : Res State :=
  match s with
  | FullScript =>
      ty ← Full.isPumpfunTx tx;
      if Nat.eqb ty 0 then Ok st
      else
        match tx with
        | None => Throw TypeError
        | Some tx' =>
            (* parsePumpfunTx(tx).then(...) is neither returned nor awaited *)
            Ok (detach {| d_tx := tx'; d_scan := Full.parsePumpfunTx_scan tx' |} st)
        end
  | MinimalScript =>
      ty ← Minimal.isPumpfunTx tx;
      if Nat.eqb ty 0 then Ok st
      else
        match tx with
        | None => Throw TypeError
        | Some tx' =>
            _ ← Minimal.parsePumpfunTx tx';
            parsed ← Minimal.parsePumpfunTx tx';
            Ok (push (Minimal.record_of (signature sig) tx' parsed) st)
        end
  end.

(** The [.catch] callback. *)
Definition catch_callback (sig : SignatureInfo) (e : Exn) (st : State) : State :=
  log_line (ErrorFetching (signature sig) e) st.

(** The [.finally] callback. *)
Definition finally_callback (s : Script) (signatures : list SignatureInfo)
    (k : nat) (st : State) : State :=
  let st1 := retire k st in
  let st2 :=
    match s with
    | FullScript => st1
    | MinimalScript =>
        if Nat.eqb (completed st1 mod batchSize) 0
        then log_line (Processed (completed st1) (length signatures)) st1
        else st1
    end in
  let st3 := startNext signatures st2 in
  if Nat.eqb (completed st3) (length signatures)
  then resolve (length signatures) st3
  else st3.

(** How a fetch ends. *)
Inductive Outcome : Type :=
| Fulfilled (tx : option VersionedTransactionResponse)
| Rejected (e : Exn).

(** The state after [.then(...).catch(...)]: a rejected fetch skips the
    [.then] callback; a [.then] callback that throws has changed nothing
    and is followed by the [.catch] callback. *)
Definition settled_state (s : Script) (sig : SignatureInfo) (o : Outcome)
    (st : State) : State :=
  match o with
  | Rejected e => catch_callback sig e st
  | Fulfilled tx =>
      match then_callback s sig tx st with
      | Ok st' => st'
      | Throw e => catch_callback sig e st
      end
  end.

(** The fetch promise [k] settles with [o]: [.then] or [.catch] runs. *)
Definition fetch_settled (s : Script) (signatures : list SignatureInfo)
    (k : nat) (o : Outcome) (st : State) : option State :=
  if decide (k ∈ inProgress st ∧ k ∉ settled st) then
    pos ← launched st !! k;
    sig ← signatures !! pos;
    Some (queue_finally k (settled_state s sig o st))
  else None.

(** The queued [.finally] callback of promise [k] runs. *)
Definition finally_runs (s : Script) (signatures : list SignatureInfo)
    (k : nat) (st : State) : option State :=
  if decide (k ∈ settled st)
  then Some (finally_callback s signatures k st)
  else None.

(** The detached promise [j] of the first script goes on: [name] is what
    [await nameOfToken(mint)] gives, then
    [.then(parsed => { showPumpfunTx(parsed); transactions.push(parsed) })]. *)
Definition name_settled (j : nat) (name : Res string) (st : State) : option State :=
  d ← detached st !! j;
  let st1 := drop_detached j st in
  let parsed : Res PumpfunTxResult :=
    r ← d_scan d;
    match r with
    | None => Full.showPumpfunTx None
    | Some f =>
        nm ← name;
        p ← Full.parsePumpfunTx_finish (d_tx d) f nm;
        Full.showPumpfunTx (Some p)
    end in
  Some match parsed with
       | Ok p => push p (log_line (Shown p) st1)
       | Throw e => reject_unhandled e st1
       end.

(** The process is about to exit: a rejection was left unhandled. *)
Definition exiting (st : State) : Prop := unhandled st <> [].

(** The promise jobs of a run, in the order the event loop runs them.
    Jobs of different promises interleave freely; the [.finally] callback of
    a fetch runs after its [.then] or [.catch]. *)
Inductive Event : Type :=
| FetchSettled (k : nat) (o : Outcome)
| Finally (k : nat)
| NameSettled (j : nat) (name : Res string).

Definition step (s : Script) (signatures : list SignatureInfo)
    (st : State) (ev : Event) : option State :=
  match ev with
  | FetchSettled k o => fetch_settled s signatures k o st
  | Finally k => finally_runs s signatures k st
  | NameSettled j name => name_settled j name st
  end.

(** The state in which [getTransactionDetails] calls [startNext]. *)
Definition initial : State :=
  {| transactions := []; inProgress := ∅; completed := 0;
     launched := []; console := [FetchingDetails];
     settled := ∅;
     detached := []; unhandled := []; resolved := None |}.

(** [getTransactionDetails(signatures)] up to the return of the promise. *)
Definition getTransactionDetails (signatures : list SignatureInfo) : State :=
  startNext signatures initial.

Fixpoint run_from (s : Script) (signatures : list SignatureInfo)
    (st : State) (evs : list Event) : option State :=
  match evs with
  | [] => Some st
  | ev :: rest =>
      st' ← step s signatures st ev;
      run_from s signatures st' rest
  end.

(** The state after the jobs [evs]; [None] when one of them cannot run
    (a promise that is not pending, a callback that is not queued).
    Any job may follow any other, also in a state that is [exiting], where
    the process itself runs at most the jobs already queued: the runs of
    this function contain those of the process, so what holds at every
    point of every run here holds of the process. *)
Definition run (s : Script) (signatures : list SignatureInfo)
    (evs : list Event) : option State :=
  run_from s signatures (getTransactionDetails signatures) evs.

(** What a caller holding the resolved object reads: the counts stored at
    [resolve], and the [transactions] array as it is now. *)
Record Observed : Type := {
  o_transactions : list PumpfunTxResult;
  o_txCount : nat;
  o_pumpfunCount : nat
}.

Definition observe (st : State) : option Observed :=
  r ← resolved st;
  Some {| o_transactions := transactions st;
          o_txCount := txCount r;
          o_pumpfunCount := pumpfunCount r |}.

(** [getAllTransactions] once [getSignatures] has returned [signatures]. *)
Inductive AllTransactions : Type :=
| ReturnsEmptyArray                      (* return [] *)
| AwaitsDetails (st : State).            (* return await getTransactionDetails(signatures) *)

Definition getAllTransactions (signatures : list SignatureInfo) : AllTransactions :=
  if Nat.eqb (length signatures) 0 then ReturnsEmptyArray
  else AwaitsDetails (getTransactionDetails signatures).

(** ** Vocabulary of the statements *)

(** [sub] occurs in [s]. *)
Definition occurs_in (sub s : string) : Prop :=
  exists pre post : string, s = (pre ++ sub ++ post)%string.

(** No inner instruction of the record belongs to the target program. *)
Definition no_reference (tx : VersionedTransactionResponse) : Prop :=
  Forall (fun g =>
    Forall (fun i => exists p, programId i = Some p /\
                               equals p PUMPFUN_PROGRAM_ID = false)
           (inner_instructions g))
    (inner_groups tx).

(** Every inner instruction of the target program carries a blob that the
    length guard of the first script skips. *)
Definition no_payload (tx : VersionedTransactionResponse) : Prop :=
  Forall (fun g =>
    Forall (fun i => exists p, programId i = Some p /\
                     (equals p PUMPFUN_PROGRAM_ID = true ->
                      exists blob, data i = Base58 blob /\ length blob <> 137))
           (inner_instructions g))
    (inner_groups tx).

(** Two states with the same scheduling variables. *)
Definition same_sched (st st' : State) : Prop :=
  inProgress st' = inProgress st /\ completed st' = completed st /\
  launched st' = launched st /\ resolved st' = resolved st /\
  settled st' = settled st.

(** What holds of the scheduling variables at every point of a run. *)
Record Inv (signatures : list SignatureInfo) (st : State) : Prop := {
  inv_fresh : forall k, k ∈ inProgress st -> k < length (launched st);
  inv_count : completed st + size (inProgress st) = length (launched st);
  inv_order : launched st = seq 0 (length (launched st));
  inv_total : length (launched st) <= length signatures;
  inv_limit : size (inProgress st) <= batchSize;
  inv_queue : settled st ⊆ inProgress st
}.

(** The promise is resolved exactly when a non-empty list is exhausted. *)
Definition res_inv (signatures : list SignatureInfo) (st : State) : Prop :=
  match resolved st with
  | None => completed st < length signatures \/ length signatures = 0
  | Some r => txCount r = length signatures /\
              completed st = length signatures /\ 0 < length signatures
  end.

(** Between two callbacks: [startNext] has run to the end of its loop. *)
Definition Good (signatures : list SignatureInfo) (st : State) : Prop :=
  Inv signatures st /\ guard signatures st = false /\ res_inv signatures st.

(** The state in which the [.finally] callback calls [startNext]. *)
Definition retired_state (s : Script) (signatures : list SignatureInfo)
    (k : nat) (st : State) : State :=
  match s with
  | FullScript => retire k st
  | MinimalScript =>
      if Nat.eqb (completed (retire k st) mod batchSize) 0
      then log_line (Processed (completed (retire k st)) (length signatures))
             (retire k st)
      else retire k st
  end.

(** ** Sample data *)

(** The 137-byte payload documented at the end of the source file. *)
Definition fixture : list byte :=
  [xe4; x45; xa5; x2e; x51; xcb; x9a; x1d; xbd; xdb; x7f; xd3; x4e; xe6; x61; xee] ++
  [x59; x2a; x92; xab; x10; x62; x1a; x8f; x80; x51; xa9; xdd; x15; xd2; x22; x97;
   x90; xcf; x0f; x98; xdd; x61; xcb; x91; xe5; xae; x2f; x20; x4d; x20; xd0; x0f] ++
  [xee; xa3; x45; x1d; x00; x00; x00; x00] ++
  [x5f; x64; x4b; xb8; x25; x0b; x00; x00] ++
  [x01] ++
  [xec; x77; x58; x35; x5e; x95; x13; x81; xfb; xc7; x40; x2d; xb2; xc5; x43; xe5;
   xf7; xc7; xd4; x19; xd7; x2a; x3f; xe7; xcd; xf2; x00; x0c; xfb; xde; x65; x7c] ++
  [xef; x99; xa4; x67; x00; x00; x00; x00] ++
  [x93; x9e; x50; x6b; x08; x00; x00; x00] ++
  [xdf; x01; x7b; x27; xa3; x29; x03; x00] ++
  [x93; xf2; x2c; x6f; x01; x00; x00; x00] ++
  [xdf; x69; x68; xdb; x11; x2b; x02; x00].

(** The fixture with the eight bytes of solAmount set to 0xff. *)
Definition fixture_high_bit : list byte :=
  take 48 fixture ++ replicate 8 xff ++ drop 56 fixture.

Definition pumpfun_instruction (blob : list byte) : Instruction :=
  {| programId := Some PUMPFUN_PROGRAM_ID; data := Base58 blob |}.

(** A record of the target program with the given logs and inner groups. *)
Definition sample_tx (logs : list string) (groups : list InnerInstructions)
  : VersionedTransactionResponse :=
  {| transaction :=
       Some {| message := {| instructions := Some [pumpfun_instruction []] |};
               signatures := ["sig0"%string] |};
     meta := Some {| logMessages := Some logs;
                     innerInstructions := Some groups;
                     err_is_null := true |};
     slot := 1%Z;
     blockTime := Some 1738840559%Z |}.

Definition buy_tx (blob : list byte) : VersionedTransactionResponse :=
  sample_tx [buy_marker] [ {| inner_instructions := [pumpfun_instruction blob] |} ].

(** Classified as a buy, but no inner instruction at all. *)
Definition buy_tx_no_inner : VersionedTransactionResponse :=
  sample_tx [buy_marker] [].

Definition sig_n (n : nat) : SignatureInfo :=
  {| signature := String (ascii_of_nat (65 + n)) EmptyString; sig_blockTime := None |}.

Definition sigs_n (n : nat) : list SignatureInfo := sig_n <$> seq 0 n.

(** 25 identifiers; the fetch of position 3 fails, the one of position 0
    finds no record, and both have run their [.finally]. *)
Definition sample_events : list Event :=
  [FetchSettled 3 (Rejected (Error "timeout")); Finally 3;
   FetchSettled 0 (Fulfilled None); Finally 0].

(** One identifier whose record is a buy carrying the fixture. *)
Definition fetch_buy : Event := FetchSettled 0 (Fulfilled (Some (buy_tx fixture))).

(** ** [getSignatures] *)

(** [Math.floor(Date.now() / 1000) - (daysAgo * 24 * 60 * 60)], with
    [now] the clock in milliseconds. *)
Definition startTime_of (now daysAgo : Z) : Z :=
  (now / 1000 - daysAgo * 24 * 60 * 60)%Z.

(** [sig.blockTime] in a comparison with a number: the ledger gives a
    number or [null], and [null] counts as 0. *)
Definition time_of (sig : SignatureInfo) : Z := default 0%Z (sig_blockTime sig).

(** [sig => sig.blockTime >= startTime] *)
Definition in_window (startTime : Z) (sig : SignatureInfo) : bool :=
  (startTime <=? time_of sig)%Z.

(** What [getSignatures] writes on the console. *)
Inductive SignatureLine : Type :=
| FetchingSignatures                          (* second script only *)
| FetchedSoFar (n : nat)
| ErrorFetchingSignatures (e : Exn).

(** The variables of [getSignatures], the [before] cursors passed to
    [connection.getSignaturesForAddress], and the console. *)
Record SignaturesRun : Type := {
  sr_signatures : list SignatureInfo;
  sr_asked : list (option string);
  sr_console : list SignatureLine
}.

(** [signatureObjects[signatureObjects.length - 1].signature] *)
Definition last_signature (signatureObjects : list SignatureInfo) : option string :=
  signature <$> last signatureObjects.

(** The [while (true)] loop inside the [try].  [responses] are the answers
    of [connection.getSignaturesForAddress], call after call; the result is
    [None] while the loop still waits for an answer.  A rejected call goes
    to the [catch], which returns an empty array. *)
Fixpoint getSignatures_loop (startTime : Z)
    (responses : list (Res (list SignatureInfo)))
    (before : option string) (run : SignaturesRun) : option SignaturesRun :=
  match responses with
  | [] => None
  | response :: rest =>
      let asked := sr_asked run ++ [before] in
      match response with
      | Throw e =>
          Some {| sr_signatures := [];
                  sr_asked := asked;
                  sr_console := sr_console run ++ [ErrorFetchingSignatures e] |}
      | Ok signatureObjects =>
          match signatureObjects with
          | [] =>
              Some {| sr_signatures := sr_signatures run;
                      sr_asked := asked;
                      sr_console := sr_console run |}
          | first :: _ =>
              let filteredSignatures := filter (fun sig => in_window startTime sig = true)
                                               signatureObjects in
              if Nat.eqb (length filteredSignatures) 0 && (time_of first <? startTime)%Z
              then Some {| sr_signatures := sr_signatures run;
                           sr_asked := asked;
                           sr_console := sr_console run |}
              else
                let signatures := sr_signatures run ++ filteredSignatures in
                getSignatures_loop startTime rest
                  (last_signature signatureObjects)
                  {| sr_signatures := signatures;
                     sr_asked := asked;
                     sr_console := sr_console run ++ [FetchedSoFar (length signatures)] |}
          end
      end
  end.

(** [getSignatures]: [pubKey] is the outcome of [new PublicKey(address)],
    which sits before the [try], so that its error rejects the call. *)
Definition getSignatures (s : Script) (pubKey : Res PublicKey) (startTime : Z)
    (responses : list (Res (list SignatureInfo))) : option (Res SignaturesRun) :=
  match pubKey with
  | Throw e => Some (Throw e)
  | Ok _ =>
      Ok <$> getSignatures_loop startTime responses None
               {| sr_signatures := [];
                  sr_asked := [];
                  sr_console := match s with
                                | FullScript => []
                                | MinimalScript => [FetchingSignatures]
                                end |}
  end.

(** [getAllTransactions] from its start: the [try] around
    [await getSignatures(...)] turns a rejection into an empty array. *)
Definition getAllTransactions_from (s : Script) (pubKey : Res PublicKey)
    (now daysAgo : Z) (responses : list (Res (list SignatureInfo)))
  : option AllTransactions :=
  r ← getSignatures s pubKey (startTime_of now daysAgo) responses;
  Some match r with
       | Throw _ => ReturnsEmptyArray
       | Ok run => getAllTransactions (sr_signatures run)
       end.

(** ** [nameOfToken] *)

(** The double quote character. *)
Definition dquote : string := String (ascii_of_nat 34) EmptyString.

(** [if (name.includes(' ')) name = `"${name}"`] *)
Definition quote_name (name : string) : string :=
  if includes " " name then (dquote ++ name ++ dquote)%string else name.

(** [const cached = tokenNameCache[key]; if (cached) return cached]: the
    empty string is falsy.  The keys are base58 strings of 32 bytes, longer
    than any property name an object inherits. *)
Definition nameOfToken_cached (tokenNameCache : gmap string string)
    (mint : PublicKey) : option string :=
  match tokenNameCache !! mint with
  | Some cached => if String.eqb cached "" then None else Some cached
  | None => None
  end.

(** The rest of [nameOfToken], once [await metaplex.nfts().findByMint(...)]
    has given [metadata]; [name] is [None] when the metadata has no name. *)
Definition nameOfToken_store (tokenNameCache : gmap string string)
    (mint : PublicKey) (metadata : Res (option string))
  : Res string * gmap string string :=
  match metadata with
  | Throw e => (Throw e, tokenNameCache)
  | Ok None => (Throw TypeError, tokenNameCache)
  | Ok (Some name) =>
      (Ok (quote_name name), <[mint := quote_name name]> tokenNameCache)
  end.

(** One call of [nameOfToken] with nothing running in between: the name
    or the error, the cache afterwards, and whether metaplex was asked. *)
Record NameLookup : Type := {
  nl_name : Res string;
  nl_cache : gmap string string;
  nl_fetched : bool
}.

Definition nameOfToken (tokenNameCache : gmap string string) (mint : PublicKey)
    (metadata : Res (option string)) : NameLookup :=
  match nameOfToken_cached tokenNameCache mint with
  | Some cached =>
      {| nl_name := Ok cached; nl_cache := tokenNameCache; nl_fetched := false |}
  | None =>
      let '(name, cache) := nameOfToken_store tokenNameCache mint metadata in
      {| nl_name := name; nl_cache := cache; nl_fetched := true |}
  end.

(** ** Vocabulary of the further statements *)

(** The inner instructions of a record in the order of the two loops. *)
Definition inner_flat (tx : VersionedTransactionResponse) : list Instruction :=
  concat (inner_instructions <$> inner_groups tx).

(** An instruction of another program. *)
Definition foreign (i : Instruction) : Prop :=
  exists p, programId i = Some p /\ equals p PUMPFUN_PROGRAM_ID = false.

(** An instruction of the target program whose blob the length guard of the
    first script skips. *)
Definition skipped (i : Instruction) : Prop :=
  exists blob, programId i = Some PUMPFUN_PROGRAM_ID /\ data i = Base58 blob /\
               length blob <> 137.

(** No instruction of the outer list passes the test of [isPumpfunTx]. *)
Definition unreferenced (ins : list Instruction) : Prop :=
  Forall (fun i => programId i <> Some PUMPFUN_PROGRAM_ID) ins.

(** The records that the [.then] callbacks of the second script push during
    the jobs [evs], read off the events alone: one for each fetch that
    fulfils with a record classified 1 or 2 and whose scan does not throw. *)
Definition pushed_by (signatures : list SignatureInfo) (ev : Event)
  : list PumpfunTxResult :=
  match ev with
  | FetchSettled k (Fulfilled (Some tx)) =>
      match signatures !! k, Minimal.isPumpfunTx (Some tx), Minimal.parsePumpfunTx tx with
      | Some sig, Ok (S _), Ok parsed => [Minimal.record_of (signature sig) tx parsed]
      | _, _, _ => []
      end
  | _ => []
  end.

Definition collected_by (signatures : list SignatureInfo) (evs : list Event)
  : list PumpfunTxResult :=
  concat (pushed_by signatures <$> evs).

(** Some fetch among the jobs [evs] fulfilled with the record [tx]. *)
Definition fetched (evs : list Event) (tx : VersionedTransactionResponse) : Prop :=
  exists k, FetchSettled k (Fulfilled (Some tx)) ∈ evs.

(** [p] is the object that [parsePumpfunTx] builds from the record [tx]:
    the fields that its scan finds, a 32-byte mint, a timestamp that
    [Date] accepts, the slot, the first signature (if any) and the success
    flag of [tx], and some token name. *)
Definition built_from (tx : VersionedTransactionResponse) (p : PumpfunTxResult) : Prop :=
  exists (t : Transaction) (f : Full.Fields) (nm : string) (ts : Z),
    transaction tx = Some t /\
    Full.parsePumpfunTx_scan tx = Ok (Some f) /\
    length (Full.mint f) = 32 /\
    parseInt (Full.timestamp f) = Some ts /\
    (Z.abs ts <= 8640000000000)%Z /\
    p = {| r_mint := Some (Full.mint f);
           r_solAmount := Some (Full.solAmount f);
           r_tokenAmount := Some (Full.tokenAmount f);
           r_isBuy := Some (Full.isBuy f);
           r_timestamp := TimeString (Full.timestamp f);
           r_slot := slot tx;
           r_signature := signatures t !! 0;
           r_success := success_of tx;
           r_tokenName := Some nm |}.

(** Where the records and the pending decodes of the first script come
    from: each from a record that a fetch among [evs] returned. *)
Definition provenance (evs : list Event) (st : State) : Prop :=
  Forall (fun p => exists tx, fetched evs tx /\ built_from tx p) (transactions st) /\
  Forall (fun d => fetched evs (d_tx d) /\
                   d_scan d = Full.parsePumpfunTx_scan (d_tx d)) (detached st).




(** The records collected and the decodes pending never outnumber the
    fetches whose [.then] or [.catch] has run. *)
Definition count_inv (signatures : list SignatureInfo) (st : State) : Prop :=
  length (transactions st) + length (detached st) <=
    completed st + size (settled st) /\
  forall r, resolved st = Some r -> pumpfunCount r <= length signatures.

(** A fetch whose promise settles as [outcome] says, or a [.finally]. *)
Definition follows (outcome : nat -> Outcome) (ev : Event) : Prop :=
  match ev with
  | FetchSettled k o => o = outcome k
  | Finally _ => True
  | NameSettled _ _ => False
  end.

(** The entries of a page that lie in the window. *)
Definition window (startTime : Z) (page : list SignatureInfo) : list SignatureInfo :=
  filter (fun sig => in_window startTime sig = true) page.

(** A page after which [getSignatures] asks for the next one. *)
Definition continues (startTime : Z) (page : list SignatureInfo) : Prop :=
  window startTime page <> [].

(** The [before] cursors of the requests that fetched [pages], and the
    cursor of the request after them. *)
Fixpoint cursors (before : option string) (pages : list (list SignatureInfo))
  : list (option string) :=
  match pages with
  | [] => []
  | page :: rest => before :: cursors (last_signature page) rest
  end.

Fixpoint cursor_after (before : option string) (pages : list (list SignatureInfo))
  : option string :=
  match pages with
  | [] => before
  | page :: rest => cursor_after (last_signature page) rest
  end.

(** ** Further sample data *)

(** A record of no program at all, without [meta]. *)
Definition unrelated_tx : VersionedTransactionResponse :=
  {| transaction := Some {| message := {| instructions := Some [] |};
                            signatures := [] |};
     meta := None; slot := 0%Z; blockTime := None |}.

(** A record without [transaction]. *)
Definition no_transaction_tx : VersionedTransactionResponse :=
  {| transaction := None; meta := None; slot := 0%Z; blockTime := None |}.

(** A buy whose first inner instruction of the target program carries an
    empty blob and whose second one carries the fixture. *)
Definition two_payload_tx : VersionedTransactionResponse :=
  sample_tx [buy_marker]
    [ {| inner_instructions := [pumpfun_instruction []] |};
      {| inner_instructions := [pumpfun_instruction fixture] |} ].

(** A buy whose only inner instruction has no [programId]. *)
Definition malformed_tx : VersionedTransactionResponse :=
  sample_tx [buy_marker]
    [ {| inner_instructions := [ {| programId := None; data := NoData |} ] |} ].

(** A buy whose only inner instruction is of the target program and has no
    data string, and one whose data string is not base58. *)
Definition no_data_tx : VersionedTransactionResponse :=
  sample_tx [buy_marker]
    [ {| inner_instructions :=
           [ {| programId := Some PUMPFUN_PROGRAM_ID; data := NoData |} ] |} ].

Definition not_base58_tx : VersionedTransactionResponse :=
  sample_tx [buy_marker]
    [ {| inner_instructions :=
           [ {| programId := Some PUMPFUN_PROGRAM_ID; data := NotBase58 |} ] |} ].


(** Three pages of a ledger: the second is partly older than a window
    starting at 100, the third entirely. *)
Definition page_of (l : list (string * Z)) : list SignatureInfo :=
  (fun '(sig, t) => {| signature := sig; sig_blockTime := Some t |}) <$> l.

Definition sample_pages : list (list SignatureInfo) :=
  [ page_of [("s1"%string, 300%Z); ("s2"%string, 200%Z)];
    page_of [("s3"%string, 150%Z); ("s4"%string, 50%Z)] ].

Definition sample_stop_page : list SignatureInfo :=
  page_of [("s5"%string, 40%Z); ("s6"%string, 30%Z)].

(** * Verification *)

(** ** Buffer reads *)

Section BufferFacts.
Local Open Scope Z_scope.

Lemma slice_length (a b : nat) (l : list byte) :
  (b <= length l)%nat -> length (slice a b l) = (b - a)%nat.
Proof.
  intros Hb. unfold slice. rewrite length_take, length_drop. lia.
Qed.

Lemma le_unsigned_bounds (bs : list byte) :
  0 <= le_unsigned bs < 256 ^ Z.of_nat (length bs).
Proof.
  induction bs as [|b r IH]; simpl le_unsigned; simpl length.
  - simpl. lia.
  - rewrite Nat2Z.inj_succ, Z.pow_succ_r by lia.
    pose proof (Byte.to_N_bounded b) as Hb.
    assert (0 <= Z.of_N (Byte.to_N b) <= 255) by lia.
    lia.
Qed.

(** A full 8-byte buffer is read whole and never throws. *)
Lemma readBigInt64LE_eight (buf : list byte) :
  length buf = 8%nat ->
  readBigInt64LE buf = Ok (to_int64 (le_unsigned buf)).
Proof.
  intros H. unfold readBigInt64LE.
  destruct (decide (8 <= length buf)%nat) as [_|Hn]; [|lia].
  rewrite take_ge by lia. reflexivity.
Qed.

Lemma readBigInt64LE_short (buf : list byte) :
  (length buf < 8)%nat -> readBigInt64LE buf = Throw RangeError.
Proof.
  intros H. unfold readBigInt64LE.
  destruct (decide (8 <= length buf)%nat); [lia | reflexivity].
Qed.

(** Below 2^63 the signed read is the unsigned little-endian value. *)
Lemma to_int64_small (u : Z) : 0 <= u < 2 ^ 63 -> to_int64 u = u.
Proof.
  intros H. unfold to_int64.
  destruct (Z.testbit u 63) eqn:E; [|reflexivity].
  exfalso.
  rewrite Z.testbit_true in E by lia.
  rewrite Z.div_small in E by lia. discriminate.
Qed.


Lemma isBuy_of_short (encoded : list byte) :
  (length encoded <= 64)%nat -> isBuy_of encoded = false.
Proof.
  intros H. unfold isBuy_of. rewrite lookup_ge_None_2 by lia. reflexivity.
Qed.

Lemma isBuy_of_long (encoded : list byte) :
  (65 <= length encoded)%nat ->
  exists b, encoded !! 64%nat = Some b /\
            isBuy_of encoded = N.eqb (Byte.to_N b) 1.
Proof.
  intros H. destruct (lookup_lt_is_Some_2 encoded 64%nat) as [b Hb]; [lia|].
  exists b. split; [exact Hb|]. unfold isBuy_of. rewrite Hb. reflexivity.
Qed.

End BufferFacts.

(** ** The decoder *)

(** The fixture of the source file decodes to the documented values, in
    both scripts. *)
Lemma fixture_decodes :
  Full.decode fixture =
    Ok (Some {| Full.mint := slice 16 48 fixture;
                Full.solAmount := "491103214";
                Full.tokenAmount := "12256633644127";
                Full.isBuy := true;
                Full.timestamp := "1738840559" |}) /\
  Minimal.decode fixture =
    Ok {| Minimal.solAmount := "491103214";
          Minimal.tokenAmount := "12256633644127";
          Minimal.isBuy := true |}.
Proof. split; vm_compute; reflexivity. Qed.

(** Whenever the unsigned value at 48..55 (56..63) is below 2^63, the
    second script returns exactly that value. *)
Lemma minimal_decode_unsigned_below (encoded : list byte) :
  64 <= length encoded ->
  (le_unsigned (slice 48 56 encoded) < 2 ^ 63)%Z ->
  (le_unsigned (slice 56 64 encoded) < 2 ^ 63)%Z ->
  Minimal.decode encoded =
    Ok {| Minimal.solAmount := toString (le_unsigned (slice 48 56 encoded));
          Minimal.tokenAmount := toString (le_unsigned (slice 56 64 encoded));
          Minimal.isBuy := isBuy_of encoded |}.
Proof.
  intros Hlen Hs Ht. unfold Minimal.decode.
  rewrite !readBigInt64LE_eight by (rewrite slice_length; lia).
  simpl.
  pose proof (le_unsigned_bounds (slice 48 56 encoded)).
  pose proof (le_unsigned_bounds (slice 56 64 encoded)).
  rewrite !to_int64_small by lia. reflexivity.
Qed.

(** C9: the amounts are read with [readBigInt64LE], a signed read.  On the
    fixture with bytes 48..55 set to 0xff the unsigned little-endian value
    is 2^64 - 1, and both scripts return "-1". *)
Theorem solAmount_read_is_signed :
  length fixture_high_bit = 137 /\
  le_unsigned (slice 48 56 fixture_high_bit) = 18446744073709551615%Z /\
  (exists f, Full.decode fixture_high_bit = Ok (Some f) /\
             Full.solAmount f = "-1"%string /\
             Full.solAmount f <> toString (le_unsigned (slice 48 56 fixture_high_bit))) /\
  (exists f, Minimal.decode fixture_high_bit = Ok f /\
             Minimal.solAmount f = "-1"%string).
Proof.
  split; [reflexivity|].
  split; [vm_compute; reflexivity|].
  split.
  - eexists. split; [vm_compute; reflexivity|].
    split; [reflexivity|]. vm_compute. discriminate.
  - eexists. split; [vm_compute; reflexivity|]. reflexivity.
Qed.

(** C4, as stated, fails on a 64-byte blob: the two 8-byte reads end at
    byte 63 and [encoded[64]] reads [undefined], so the decode succeeds. *)
Lemma minimal_decode_64_bytes_succeeds :
  length (replicate 64 x00) < 65 /\
  Minimal.decode (replicate 64 x00) =
    Ok {| Minimal.solAmount := "0"; Minimal.tokenAmount := "0";
          Minimal.isBuy := false |} /\
  ~ (forall encoded : list byte,
       length encoded < 65 -> is_Ok (Minimal.decode encoded) = false).
Proof.
  split; [vm_compute; lia|].
  split; [vm_compute; reflexivity|].
  intros H. specialize (H (replicate 64 x00)).
  vm_compute in H. specialize (H ltac:(lia)). discriminate.
Qed.

(** C4 (amended): the second script's decode throws exactly on blobs
    shorter than 64 bytes; from 64 bytes on it succeeds with the signed
    64-bit integers at 48 and 56; [isBuy] is [false] on a 64-byte blob and
    the test of byte 64 against 1 from 65 bytes on. *)
Theorem minimal_decode_bounds (encoded : list byte) :
  (length encoded < 64 -> Minimal.decode encoded = Throw RangeError) /\
  (64 <= length encoded ->
     Minimal.decode encoded =
       Ok {| Minimal.solAmount := toString (to_int64 (le_unsigned (slice 48 56 encoded)));
             Minimal.tokenAmount := toString (to_int64 (le_unsigned (slice 56 64 encoded)));
             Minimal.isBuy := isBuy_of encoded |}) /\
  (length encoded = 64 -> isBuy_of encoded = false) /\
  (65 <= length encoded ->
     exists b, encoded !! 64 = Some b /\ isBuy_of encoded = N.eqb (Byte.to_N b) 1).
Proof.
  split; [|split; [|split]].
  - intros Hlen. unfold Minimal.decode.
    destruct (decide (length encoded < 56)) as [H56|H56].
    + rewrite (readBigInt64LE_short (slice 48 56 encoded)); [reflexivity|].
      unfold slice. rewrite length_take, length_drop. lia.
    + rewrite (readBigInt64LE_eight (slice 48 56 encoded)) by (rewrite slice_length; lia).
      rewrite (readBigInt64LE_short (slice 56 64 encoded)); [reflexivity|].
      unfold slice. rewrite length_take, length_drop. lia.
  - intros Hlen. unfold Minimal.decode.
    rewrite !readBigInt64LE_eight by (rewrite slice_length; lia).
    reflexivity.
  - intros Hlen. apply isBuy_of_short. lia.
  - apply isBuy_of_long.
Qed.

Lemma minimal_decode_bounds_witness :
  Minimal.decode (replicate 63 x00) = Throw RangeError /\
  is_Ok (Minimal.decode (replicate 64 x00)) = true /\
  is_Ok (Minimal.decode fixture) = true.
Proof.
  destruct (minimal_decode_bounds (replicate 63 x00)) as [H63 _].
  destruct (minimal_decode_bounds (replicate 64 x00)) as (_ & H64 & _).
  destruct (minimal_decode_bounds fixture) as (_ & Hfix & _).
  split; [apply H63; vm_compute; lia|].
  split; [rewrite H64 by (vm_compute; lia); reflexivity|].
  rewrite Hfix by (vm_compute; lia). reflexivity.
Defined.

(** ** The classifier *)

Lemma prefix_append (sub s : string) :
  String.prefix sub s = true <-> exists post, s = (sub ++ post)%string.
Proof.
  revert s. induction sub as [|a sub IH]; intros s.
  - split; [intros _; exists s; reflexivity|].
    intros _. destruct s; reflexivity.
  - destruct s as [|b s]; simpl.
    + split; [discriminate|]. intros [post H]. discriminate.
    + destruct (ascii_dec a b) as [->|Hne].
      * rewrite IH. split; intros [post H]; exists post.
        -- rewrite H. reflexivity.
        -- injection H as H. exact H.
      * split; [discriminate|]. intros [post H]. injection H as H1 H2.
        congruence.
Qed.

Lemma includes_occurs (sub s : string) :
  includes sub s = true <-> occurs_in sub s.
Proof.
  induction s as [|c s IH].
  - cbn [includes]. rewrite orb_false_r, prefix_append. split.
    + intros [post H]. exists EmptyString, post. exact H.
    + intros [[|c pre] [post H]]; [exists post; exact H | discriminate].
  - cbn [includes]. rewrite orb_true_iff, IH, prefix_append. split.
    + intros [[post H] | [pre [post H]]].
      * exists EmptyString, post. exact H.
      * exists (String c pre), post. rewrite H. reflexivity.
    + intros [[|c' pre] [post H]].
      * left. exists post. exact H.
      * right. injection H as _ H. exists pre, post. exact H.
Qed.

Lemma some_marker (marker : string) (logs : list string) :
  some (includes marker) logs = true <->
  exists log, log ∈ logs /\ occurs_in marker log.
Proof.
  unfold some. rewrite existsb_exists. split.
  - intros [log [Hin Hinc]]. exists log.
    split; [apply list_elem_of_In; exact Hin | apply includes_occurs; exact Hinc].
  - intros [log [Hin Hocc]]. exists log.
    split; [apply list_elem_of_In; exact Hin | apply includes_occurs; exact Hocc].
Qed.

Lemma some_references_program (ins : list Instruction) :
  (exists i, i ∈ ins /\ programId i = Some PUMPFUN_PROGRAM_ID) ->
  some references_program ins = true.
Proof.
  intros [i [Hin Hp]]. unfold some. apply existsb_exists.
  exists i. split; [apply list_elem_of_In; exact Hin|].
  unfold references_program, equals. rewrite Hp. apply String.eqb_refl.
Qed.

(** C8: for a record whose instruction list references the target program,
    a log sequence holding both the buy marker and the sell marker is
    classified 1 (buy), and one holding neither is classified 0, in both
    scripts. *)
Theorem classifier_buy_precedence
    (tx : VersionedTransactionResponse) (t : Transaction)
    (ins : list Instruction) (m : Meta) (logs : list string) :
  transaction tx = Some t ->
  instructions (message t) = Some ins ->
  (exists i, i ∈ ins /\ programId i = Some PUMPFUN_PROGRAM_ID) ->
  meta tx = Some m ->
  logMessages m = Some logs ->
  ((exists log, log ∈ logs /\ occurs_in buy_marker log) ->
   (exists log, log ∈ logs /\ occurs_in sell_marker log) ->
   Full.isPumpfunTx (Some tx) = Ok 1 /\ Minimal.isPumpfunTx (Some tx) = Ok 1) /\
  ((forall log, log ∈ logs ->
      ~ occurs_in buy_marker log /\ ~ occurs_in sell_marker log) ->
   Full.isPumpfunTx (Some tx) = Ok 0 /\ Minimal.isPumpfunTx (Some tx) = Ok 0).
Proof.
  intros Ht Hins Hprog Hm Hlogs.
  apply some_references_program in Hprog.
  assert (classify_logs tx =
            if some (includes buy_marker) logs then Ok 1
            else if some (includes sell_marker) logs then Ok 2 else Ok 0) as Hls.
  { unfold classify_logs, logs_some. rewrite Hm, Hlogs. cbn [mbind Res_bind].
    destruct (some (includes buy_marker) logs); [reflexivity|].
    destruct (some (includes sell_marker) logs); reflexivity. }
  split.
  - intros Hbuy _. apply some_marker in Hbuy.
    unfold Full.isPumpfunTx, Minimal.isPumpfunTx.
    rewrite Ht, Hins, Hprog, Hls, Hbuy. split; reflexivity.
  - intros Hnone.
    assert (forall marker, (marker = buy_marker \/ marker = sell_marker) ->
              some (includes marker) logs = false) as Hf.
    { intros marker Hmk. apply not_true_is_false. intros Hs.
      apply some_marker in Hs. destruct Hs as [log [Hin Hocc]].
      destruct (Hnone log Hin) as [Hb Hs]. destruct Hmk; subst; contradiction. }
    unfold Full.isPumpfunTx, Minimal.isPumpfunTx.
    rewrite Ht, Hins, Hprog, Hls, !Hf by auto. split; reflexivity.
Qed.

Lemma classifier_buy_precedence_witness :
  Full.isPumpfunTx (Some (sample_tx [sell_marker; buy_marker] [])) = Ok 1 /\
  Minimal.isPumpfunTx (Some (sample_tx ["Program log: Instruction: Create"%string] [])) = Ok 0.
Proof.
  split.
  - refine (proj1 (proj1 (classifier_buy_precedence
        (sample_tx [sell_marker; buy_marker] []) _ _ _ _
        eq_refl eq_refl _ eq_refl eq_refl) _ _)).
    + exists (pumpfun_instruction []). split; [apply list_elem_of_here | reflexivity].
    + exists buy_marker. split; [apply list_elem_of_further, list_elem_of_here|].
      exists EmptyString, EmptyString. reflexivity.
    + exists sell_marker. split; [apply list_elem_of_here|].
      exists EmptyString, EmptyString. reflexivity.
  - refine (proj2 (proj2 (classifier_buy_precedence
        (sample_tx ["Program log: Instruction: Create"%string] []) _ _ _ _
        eq_refl eq_refl _ eq_refl eq_refl) _)).
    + exists (pumpfun_instruction []). split; [apply list_elem_of_here | reflexivity].
    + intros log Hin. apply list_elem_of_singleton in Hin. subst log.
      split; intros Hocc; apply includes_occurs in Hocc; vm_compute in Hocc; discriminate.
Defined.

(** ** The scheduler *)

Lemma same_sched_refl (st : State) : same_sched st st.
Proof. repeat split. Qed.

Lemma then_callback_sched (s : Script) (sig : SignatureInfo)
    (tx : option VersionedTransactionResponse) (st st' : State) :
  then_callback s sig tx st = Ok st' -> same_sched st st'.
Proof.
  unfold then_callback. destruct s.
  - destruct (Full.isPumpfunTx tx) as [ty|e]; cbn [mbind Res_bind]; [|discriminate].
    destruct (Nat.eqb ty 0).
    + intros [= <-]. apply same_sched_refl.
    + destruct tx as [tx'|]; [|discriminate].
      intros [= <-]. repeat split.
  - destruct (Minimal.isPumpfunTx tx) as [ty|e]; cbn [mbind Res_bind]; [|discriminate].
    destruct (Nat.eqb ty 0).
    + intros [= <-]. apply same_sched_refl.
    + destruct tx as [tx'|]; [|discriminate].
      destruct (Minimal.parsePumpfunTx tx') as [parsed|e]; cbn [mbind Res_bind]; [|discriminate].
      intros [= <-]. repeat split.
Qed.

Lemma settled_state_sched (s : Script) (sig : SignatureInfo) (o : Outcome)
    (st : State) :
  same_sched st (settled_state s sig o st).
Proof.
  unfold settled_state. destruct o as [tx|e]; [|repeat split].
  destruct (then_callback s sig tx st) as [st'|e] eqn:E; [|repeat split].
  eapply then_callback_sched; eassumption.
Qed.

Lemma name_settled_sched (j : nat) (name : Res string) (st st' : State) :
  name_settled j name st = Some st' -> same_sched st st'.
Proof.
  unfold name_settled. destruct (detached st !! j) as [d|]; [|discriminate].
  cbn [mbind option_bind].
  match goal with |- Some (match ?p with _ => _ end) = _ -> _ => destruct p end;
    intros [= <-]; repeat split.
Qed.

Section Scheduler.

Variable s : Script.
Variable signatures : list SignatureInfo.

Lemma guard_true (st : State) :
  guard signatures st = true <->
  size (inProgress st) < batchSize /\
  completed st + size (inProgress st) < length signatures.
Proof.
  unfold guard. rewrite andb_true_iff, !Nat.ltb_lt. reflexivity.
Qed.

Lemma Inv_same_sched (st st' : State) : same_sched st st' -> Inv signatures st -> Inv signatures st'.
Proof.
  intros (H1 & H2 & H3 & H4 & H5) [F C O T L Q].
  constructor; rewrite ?H1, ?H2, ?H3, ?H5; assumption.
Qed.

Lemma guard_same_sched (st st' : State) :
  same_sched st st' -> guard signatures st' = guard signatures st.
Proof. intros (H1 & H2 & _). unfold guard. rewrite H1, H2. reflexivity. Qed.

Lemma Good_same_sched (st st' : State) : same_sched st st' -> Good signatures st -> Good signatures st'.
Proof.
  intros Hs (HI & HG & HR). split; [|split].
  - eapply Inv_same_sched; eassumption.
  - rewrite (guard_same_sched st st' Hs). exact HG.
  - destruct Hs as (H1 & H2 & H3 & H4 & H5). unfold res_inv. rewrite H4, H2. exact HR.
Qed.

Lemma queue_finally_Good (st : State) (k : nat) :
  k ∈ inProgress st -> Good signatures st -> Good signatures (queue_finally k st).
Proof.
  intros Hk ([F C O T L Q] & HG & HR). split; [|split].
  - constructor; cbn [queue_finally inProgress launched completed settled];
      try assumption.
    apply union_subseteq. split; [apply singleton_subseteq_l; exact Hk | exact Q].
  - exact HG.
  - exact HR.
Qed.

Lemma size_add_fresh (X : gset nat) (n : nat) :
  (forall k, k ∈ X -> k < n) -> size ({[ n ]} ∪ X) = S (size X).
Proof.
  intros Hlt. rewrite size_union, size_singleton; [reflexivity|].
  apply disjoint_singleton_l. intros Hn. apply Hlt in Hn. lia.
Qed.

Lemma size_remove (X : gset nat) (k : nat) :
  k ∈ X -> S (size (X ∖ {[ k ]})) = size X.
Proof.
  intros Hk. rewrite size_difference by (apply singleton_subseteq_l; exact Hk).
  rewrite size_singleton.
  assert (size X <> 0); [|lia].
  intros H0. apply size_empty_inv in H0. set_solver.
Qed.

Lemma launch_Inv (st : State) :
  Inv signatures st -> guard signatures st = true ->
  Inv signatures (launch (completed st + size (inProgress st)) st).
Proof.
  intros [F C O T L Q] Hg. apply guard_true in Hg. destruct Hg as [Hb Hn].
  constructor; cbn [launch inProgress launched completed settled].
  - intros k Hk. rewrite length_app. cbn [length].
    apply elem_of_union in Hk. destruct Hk as [Hk|Hk].
    + apply elem_of_singleton in Hk. lia.
    + apply F in Hk. lia.
  - rewrite size_add_fresh by exact F. rewrite length_app. cbn [length]. lia.
  - rewrite length_app. cbn [length]. rewrite Nat.add_1_r, seq_S.
    rewrite <- O, C. reflexivity.
  - rewrite length_app. cbn [length]. lia.
  - rewrite size_add_fresh by exact F. lia.
  - apply union_subseteq_r'. exact Q.
Qed.

Lemma retire_Inv (st : State) (k : nat) :
  Inv signatures st -> k ∈ inProgress st -> Inv signatures (retire k st).
Proof.
  intros [F C O T L Q] Hk. pose proof (size_remove _ _ Hk) as Hs.
  constructor; cbn [retire inProgress launched completed settled];
    try assumption; try lia.
  - intros k' Hin. apply F. apply elem_of_difference in Hin. apply Hin.
  - intros k' Hin. apply elem_of_difference in Hin. destruct Hin as [Hin Hne].
    apply elem_of_difference. split; [apply Q; exact Hin | exact Hne].
Qed.

Lemma startNext_loop_Inv (fuel : nat) (st : State) :
  Inv signatures st -> Inv signatures (startNext_loop fuel signatures st).
Proof.
  revert st. induction fuel as [|fuel IH]; intros st HI; cbn [startNext_loop].
  - exact HI.
  - destruct (guard signatures st) eqn:Hg; [|exact HI].
    apply IH, launch_Inv; assumption.
Qed.

(** [batchSize] turns are enough: the loop stops because its guard fails. *)
Lemma startNext_loop_guard (fuel : nat) (st : State) :
  Inv signatures st -> batchSize <= fuel + size (inProgress st) ->
  guard signatures (startNext_loop fuel signatures st) = false.
Proof.
  revert st. induction fuel as [|fuel IH]; intros st HI Hf; cbn [startNext_loop].
  - apply not_true_is_false. intros Hg. apply guard_true in Hg. lia.
  - destruct (guard signatures st) eqn:Hg; [|exact Hg].
    apply IH; [apply launch_Inv; assumption|].
    cbn [launch inProgress]. rewrite size_add_fresh by (apply HI). lia.
Qed.

Lemma startNext_guard (st : State) :
  Inv signatures st -> guard signatures (startNext signatures st) = false.
Proof. intros HI. apply startNext_loop_guard; [exact HI | lia]. Qed.

(** [startNext] only launches: it touches neither the collected records,
    nor the console, nor [completed], nor the resolution. *)
Lemma startNext_loop_data (fuel : nat) (st : State) :
  let st' := startNext_loop fuel signatures st in
  transactions st' = transactions st /\ console st' = console st /\
  detached st' = detached st /\ unhandled st' = unhandled st /\
  resolved st' = resolved st /\ completed st' = completed st /\
  settled st' = settled st.
Proof.
  revert st. induction fuel as [|fuel IH]; intros st; cbn [startNext_loop].
  - repeat split.
  - destruct (guard signatures st); [|repeat split].
    specialize (IH (launch (completed st + size (inProgress st)) st)).
    cbn [launch transactions console detached unhandled resolved completed settled] in IH.
    exact IH.
Qed.

Lemma startNext_Inv (st : State) : Inv signatures st -> Inv signatures (startNext signatures st).
Proof. apply startNext_loop_Inv. Qed.

Lemma startNext_data (st : State) :
  let st' := startNext signatures st in
  transactions st' = transactions st /\ console st' = console st /\
  detached st' = detached st /\ unhandled st' = unhandled st /\
  resolved st' = resolved st /\ completed st' = completed st /\
  settled st' = settled st.
Proof. apply startNext_loop_data. Qed.

Lemma initial_Inv : Inv signatures initial.
Proof.
  constructor; cbn [initial inProgress launched completed settled length seq].
  - intros k Hk. set_solver.
  - rewrite size_empty. reflexivity.
  - reflexivity.
  - lia.
  - rewrite size_empty. lia.
  - reflexivity.
Qed.

Lemma getTransactionDetails_Good : Good signatures (getTransactionDetails signatures).
Proof.
  unfold getTransactionDetails.
  split; [|split].
  - apply startNext_Inv, initial_Inv.
  - apply startNext_guard, initial_Inv.
  - pose proof (startNext_data initial) as (_ & _ & _ & _ & Hr & Hc & _).
    unfold res_inv. rewrite Hr, Hc. cbn [initial resolved completed]. lia.
Qed.

Lemma resolve_Inv (n : nat) (st : State) : Inv signatures st -> Inv signatures (resolve n st).
Proof. intros [F C O T L Q]. constructor; assumption. Qed.

Lemma resolve_guard (n : nat) (st : State) :
  guard signatures (resolve n st) = guard signatures st.
Proof. reflexivity. Qed.

Lemma resolve_resolved (n : nat) (st : State) :
  resolved st = None ->
  resolved (resolve n st) =
    Some {| txCount := n; pumpfunCount := length (transactions st) |}.
Proof. intros H. cbn [resolve resolved]. rewrite H. reflexivity. Qed.

(** A fetch still in flight means that the promise is not resolved yet. *)
Lemma in_flight_unresolved (st : State) (k : nat) :
  Good signatures st -> k ∈ inProgress st ->
  resolved st = None /\ completed st < length signatures.
Proof.
  intros (HI & _ & HR) Hk. pose proof (size_remove _ _ Hk) as Hsz.
  destruct HI as [F C O T L Q]. unfold res_inv in HR.
  destruct (resolved st) as [r|]; [lia|]. split; [reflexivity|lia].
Qed.

Lemma finally_callback_eq (k : nat) (st : State) :
  finally_callback s signatures k st =
    let st3 := startNext signatures (retired_state s signatures k st) in
    if Nat.eqb (completed st3) (length signatures)
    then resolve (length signatures) st3 else st3.
Proof. reflexivity. Qed.

Lemma retired_state_sched (k : nat) (st : State) :
  same_sched (retire k st) (retired_state s signatures k st) /\
  transactions (retired_state s signatures k st) = transactions st /\
  detached (retired_state s signatures k st) = detached st /\
  unhandled (retired_state s signatures k st) = unhandled st /\
  exists rest, console (retired_state s signatures k st) = console st ++ rest.
Proof.
  unfold retired_state. destruct s.
  - repeat split. exists []. cbn [retire console]. rewrite app_nil_r. reflexivity.
  - destruct (Nat.eqb _ 0).
    + repeat split. eexists. reflexivity.
    + repeat split. exists []. cbn [retire console]. rewrite app_nil_r. reflexivity.
Qed.

Lemma finally_callback_Good (st : State) (k : nat) :
  Good signatures st -> k ∈ inProgress st -> Good signatures (finally_callback s signatures k st).
Proof.
  intros HG Hk. destruct (in_flight_unresolved st k HG Hk) as [HrN Hlt].
  destruct HG as (HI & HG & HR).
  rewrite finally_callback_eq. cbv zeta.
  destruct (retired_state_sched k st) as (Hs12 & _).
  assert (Inv signatures (retired_state s signatures k st)) as HI2.
  { eapply Inv_same_sched; [exact Hs12|]. apply retire_Inv; assumption. }
  pose proof (startNext_Inv _ HI2) as HI3.
  pose proof (startNext_guard _ HI2) as HG3.
  pose proof (startNext_data (retired_state s signatures k st)) as (_ & _ & _ & _ & Hr3 & Hc3 & _).
  set (st3 := startNext signatures (retired_state s signatures k st)) in *.
  assert (resolved st3 = resolved st /\ completed st3 = S (completed st)) as [Hr Hc].
  { destruct Hs12 as (_ & Hc2 & _ & Hr2 & _). rewrite Hr3, Hc3, Hr2, Hc2. split; reflexivity. }
  destruct (Nat.eqb (completed st3) (length signatures)) eqn:E.
  - apply Nat.eqb_eq in E. split; [|split].
    + apply resolve_Inv, HI3.
    + rewrite resolve_guard. exact HG3.
    + unfold res_inv. rewrite resolve_resolved by congruence.
      cbn [txCount]. change (completed (resolve (length signatures) st3)) with (completed st3).
      lia.
  - apply Nat.eqb_neq in E. split; [exact HI3|split; [exact HG3|]].
    unfold res_inv. rewrite Hr, HrN. lia.
Qed.

Lemma step_Good (st st' : State) (ev : Event) :
  Good signatures st -> step s signatures st ev = Some st' -> Good signatures st'.
Proof.
  intros HG. destruct ev as [k o|k|j name]; cbn [step].
  - unfold fetch_settled.
    destruct (decide (k ∈ inProgress st ∧ k ∉ settled st)) as [[Hk _]|]; [|discriminate].
    destruct (launched st !! k) as [pos|]; [|discriminate]. cbn [mbind option_bind].
    destruct (signatures !! pos) as [sig|]; [|discriminate]. cbn [mbind option_bind].
    intros [= <-].
    pose proof (settled_state_sched s sig o st) as Hs.
    apply queue_finally_Good.
    + destruct Hs as (-> & _). exact Hk.
    + eapply Good_same_sched; eassumption.
  - unfold finally_runs. destruct (decide (k ∈ settled st)) as [Hk|]; [|discriminate].
    intros [= <-]. apply finally_callback_Good; [exact HG|].
    destruct HG as ([F C O T L Q] & _). apply Q, Hk.
  - intros H. apply name_settled_sched in H. eapply Good_same_sched; eassumption.
Qed.

Lemma run_from_Good (evs : list Event) (st st' : State) :
  Good signatures st -> run_from s signatures st evs = Some st' -> Good signatures st'.
Proof.
  revert st. induction evs as [|ev evs IH]; intros st HG; cbn [run_from].
  - intros [= <-]. exact HG.
  - destruct (step s signatures st ev) as [st1|] eqn:E; [|discriminate].
    cbn [mbind option_bind]. apply IH. eapply step_Good; eassumption.
Qed.

Lemma run_Good (evs : list Event) (st : State) :
  run s signatures evs = Some st -> Good signatures st.
Proof. apply run_from_Good, getTransactionDetails_Good. Qed.

Lemma run_from_app (evs1 evs2 : list Event) (st : State) :
  run_from s signatures st (evs1 ++ evs2) =
  st1 ← run_from s signatures st evs1; run_from s signatures st1 evs2.
Proof.
  revert st. induction evs1 as [|ev evs1 IH]; intros st; cbn [run_from app].
  - reflexivity.
  - destruct (step s signatures st ev) as [st1|]; cbn [mbind option_bind]; [apply IH | reflexivity].
Qed.

(** Every prefix of a run is a run. *)
Lemma run_prefix (evs : list Event) (st : State) (n : nat) :
  run s signatures evs = Some st ->
  exists st_n, run s signatures (take n evs) = Some st_n.
Proof.
  unfold run. rewrite <- (take_drop n evs) at 1. rewrite run_from_app.
  destruct (run_from s signatures (getTransactionDetails signatures) (take n evs)) as [st_n|];
    [|discriminate].
  intros _. exists st_n. reflexivity.
Qed.

End Scheduler.

(** ** Progress of a run *)

Section Progress.

Variable s : Script.
Variable signatures : list SignatureInfo.

Lemma batchSize_pos : 0 < batchSize.
Proof. unfold batchSize. lia. Qed.

(** While identifiers remain, some fetch is in flight. *)
Lemma pending_fetch (st : State) :
  Good signatures st -> completed st < length signatures ->
  exists k, k ∈ inProgress st.
Proof.
  intros (HI & HG & _) Hlt. apply size_pos_elem_of.
  destruct (size (inProgress st)) eqn:E; [|lia].
  exfalso. assert (guard signatures st = true) as Ht; [|congruence].
  apply guard_true. rewrite E. pose proof batchSize_pos. lia.
Qed.

(** A fetch in flight can settle either way: promise [k] fetches position
    [k] of the list. *)
Lemma fetch_settled_enabled (st : State) (k : nat) (o : Outcome) :
  Good signatures st -> k ∈ inProgress st -> k ∉ settled st ->
  exists sig,
    launched st !! k = Some k /\ signatures !! k = Some sig /\
    fetch_settled s signatures k o st =
      Some (queue_finally k (settled_state s sig o st)).
Proof.
  intros (HI & _ & _) Hk Hq. destruct HI as [F C O T L Q].
  pose proof (F k Hk) as Hlt.
  assert (launched st !! k = Some k) as Hpos.
  { rewrite O. rewrite lookup_seq_lt by exact Hlt. reflexivity. }
  destruct (lookup_lt_is_Some_2 signatures k) as [sig Hsig]; [lia|].
  exists sig. split; [exact Hpos|]. split; [exact Hsig|].
  unfold fetch_settled.
  destruct (decide (k ∈ inProgress st ∧ k ∉ settled st)) as [_|Hn];
    [|exfalso; apply Hn; split; assumption].
  rewrite Hpos. cbn [mbind option_bind]. rewrite Hsig. reflexivity.
Qed.

Lemma finally_runs_enabled (st : State) (k : nat) :
  k ∈ settled st ->
  finally_runs s signatures k st = Some (finally_callback s signatures k st).
Proof.
  intros Hk. unfold finally_runs.
  destruct (decide (k ∈ settled st)); [reflexivity | contradiction].
Qed.

(** What [.finally] leaves untouched, and what it adds. *)
Lemma finally_callback_data (k : nat) (st : State) :
  let st' := finally_callback s signatures k st in
  transactions st' = transactions st /\ detached st' = detached st /\
  unhandled st' = unhandled st /\ completed st' = S (completed st) /\
  exists rest, console st' = console st ++ rest.
Proof.
  rewrite finally_callback_eq. cbv zeta.
  destruct (retired_state_sched s signatures k st)
    as ((_ & Hc & _) & Ht & Hd & Hu & rest & Hl).
  pose proof (startNext_data signatures (retired_state s signatures k st))
    as (Ht3 & Hl3 & Hd3 & Hu3 & _ & Hc3 & _).
  set (st3 := startNext signatures (retired_state s signatures k st)) in *.
  destruct (Nat.eqb (completed st3) (length signatures));
    cbn [resolve transactions detached unhandled completed console];
    rewrite Ht3, Hd3, Hu3, Hc3, Hl3, Ht, Hd, Hu, Hc, Hl;
    repeat split; exists rest; reflexivity.
Qed.

(** The counts stored by [.finally] when it resolves the promise. *)
Lemma finally_callback_count (k : nat) (st : State) (r : PipelineResult) :
  resolved st = None ->
  resolved (finally_callback s signatures k st) = Some r ->
  txCount r = length signatures /\ pumpfunCount r = length (transactions st).
Proof.
  intros HrN. rewrite finally_callback_eq. cbv zeta.
  destruct (retired_state_sched s signatures k st)
    as ((_ & _ & _ & Hr & _) & Ht & _).
  pose proof (startNext_data signatures (retired_state s signatures k st))
    as (Ht3 & _ & _ & _ & Hr3 & _).
  set (st3 := startNext signatures (retired_state s signatures k st)) in *.
  cbn [retire resolved] in Hr.
  destruct (Nat.eqb (completed st3) (length signatures)).
  - rewrite resolve_resolved by congruence. intros [= <-].
    cbn [txCount pumpfunCount]. rewrite Ht3, Ht. split; reflexivity.
  - rewrite Hr3, Hr, HrN. discriminate.
Qed.

(** One more fetch is accounted for: its promise settles if it has not
    yet, and its [.finally] callback runs. *)
Lemma one_more_completes (outcome : nat -> Outcome) (st : State) :
  Good signatures st -> completed st < length signatures ->
  exists evs st',
    run_from s signatures st evs = Some st' /\
    Good signatures st' /\ completed st' = S (completed st).
Proof.
  intros HG Hlt. destruct (pending_fetch st HG Hlt) as [k Hk].
  destruct (decide (k ∈ settled st)) as [Hq|Hq].
  - exists [Finally k], (finally_callback s signatures k st).
    cbn [run_from step]. rewrite (finally_runs_enabled st k Hq).
    split; [reflexivity|].
    split; [apply finally_callback_Good; assumption|].
    apply finally_callback_data.
  - destruct (fetch_settled_enabled st k (outcome k) HG Hk Hq) as (sig & _ & _ & Hstep).
    set (st1 := queue_finally k (settled_state s sig (outcome k) st)) in *.
    assert (Good signatures st1) as HG1.
    { apply (step_Good s signatures st st1 (FetchSettled k (outcome k)) HG). exact Hstep. }
    assert (k ∈ settled st1) as Hq1.
    { cbn [st1 queue_finally settled]. apply elem_of_union_l, elem_of_singleton. reflexivity. }
    assert (k ∈ inProgress st1) as Hk1 by (apply HG1, Hq1).
    assert (completed st1 = completed st) as Hc1.
    { pose proof (settled_state_sched s sig (outcome k) st) as (_ & Hc & _). exact Hc. }
    exists [FetchSettled k (outcome k); Finally k], (finally_callback s signatures k st1).
    cbn [run_from step]. rewrite Hstep. cbn [mbind option_bind].
    rewrite (finally_runs_enabled st1 k Hq1).
    split; [reflexivity|].
    split; [apply finally_callback_Good; assumption|].
    rewrite <- Hc1. apply finally_callback_data.
Qed.

(** From any point of a run with a non-empty list, whatever each fetch
    yields, the remaining fetches can settle and the promise resolves. *)
Lemma run_completes (outcome : nat -> Outcome) (n : nat) (st : State) :
  0 < length signatures ->
  Good signatures st -> length signatures - completed st = n ->
  exists evs st',
    run_from s signatures st evs = Some st' /\
    completed st' = length signatures /\ is_Some (resolved st').
Proof.
  intros Hpos. revert st. induction n as [|n IH]; intros st HG Hn.
  - exists [], st. split; [reflexivity|].
    pose proof HG as (HI & _ & HR). destruct HI as [F C O T L Q].
    assert (completed st = length signatures) as Hc by lia.
    split; [exact Hc|]. unfold res_inv in HR.
    destruct (resolved st) as [r|]; [eexists; reflexivity | lia].
  - destruct (one_more_completes outcome st HG) as (evs1 & st1 & Hrun1 & HG1 & Hc1); [lia|].
    destruct (IH st1 HG1) as (evs & st' & Hrun & Hdone); [lia|].
    exists (evs1 ++ evs), st'. split; [|exact Hdone].
    rewrite run_from_app, Hrun1. exact Hrun.
Qed.

End Progress.

(** ** The concurrency limit and the order of the fetches *)

(** C7: at every point of every run, whatever the list and the order in
    which the fetches settle, at most [batchSize] fetches are in flight;
    this holds of the final state and of the state after each prefix of
    the events. *)
Theorem in_flight_bounded (s : Script) (signatures : list SignatureInfo)
    (evs : list Event) (st : State) (n : nat) :
  run s signatures evs = Some st ->
  size (inProgress st) <= batchSize /\
  exists st_n, run s signatures (take n evs) = Some st_n /\
               size (inProgress st_n) <= batchSize.
Proof.
  intros Hrun. split.
  - apply run_Good in Hrun. apply Hrun.
  - destruct (run_prefix s signatures evs st n Hrun) as [st_n Hn].
    exists st_n. split; [exact Hn|]. apply run_Good in Hn. apply Hn.
Qed.

Lemma in_flight_bounded_witness :
  exists st, run MinimalScript (sigs_n 25) sample_events = Some st /\
             size (inProgress st) <= batchSize.
Proof.
  eexists. split; [vm_compute; reflexivity|].
  refine (proj1 (in_flight_bounded MinimalScript (sigs_n 25) sample_events _ 0 _)).
  vm_compute. reflexivity.
Defined.

(** C10: at every point of every run [completed + inProgress.size] is the
    number of fetches launched so far, the fetches were launched for the
    positions 0, 1, 2, ... in this order (none skipped, none repeated),
    never past the end of the list; and once the promise is resolved every
    position of the list has been fetched exactly once. *)
Theorem each_identifier_fetched_once (s : Script)
    (signatures : list SignatureInfo) (evs : list Event) (st : State) :
  run s signatures evs = Some st ->
  completed st + size (inProgress st) = length (launched st) /\
  launched st = seq 0 (length (launched st)) /\
  NoDup (launched st) /\
  length (launched st) <= length signatures /\
  (is_Some (resolved st) -> launched st = seq 0 (length signatures)).
Proof.
  intros Hrun. apply run_Good in Hrun. destruct Hrun as (HI & HG & HR).
  destruct HI as [F C O T L Q].
  split; [exact C|]. split; [exact O|].
  split; [rewrite O; apply NoDup_seq|].
  split; [exact T|].
  intros [r Hr]. unfold res_inv in HR. rewrite Hr in HR.
  destruct HR as (_ & Hc & _).
  assert (length (launched st) = length signatures) as <- by lia.
  exact O.
Qed.

Lemma each_identifier_fetched_once_witness :
  exists st, run FullScript (sigs_n 25) sample_events = Some st /\
             launched st = seq 0 22 /\ completed st = 2.
Proof.
  eexists. split; [vm_compute; reflexivity|].
  assert (run FullScript (sigs_n 25) sample_events = Some _) as Hrun
    by (vm_compute; reflexivity).
  destruct (each_identifier_fetched_once _ _ _ _ Hrun) as (_ & Ho & _).
  split; [|reflexivity]. rewrite Ho. reflexivity.
Defined.

(** ** Failures and counts *)

(** C6: in every run, a fetch in flight that fails is logged with its
    signature, adds no record and no pending decode, and raises nothing;
    its [.finally] callback then counts it in [completed]; the run can
    still go on to its resolution, and whenever it resolves, [txCount] is
    the length of the list. *)
Theorem fetch_failure_is_contained (s : Script)
    (signatures : list SignatureInfo) (evs : list Event) (st : State)
    (k : nat) (e : Exn) :
  run s signatures evs = Some st ->
  k ∈ inProgress st -> k ∉ settled st ->
  exists sig st1 st2,
    signatures !! k = Some sig /\
    step s signatures st (FetchSettled k (Rejected e)) = Some st1 /\
    console st1 = console st ++ [ErrorFetching (signature sig) e] /\
    transactions st1 = transactions st /\
    detached st1 = detached st /\
    unhandled st1 = unhandled st /\
    resolved st1 = resolved st /\
    step s signatures st1 (Finally k) = Some st2 /\
    completed st2 = S (completed st) /\
    transactions st2 = transactions st /\
    unhandled st2 = unhandled st /\
    (exists evs' st'',
       run s signatures (evs ++ FetchSettled k (Rejected e) :: evs') = Some st'' /\
       is_Some (resolved st'')) /\
    (forall evs' st'' r,
       run s signatures (evs ++ FetchSettled k (Rejected e) :: evs') = Some st'' ->
       resolved st'' = Some r -> txCount r = length signatures).
Proof.
  intros Hrun Hk Hq. pose proof (run_Good _ _ _ _ Hrun) as HG.
  destruct (fetch_settled_enabled s signatures st k (Rejected e) HG Hk Hq)
    as (sig & _ & Hsig & Hstep).
  cbn [settled_state] in Hstep.
  set (st1 := queue_finally k (catch_callback sig e st)) in *.
  assert (Good signatures st1) as HG1.
  { apply (step_Good s signatures st st1 (FetchSettled k (Rejected e)) HG). exact Hstep. }
  assert (k ∈ settled st1) as Hq1.
  { cbn [st1 queue_finally settled]. apply elem_of_union_l, elem_of_singleton. reflexivity. }
  pose proof (finally_runs_enabled s signatures st1 k Hq1) as Hfin.
  pose proof (finally_callback_data s signatures k st1) as (Ht & _ & Hu & Hc & _).
  assert (forall evs', run s signatures (evs ++ FetchSettled k (Rejected e) :: evs') =
                       run_from s signatures st1 evs') as Happ.
  { intros evs'. unfold run in *. rewrite run_from_app, Hrun.
    cbn [mbind option_bind run_from step]. rewrite Hstep. reflexivity. }
  exists sig, st1, (finally_callback s signatures k st1).
  split; [exact Hsig|]. split; [exact Hstep|].
  split; [reflexivity|]. split; [reflexivity|]. split; [reflexivity|].
  split; [reflexivity|]. split; [reflexivity|].
  split; [exact Hfin|]. split; [exact Hc|]. split; [exact Ht|]. split; [exact Hu|].
  split.
  - destruct (in_flight_unresolved signatures st k HG Hk) as [_ Hlt].
    destruct (run_completes s signatures (fun _ => Rejected e)
                (length signatures - completed st1) st1) as (evs' & st'' & Hr & _ & Hres);
      [lia | exact HG1 | reflexivity |].
    exists evs', st''. rewrite Happ. split; assumption.
  - intros evs' st'' r Hr Hres. rewrite Happ in Hr.
    pose proof (run_from_Good s signatures evs' st1 st'' HG1 Hr) as (_ & _ & HR).
    unfold res_inv in HR. rewrite Hres in HR. apply HR.
Qed.

Lemma fetch_failure_is_contained_witness :
  exists st1 st2,
    step FullScript (sigs_n 25) (getTransactionDetails (sigs_n 25))
      (FetchSettled 3 (Rejected (Error "timeout"))) = Some st1 /\
    step FullScript (sigs_n 25) st1 (Finally 3) = Some st2 /\
    completed st2 = 1 /\ transactions st2 = [].
Proof.
  assert (run FullScript (sigs_n 25) [] = Some (getTransactionDetails (sigs_n 25)))
    as Hrun by reflexivity.
  assert (3 ∈ inProgress (getTransactionDetails (sigs_n 25))) as Hk
    by (vm_compute; reflexivity).
  assert (3 ∉ settled (getTransactionDetails (sigs_n 25))) as Hq
    by (vm_compute; discriminate).
  destruct (fetch_failure_is_contained FullScript (sigs_n 25) []
              (getTransactionDetails (sigs_n 25)) 3 (Error "timeout") Hrun Hk Hq)
    as (sig & st1 & st2 & _ & Hstep & _ & _ & _ & _ & _ & Hfin & Hc & Ht & _).
  exists st1, st2. split; [exact Hstep|]. split; [exact Hfin|].
  split; [exact Hc | exact Ht].
Defined.

(** In the second script the record is pushed inside the [.then] callback,
    so the stored count is the length of the array whenever it is read. *)
Lemma minimal_count_matches (signatures : list SignatureInfo)
    (evs : list Event) (st : State) (o : Observed) :
  run MinimalScript signatures evs = Some st ->
  observe st = Some o ->
  o_pumpfunCount o = length (o_transactions o).
Proof.
  intros Hrun Hobs.
  assert (Good signatures st /\ detached st = [] /\
          forall r, resolved st = Some r -> pumpfunCount r = length (transactions st))
    as (_ & _ & Hcount).
  { revert Hrun. unfold run.
    assert (Good signatures (getTransactionDetails signatures) /\
            detached (getTransactionDetails signatures) = [] /\
            forall r, resolved (getTransactionDetails signatures) = Some r ->
                      pumpfunCount r = length (transactions (getTransactionDetails signatures)))
      as H0.
    { split; [apply getTransactionDetails_Good|].
      unfold getTransactionDetails.
      pose proof (startNext_data signatures initial) as (_ & _ & Hd & _ & Hr & _).
      rewrite Hd, Hr. split; [reflexivity | discriminate]. }
    revert H0. generalize (getTransactionDetails signatures). clear Hobs.
    induction evs as [|ev evs IH]; intros st0 H0; cbn [run_from].
    - intros [= <-]. exact H0.
    - destruct (step MinimalScript signatures st0 ev) as [st1|] eqn:E; [|discriminate].
      cbn [mbind option_bind]. apply IH.
      destruct H0 as (HG & Hd & Hc).
      split; [eapply step_Good; eassumption|].
      destruct ev as [k out|k|j name]; cbn [step] in E.
      + assert (k ∈ inProgress st0 /\ k ∉ settled st0) as [Hk Hq].
        { unfold fetch_settled in E.
          destruct (decide (k ∈ inProgress st0 ∧ k ∉ settled st0)); [assumption|discriminate]. }
        destruct (fetch_settled_enabled MinimalScript signatures st0 k out HG Hk Hq)
          as (sig & _ & _ & Hstep).
        rewrite Hstep in E. injection E as <-.
        destruct (in_flight_unresolved signatures st0 k HG Hk) as [HrN _].
        pose proof (settled_state_sched MinimalScript sig out st0) as (_ & _ & _ & Hr & _).
        cbn [queue_finally detached resolved transactions]. split.
        * unfold settled_state. destruct out as [tx|e]; [|exact Hd].
          unfold then_callback.
          destruct (Minimal.isPumpfunTx tx) as [ty|e]; cbn [mbind Res_bind]; [|exact Hd].
          destruct (Nat.eqb ty 0); [exact Hd|].
          destruct tx as [tx'|]; [|exact Hd].
          destruct (Minimal.parsePumpfunTx tx') as [parsed|e]; cbn [mbind Res_bind]; exact Hd.
        * intros r Hres. congruence.
      + assert (k ∈ settled st0) as Hq.
        { unfold finally_runs in E. destruct (decide (k ∈ settled st0)); [assumption|discriminate]. }
        rewrite (finally_runs_enabled MinimalScript signatures st0 k Hq) in E.
        injection E as <-.
        assert (k ∈ inProgress st0) as Hk by (apply HG, Hq).
        destruct (in_flight_unresolved signatures st0 k HG Hk) as [HrN _].
        pose proof (finally_callback_data MinimalScript signatures k st0) as (Ht & Hd' & _).
        split; [rewrite Hd'; exact Hd|].
        intros r Hr. rewrite Ht.
        eapply finally_callback_count; eassumption.
      + unfold name_settled in E. rewrite Hd in E. discriminate. }
  unfold observe in Hobs. destruct (resolved st) as [r|] eqn:Hr; [|discriminate].
  cbn [mbind option_bind] in Hobs. injection Hobs as <-.
  cbn [o_pumpfunCount o_transactions]. apply Hcount. reflexivity.
Qed.

(** When the token name is already there (a cache hit), the detached
    promise of the first script goes on before the [.finally] callback of
    its fetch, and the count includes the record. *)
Lemma detached_decode_before_finally :
  exists st o,
    run FullScript (sigs_n 1)
      [fetch_buy; NameSettled 0 (Ok "pepe"%string); Finally 0] = Some st /\
    observe st = Some o /\
    o_pumpfunCount o = 1 /\ length (o_transactions o) = 1.
Proof.
  eexists _, _. split; [vm_compute; reflexivity|].
  split; [reflexivity|]. split; reflexivity.
Qed.

(** C1: in the first script the decode promise is detached from the chain
    that ends in [.finally].  With one identifier whose record is a buy
    carrying the fixture, the promise resolves with [pumpfunCount] 0 while
    the decode still waits for the token name; the record is pushed on the
    shared array afterwards, and the resolved object then holds a count of
    0 next to an array of one record. *)
Theorem detached_decode_breaks_count :
  Full.isPumpfunTx (Some (buy_tx fixture)) = Ok 1 /\
  exists st1 st2 o p,
    run FullScript (sigs_n 1) [fetch_buy; Finally 0] = Some st1 /\
    resolved st1 = Some {| txCount := 1; pumpfunCount := 0 |} /\
    transactions st1 = [] /\ length (detached st1) = 1 /\
    run FullScript (sigs_n 1)
      [fetch_buy; Finally 0; NameSettled 0 (Ok "pepe"%string)] = Some st2 /\
    observe st2 = Some o /\
    o_txCount o = 1 /\ o_pumpfunCount o = 0 /\ o_transactions o = [p] /\
    r_solAmount p = Some "491103214"%string /\
    o_pumpfunCount o <> length (o_transactions o).
Proof.
  split; [vm_compute; reflexivity|].
  eexists _, _, _, _.
  split; [vm_compute; reflexivity|].
  split; [reflexivity|]. split; [reflexivity|]. split; [reflexivity|].
  split; [vm_compute; reflexivity|].
  split; [reflexivity|]. split; [reflexivity|]. split; [reflexivity|].
  split; [reflexivity|]. split; [reflexivity|].
  cbn. discriminate.
Qed.

(** ** Matched records that do not decode *)

Lemma no_reference_no_payload (tx : VersionedTransactionResponse) :
  no_reference tx -> no_payload tx.
Proof.
  unfold no_reference, no_payload. intros H.
  eapply Forall_impl; [exact H|]. intros g Hg. cbv beta in Hg |- *.
  eapply Forall_impl; [exact Hg|]. intros i (p & Hp & Hne). cbv beta.
  exists p. split; [exact Hp|]. congruence.
Qed.

Lemma full_decode_guard_skips (blob : list byte) :
  length blob <> 137 -> Full.decode blob = Ok None.
Proof.
  intros H. unfold Full.decode.
  destruct (decide (length blob <> 137)); [reflexivity | contradiction].
Qed.

Lemma minimal_scan_no_reference (tx : VersionedTransactionResponse) :
  no_reference tx -> Minimal.parsePumpfunTx tx = Ok None.
Proof.
  unfold no_reference, Minimal.parsePumpfunTx.
  induction (inner_groups tx) as [|g gs IH]; intros H; cbn [Minimal.scan_groups].
  - reflexivity.
  - apply Forall_cons_1 in H. destruct H as [Hg Hgs].
    assert (Minimal.scan_instructions (inner_instructions g) = Ok None) as ->.
    { induction (inner_instructions g) as [|i l IHl]; cbn [Minimal.scan_instructions].
      - reflexivity.
      - apply Forall_cons_1 in Hg. destruct Hg as [(p & Hp & Hne) Hl].
        rewrite Hp, Hne. apply IHl, Hl. }
    cbn [mbind Res_bind]. apply IH, Hgs.
Qed.

Lemma full_scan_no_payload (tx : VersionedTransactionResponse) :
  no_payload tx -> Full.parsePumpfunTx_scan tx = Ok None.
Proof.
  unfold no_payload, Full.parsePumpfunTx_scan.
  induction (inner_groups tx) as [|g gs IH]; intros H; cbn [Full.scan_groups].
  - reflexivity.
  - apply Forall_cons_1 in H. destruct H as [Hg Hgs].
    assert (Full.scan_instructions (inner_instructions g) = Ok None) as ->.
    { induction (inner_instructions g) as [|i l IHl]; cbn [Full.scan_instructions].
      - reflexivity.
      - apply Forall_cons_1 in Hg. destruct Hg as [(p & Hp & Hblob) Hl].
        rewrite Hp. destruct (equals p PUMPFUN_PROGRAM_ID); [|apply IHl, Hl].
        destruct Hblob as (blob & -> & Hlen); [reflexivity|].
        cbn [bs58_decode].
        rewrite (full_decode_guard_skips blob Hlen). cbn [mbind Res_bind].
        apply IHl, Hl. }
    cbn [mbind Res_bind]. apply IH, Hgs.
Qed.

(** A detached promise whose scan ended without a record never pushes:
    its [.then] callback is skipped, or throws on [undefined]. *)
Lemma detached_without_record (st : State) (j : nat) (d : Detached)
    (name : Res string) :
  detached st !! j = Some d ->
  (forall f, d_scan d <> Ok (Some f)) ->
  exists st' e,
    name_settled j name st = Some st' /\
    transactions st' = transactions st /\
    unhandled st' = unhandled st ++ [e] /\
    console st' = console st /\
    resolved st' = resolved st.
Proof.
  intros Hj Hscan. unfold name_settled. rewrite Hj. cbn [mbind option_bind].
  destruct (d_scan d) as [[f|]|e] eqn:E.
  - exfalso. apply (Hscan f). reflexivity.
  - cbn [mbind Res_bind Full.showPumpfunTx]. eexists _, TypeError.
    split; [reflexivity|]. repeat split.
  - cbn [mbind Res_bind]. eexists _, e.
    split; [reflexivity|]. repeat split.
Qed.

(** C2, as stated, fails in the second script: a record classified as a
    buy with no inner instruction at all is pushed, with the fields set by
    the pipeline only, and counted. *)
Lemma matched_without_payload_is_pushed :
  Minimal.isPumpfunTx (Some buy_tx_no_inner) = Ok 1 /\
  no_reference buy_tx_no_inner /\
  Minimal.parsePumpfunTx buy_tx_no_inner = Ok None /\
  exists st,
    run MinimalScript (sigs_n 1)
      [FetchSettled 0 (Fulfilled (Some buy_tx_no_inner)); Finally 0] = Some st /\
    transactions st = [Minimal.record_of "A" buy_tx_no_inner None] /\
    resolved st = Some {| txCount := 1; pumpfunCount := 1 |}.
Proof.
  split; [vm_compute; reflexivity|]. split; [constructor|]. split; [reflexivity|].
  eexists. split; [vm_compute; reflexivity|]. split; reflexivity.
Qed.

(** ** The empty list *)

(** C5, as stated, fails: with an empty list [startNext] launches nothing,
    no callback ever runs, and [resolve] is never called. *)
Lemma empty_list_never_resolves :
  observe (getTransactionDetails []) = None /\
  inProgress (getTransactionDetails []) = ∅ /\
  ~ (exists s evs st, run s [] evs = Some st /\ is_Some (resolved st)).
Proof.
  split; [reflexivity|]. split; [reflexivity|].
  intros (s & evs & st & Hrun & r & Hr).
  apply run_Good in Hrun. destruct Hrun as (_ & _ & HR).
  unfold res_inv in HR. rewrite Hr in HR. cbn [length] in HR. lia.
Qed.

Lemma empty_list_start : getTransactionDetails [] = initial.
Proof. vm_compute. reflexivity. Qed.

(** C5 (amended): [getAllTransactions] returns an empty array at once for
    an empty list, without calling [getTransactionDetails], and calls it
    for any other list; called on an empty list, [getTransactionDetails]
    fetches nothing, no promise job can follow, and its promise stays
    unresolved. *)
Theorem empty_list_is_guarded (s : Script) (signatures : list SignatureInfo)
    (evs : list Event) (st : State) :
  getAllTransactions [] = ReturnsEmptyArray /\
  (signatures <> [] ->
   getAllTransactions signatures = AwaitsDetails (getTransactionDetails signatures)) /\
  (run s [] evs = Some st ->
   evs = [] /\ launched st = [] /\ inProgress st = ∅ /\ completed st = 0 /\
   transactions st = [] /\ resolved st = None).
Proof.
  split; [reflexivity|]. split.
  - intros Hne. unfold getAllTransactions.
    destruct signatures as [|sig l]; [contradiction | reflexivity].
  - intros Hrun. unfold run in Hrun. rewrite empty_list_start in Hrun.
    destruct evs as [|ev evs']; cbn [run_from] in Hrun.
    + injection Hrun as <-. repeat split.
    + exfalso. destruct ev as [k o|k|j name]; cbn [step] in Hrun.
      * unfold fetch_settled in Hrun. cbn [initial inProgress settled] in Hrun.
        destruct (decide (k ∈ (∅ : gset nat) ∧ k ∉ (∅ : gset nat))) as [[Hk _]|];
          [set_solver | discriminate].
      * unfold finally_runs in Hrun. cbn [initial settled] in Hrun.
        destruct (decide (k ∈ (∅ : gset nat))) as [Hk|]; [set_solver | discriminate].
      * discriminate.
Qed.

Lemma empty_list_is_guarded_witness :
  getAllTransactions (sigs_n 1) = AwaitsDetails (getTransactionDetails (sigs_n 1)) /\
  resolved (getTransactionDetails []) = None.
Proof.
  destruct (empty_list_is_guarded FullScript (sigs_n 1) [] (getTransactionDetails []))
    as (_ & Hcall & Hempty).
  split; [apply Hcall; discriminate|].
  destruct Hempty as (_ & _ & _ & _ & _ & Hr); [reflexivity | exact Hr].
Defined.

(** * Further properties *)

(** ** The classifier on other records *)

Lemma references_program_true (i : Instruction) :
  references_program i = true <-> programId i = Some PUMPFUN_PROGRAM_ID.
Proof.
  unfold references_program, equals. destruct (programId i) as [p|].
  - rewrite String.eqb_eq. split; [intros ->; reflexivity | intros [= ->]; reflexivity].
  - split; discriminate.
Qed.

Lemma some_unreferenced (ins : list Instruction) :
  unreferenced ins -> some references_program ins = false.
Proof.
  intros H. apply not_true_is_false. intros Hs.
  unfold some in Hs. apply existsb_exists in Hs. destruct Hs as (i & Hin & Hi).
  apply references_program_true in Hi.
  unfold unreferenced in H. rewrite Forall_forall in H.
  apply (H i); [apply list_elem_of_In; exact Hin | exact Hi].
Qed.

Lemma classify_logs_eq (tx : VersionedTransactionResponse) (m : Meta)
    (logs : list string) :
  meta tx = Some m -> logMessages m = Some logs ->
  classify_logs tx =
    if some (includes buy_marker) logs then Ok 1
    else if some (includes sell_marker) logs then Ok 2 else Ok 0.
Proof.
  intros Hm Hlogs. unfold classify_logs, logs_some. rewrite Hm, Hlogs.
  cbn [mbind Res_bind].
  destruct (some (includes buy_marker) logs); [reflexivity|].
  destruct (some (includes sell_marker) logs); reflexivity.
Qed.

(** X1: a record none of whose outer instructions belongs to the target
    program is classified 0 in both scripts, whatever its logs, and also
    when it has no [meta] or no log messages at all. *)
Theorem unreferenced_is_not_matched (tx : VersionedTransactionResponse)
    (t : Transaction) (ins : list Instruction) :
  transaction tx = Some t ->
  instructions (message t) = Some ins ->
  unreferenced ins ->
  Full.isPumpfunTx (Some tx) = Ok 0 /\ Minimal.isPumpfunTx (Some tx) = Ok 0.
Proof.
  intros Ht Hins Hun. apply some_unreferenced in Hun.
  unfold Full.isPumpfunTx, Minimal.isPumpfunTx.
  rewrite Ht, Hins, Hun. split; reflexivity.
Qed.

Lemma unreferenced_is_not_matched_witness :
  Full.isPumpfunTx (Some unrelated_tx) = Ok 0.
Proof.
  refine (proj1 (unreferenced_is_not_matched unrelated_tx _ [] eq_refl eq_refl _)).
  constructor.
Defined.

(** X2: a record of the target program whose logs hold the sell marker and
    nowhere the buy marker is classified 2 in both scripts. *)
Theorem classifier_sell (tx : VersionedTransactionResponse) (t : Transaction)
    (ins : list Instruction) (m : Meta) (logs : list string) :
  transaction tx = Some t ->
  instructions (message t) = Some ins ->
  (exists i, i ∈ ins /\ programId i = Some PUMPFUN_PROGRAM_ID) ->
  meta tx = Some m ->
  logMessages m = Some logs ->
  (forall log, log ∈ logs -> ~ occurs_in buy_marker log) ->
  (exists log, log ∈ logs /\ occurs_in sell_marker log) ->
  Full.isPumpfunTx (Some tx) = Ok 2 /\ Minimal.isPumpfunTx (Some tx) = Ok 2.
Proof.
  intros Ht Hins Hprog Hm Hlogs Hnobuy Hsell.
  apply some_references_program in Hprog. apply some_marker in Hsell.
  assert (some (includes buy_marker) logs = false) as Hbuy.
  { apply not_true_is_false. intros Hs. apply some_marker in Hs.
    destruct Hs as (log & Hin & Hocc). exact (Hnobuy log Hin Hocc). }
  unfold Full.isPumpfunTx, Minimal.isPumpfunTx.
  rewrite Ht, Hins, Hprog, (classify_logs_eq tx m logs Hm Hlogs), Hbuy, Hsell.
  split; reflexivity.
Qed.

Lemma classifier_sell_witness :
  Minimal.isPumpfunTx (Some (sample_tx [sell_marker] [])) = Ok 2.
Proof.
  refine (proj2 (classifier_sell (sample_tx [sell_marker] []) _ _ _ _
                   eq_refl eq_refl _ eq_refl eq_refl _ _)).
  - exists (pumpfun_instruction []). split; [apply list_elem_of_here | reflexivity].
  - intros log Hin Hocc. apply list_elem_of_singleton in Hin. subst log.
    apply includes_occurs in Hocc. vm_compute in Hocc. discriminate.
  - exists sell_marker. split; [apply list_elem_of_here|].
    exists EmptyString, EmptyString. reflexivity.
Defined.

(** X3: a record of the target program without [meta], or without log
    messages, makes [isPumpfunTx] throw a TypeError in both scripts; a
    record without [transaction] is classified 0 by the first script and
    makes the second one throw. *)
Theorem classifier_missing_parts (tx : VersionedTransactionResponse) :
  (forall t ins,
     transaction tx = Some t ->
     instructions (message t) = Some ins ->
     (exists i, i ∈ ins /\ programId i = Some PUMPFUN_PROGRAM_ID) ->
     meta tx = None \/ (exists m, meta tx = Some m /\ logMessages m = None) ->
     Full.isPumpfunTx (Some tx) = Throw TypeError /\
     Minimal.isPumpfunTx (Some tx) = Throw TypeError) /\
  (transaction tx = None ->
   Full.isPumpfunTx (Some tx) = Ok 0 /\
   Minimal.isPumpfunTx (Some tx) = Throw TypeError).
Proof.
  split.
  - intros t ins Ht Hins Hprog Hmiss. apply some_references_program in Hprog.
    assert (classify_logs tx = Throw TypeError) as Hc.
    { unfold classify_logs, logs_some.
      destruct Hmiss as [Hm | (m & Hm & Hl)]; rewrite Hm; [reflexivity|].
      rewrite Hl. reflexivity. }
    unfold Full.isPumpfunTx, Minimal.isPumpfunTx.
    rewrite Ht, Hins, Hprog, Hc. split; reflexivity.
  - intros Ht. unfold Full.isPumpfunTx, Minimal.isPumpfunTx. rewrite Ht.
    split; reflexivity.
Qed.

Lemma classifier_missing_parts_witness :
  Full.isPumpfunTx (Some no_transaction_tx) = Ok 0.
Proof.
  refine (proj1 (proj2 (classifier_missing_parts no_transaction_tx) eq_refl)).
Defined.

(** X4: a fetch that fulfils with [null] (no such record) is handled like
    a fetch rejected with a TypeError: [isPumpfunTx] throws on it and the
    [.catch] callback logs it, in both scripts and in every state. *)
Theorem null_record_is_a_failure (s : Script) (signatures : list SignatureInfo)
    (st : State) (k : nat) :
  step s signatures st (FetchSettled k (Fulfilled None)) =
  step s signatures st (FetchSettled k (Rejected TypeError)).
Proof.
  cbn [step]. unfold fetch_settled.
  destruct (decide (k ∈ inProgress st ∧ k ∉ settled st)); [|reflexivity].
  destruct (launched st !! k) as [pos|]; [|reflexivity]. cbn [mbind option_bind].
  destruct (signatures !! pos) as [sig|]; [|reflexivity]. cbn [mbind option_bind].
  destruct s; reflexivity.
Qed.

(** ** The two decoders and the scan *)

(** X5: on a 137-byte blob the two scripts read the same amounts and the
    same flag. *)
Theorem decoders_agree (encoded : list byte) :
  length encoded = 137 ->
  exists f g,
    Full.decode encoded = Ok (Some f) /\ Minimal.decode encoded = Ok g /\
    Full.solAmount f = Minimal.solAmount g /\
    Full.tokenAmount f = Minimal.tokenAmount g /\
    Full.isBuy f = Minimal.isBuy g.
Proof.
  intros Hlen. unfold Full.decode, Minimal.decode.
  destruct (decide (length encoded <> 137)) as [Hn|_]; [contradiction|].
  destruct (decide (length (slice 16 48 encoded) <> 32)) as [Hn|_].
  { exfalso. apply Hn. rewrite slice_length; lia. }
  rewrite !readBigInt64LE_eight by (rewrite slice_length; lia).
  cbn [mbind Res_bind]. eexists _, _. split; [reflexivity|].
  split; [reflexivity|]. repeat split.
Qed.

Lemma decoders_agree_witness :
  exists f g,
    Full.decode fixture = Ok (Some f) /\ Minimal.decode fixture = Ok g /\
    Full.solAmount f = Minimal.solAmount g.
Proof.
  destruct (decoders_agree fixture eq_refl) as (f & g & Hf & Hg & Hs & _).
  exists f, g. split; [exact Hf|]. split; [exact Hg | exact Hs].
Defined.

(** The two nested loops scan the instructions of all groups in order. *)
Lemma minimal_scan_app (l1 l2 : list Instruction) :
  Minimal.scan_instructions (l1 ++ l2) =
  r ← Minimal.scan_instructions l1;
  match r with
  | Some f => Ok (Some f)
  | None => Minimal.scan_instructions l2
  end.
Proof.
  induction l1 as [|i l1 IH]; cbn [app Minimal.scan_instructions].
  - cbn [mbind Res_bind]. reflexivity.
  - destruct (programId i) as [p|]; [|reflexivity].
    destruct (equals p PUMPFUN_PROGRAM_ID); [|exact IH].
    destruct (data i) as [| |encoded]; cbn [bs58_decode]; [reflexivity..|].
    destruct (Minimal.decode encoded); reflexivity.
Qed.

Lemma minimal_scan_flat (tx : VersionedTransactionResponse) :
  Minimal.parsePumpfunTx tx = Minimal.scan_instructions (inner_flat tx).
Proof.
  unfold Minimal.parsePumpfunTx, inner_flat.
  induction (inner_groups tx) as [|g gs IH]; cbn [Minimal.scan_groups fmap list_fmap concat].
  - reflexivity.
  - rewrite minimal_scan_app, IH. reflexivity.
Qed.

Lemma full_scan_app (l1 l2 : list Instruction) :
  Full.scan_instructions (l1 ++ l2) =
  r ← Full.scan_instructions l1;
  match r with
  | Some f => Ok (Some f)
  | None => Full.scan_instructions l2
  end.
Proof.
  induction l1 as [|i l1 IH]; cbn [app Full.scan_instructions].
  - cbn [mbind Res_bind]. reflexivity.
  - destruct (programId i) as [p|]; [|reflexivity].
    destruct (equals p PUMPFUN_PROGRAM_ID); [|exact IH].
    destruct (data i) as [| |encoded]; cbn [bs58_decode]; [reflexivity..|].
    destruct (Full.decode encoded) as [[f|]|e]; cbn [mbind Res_bind];
      [reflexivity | exact IH | reflexivity].
Qed.

Lemma full_scan_flat (tx : VersionedTransactionResponse) :
  Full.parsePumpfunTx_scan tx = Full.scan_instructions (inner_flat tx).
Proof.
  unfold Full.parsePumpfunTx_scan, inner_flat.
  induction (inner_groups tx) as [|g gs IH]; cbn [Full.scan_groups fmap list_fmap concat].
  - reflexivity.
  - rewrite full_scan_app, IH. reflexivity.
Qed.

Lemma minimal_scan_foreign (pre : list Instruction) :
  Forall foreign pre -> Minimal.scan_instructions pre = Ok None.
Proof.
  induction 1 as [|i pre (p & Hp & Hne) _ IH]; cbn [Minimal.scan_instructions].
  - reflexivity.
  - rewrite Hp, Hne. exact IH.
Qed.

Lemma full_scan_passed (pre : list Instruction) :
  Forall (fun i => foreign i \/ skipped i) pre ->
  Full.scan_instructions pre = Ok None.
Proof.
  induction 1 as [|i pre Hi _ IH]; cbn [Full.scan_instructions].
  - reflexivity.
  - destruct Hi as [(p & Hp & Hne) | (blob & Hp & Hd & Hlen)].
    + rewrite Hp, Hne. exact IH.
    + rewrite Hp. unfold equals. rewrite String.eqb_refl, Hd. cbn [bs58_decode].
      rewrite (full_decode_guard_skips blob Hlen). cbn [mbind Res_bind]. exact IH.
Qed.

Lemma full_decode_always (blob : list byte) :
  length blob = 137 -> exists f, Full.decode blob = Ok (Some f).
Proof.
  intros Hlen. unfold Full.decode.
  destruct (decide (length blob <> 137)) as [Hn|_]; [contradiction|].
  destruct (decide (length (slice 16 48 blob) <> 32)) as [Hn|_].
  { exfalso. apply Hn. rewrite slice_length; lia. }
  rewrite !readBigInt64LE_eight by (rewrite slice_length; lia).
  cbn [mbind Res_bind]. eexists. reflexivity.
Qed.

Lemma minimal_first_payload (tx : VersionedTransactionResponse)
    (pre post : list Instruction) (i : Instruction) (blob : list byte) :
  inner_flat tx = pre ++ i :: post ->
  Forall foreign pre ->
  programId i = Some PUMPFUN_PROGRAM_ID ->
  data i = Base58 blob ->
  Minimal.parsePumpfunTx tx = (f ← Minimal.decode blob; Ok (Some f)).
Proof.
  intros Hflat Hpre Hp Hd.
  rewrite minimal_scan_flat, Hflat, minimal_scan_app.
  rewrite (minimal_scan_foreign pre Hpre). cbn [mbind Res_bind Minimal.scan_instructions].
  rewrite Hp. unfold equals. rewrite String.eqb_refl, Hd. reflexivity.
Qed.

(** X6: in the second script [parsePumpfunTx] decodes the blob of the first
    inner instruction of the target program, in the order of the groups
    and of their instructions, whatever follows it; a blob too short makes
    the whole call throw even when a later instruction would decode. *)
Theorem minimal_first_instruction_wins (tx : VersionedTransactionResponse)
    (pre post : list Instruction) (i : Instruction) (blob : list byte) :
  inner_flat tx = pre ++ i :: post ->
  Forall foreign pre ->
  programId i = Some PUMPFUN_PROGRAM_ID ->
  data i = Base58 blob ->
  Minimal.parsePumpfunTx tx = (f ← Minimal.decode blob; Ok (Some f)).
Proof. apply minimal_first_payload. Qed.

Lemma minimal_first_instruction_wins_witness :
  Minimal.parsePumpfunTx two_payload_tx = Throw RangeError.
Proof.
  rewrite (minimal_first_instruction_wins two_payload_tx []
             [pumpfun_instruction fixture]
             (pumpfun_instruction []) [] eq_refl (Forall_nil_2 _) eq_refl eq_refl).
  reflexivity.
Defined.

Lemma full_first_payload (tx : VersionedTransactionResponse)
    (pre post : list Instruction) (i : Instruction) (blob : list byte) :
  inner_flat tx = pre ++ i :: post ->
  Forall (fun j => foreign j \/ skipped j) pre ->
  programId i = Some PUMPFUN_PROGRAM_ID ->
  data i = Base58 blob ->
  length blob = 137 ->
  exists f, Full.decode blob = Ok (Some f) /\
            Full.parsePumpfunTx_scan tx = Ok (Some f).
Proof.
  intros Hflat Hpre Hp Hd Hlen.
  destruct (full_decode_always blob Hlen) as [f Hf].
  exists f. split; [exact Hf|].
  rewrite full_scan_flat, Hflat, full_scan_app.
  rewrite (full_scan_passed pre Hpre). cbn [mbind Res_bind Full.scan_instructions].
  rewrite Hp. unfold equals. rewrite String.eqb_refl, Hd. cbn [bs58_decode].
  rewrite Hf. reflexivity.
Qed.

(** X7: in the first script [parsePumpfunTx] stops at the first inner
    instruction of the target program whose blob has 137 bytes; the
    instructions of other programs and the blobs of other lengths before
    it are passed over. *)
Theorem full_first_payload_wins (tx : VersionedTransactionResponse)
    (pre post : list Instruction) (i : Instruction) (blob : list byte) :
  inner_flat tx = pre ++ i :: post ->
  Forall (fun j => foreign j \/ skipped j) pre ->
  programId i = Some PUMPFUN_PROGRAM_ID ->
  data i = Base58 blob ->
  length blob = 137 ->
  exists f, Full.decode blob = Ok (Some f) /\
            Full.parsePumpfunTx_scan tx = Ok (Some f).
Proof. apply full_first_payload. Qed.

Lemma full_first_payload_wins_witness :
  exists f,
    Full.parsePumpfunTx_scan two_payload_tx = Ok (Some f) /\
    Full.solAmount f = "491103214"%string.
Proof.
  destruct (full_first_payload_wins two_payload_tx
              [pumpfun_instruction []] [] (pumpfun_instruction fixture) fixture
              eq_refl) as (f & Hf & Hscan).
  - constructor; [|constructor]. right. exists []. repeat split. discriminate.
  - reflexivity.
  - reflexivity.
  - reflexivity.
  - exists f. split; [exact Hscan|].
    vm_compute in Hf. injection Hf as <-. reflexivity.
Defined.

(** X8: an inner instruction without [programId] met before any match
    makes [parsePumpfunTx] throw a TypeError in both scripts (the test of
    [isPumpfunTx] guards against it, this one does not); an instruction of
    the target program without a data string makes it throw the TypeError
    of [bs58.decode], and one whose data string has a character outside
    the base58 alphabet the Error of [bs58.decode]. *)
Theorem scan_throws_on_malformed_instruction
    (tx : VersionedTransactionResponse)
    (pre post : list Instruction) (i : Instruction) :
  inner_flat tx = pre ++ i :: post ->
  Forall foreign pre ->
  (programId i = None ->
   Minimal.parsePumpfunTx tx = Throw TypeError /\
   Full.parsePumpfunTx_scan tx = Throw TypeError) /\
  (programId i = Some PUMPFUN_PROGRAM_ID -> data i = NoData ->
   Minimal.parsePumpfunTx tx = Throw TypeError /\
   Full.parsePumpfunTx_scan tx = Throw TypeError) /\
  (programId i = Some PUMPFUN_PROGRAM_ID -> data i = NotBase58 ->
   Minimal.parsePumpfunTx tx = Throw (Error "Non-base58 character") /\
   Full.parsePumpfunTx_scan tx = Throw (Error "Non-base58 character")).
Proof.
  intros Hflat Hpre.
  assert (Forall (fun j => foreign j \/ skipped j) pre) as Hpre'.
  { eapply Forall_impl; [exact Hpre|]. intros j Hj. left. exact Hj. }
  rewrite minimal_scan_flat, full_scan_flat, Hflat, minimal_scan_app, full_scan_app.
  rewrite (minimal_scan_foreign pre Hpre), (full_scan_passed pre Hpre').
  cbn [mbind Res_bind Minimal.scan_instructions Full.scan_instructions].
  split; [|split].
  - intros ->. split; reflexivity.
  - intros -> ->. unfold equals. rewrite String.eqb_refl. split; reflexivity.
  - intros -> ->. unfold equals. rewrite String.eqb_refl. split; reflexivity.
Qed.

Lemma scan_throws_on_malformed_instruction_witness :
  Minimal.parsePumpfunTx malformed_tx = Throw TypeError /\
  Full.parsePumpfunTx_scan no_data_tx = Throw TypeError /\
  Full.parsePumpfunTx_scan not_base58_tx = Throw (Error "Non-base58 character").
Proof.
  split; [|split].
  - refine (proj1 (proj1 (scan_throws_on_malformed_instruction malformed_tx [] []
                            {| programId := None; data := NoData |} eq_refl
                            (Forall_nil_2 _)) eq_refl)).
  - refine (proj2 (proj1 (proj2 (scan_throws_on_malformed_instruction no_data_tx [] []
                            {| programId := Some PUMPFUN_PROGRAM_ID; data := NoData |}
                            eq_refl (Forall_nil_2 _))) eq_refl eq_refl)).
  - refine (proj2 (proj2 (proj2 (scan_throws_on_malformed_instruction not_base58_tx [] []
                            {| programId := Some PUMPFUN_PROGRAM_ID; data := NotBase58 |}
                            eq_refl (Forall_nil_2 _))) eq_refl eq_refl)).
Defined.

(** ** The window, the resolution and the collected records *)

Section Window.

Variable s : Script.
Variable signatures : list SignatureInfo.

Lemma Good_window (st : State) :
  Good signatures st ->
  length (launched st) = length signatures \/ size (inProgress st) = batchSize.
Proof.
  intros ([F C O T L Q] & HG & _).
  destruct (decide (size (inProgress st) < batchSize)) as [Hlt|Hge]; [|right; lia].
  left. destruct (decide (completed st + size (inProgress st) < length signatures))
    as [Hlt'|Hge]; [|lia].
  exfalso. assert (guard signatures st = true) as Ht; [|congruence].
  apply guard_true. split; assumption.
Qed.

Lemma Good_resolved_idle (st : State) (r : PipelineResult) :
  Good signatures st -> resolved st = Some r ->
  inProgress st = ∅ /\ completed st = length signatures /\
  txCount r = length signatures.
Proof.
  intros ([F C O T L Q] & _ & HR) Hr. unfold res_inv in HR. rewrite Hr in HR.
  destruct HR as (Ht & Hc & _).
  split; [|split; assumption].
  apply leibniz_equiv, size_empty_inv. lia.
Qed.

Lemma Good_settled_bound (st : State) :
  Good signatures st -> completed st + size (settled st) <= length signatures.
Proof.
  intros ([F C O T L Q] & _ & _).
  pose proof (subseteq_size _ _ Q). lia.
Qed.

Lemma finally_callback_settled (k : nat) (st : State) :
  settled (finally_callback s signatures k st) = settled st ∖ {[ k ]}.
Proof.
  rewrite finally_callback_eq. cbv zeta.
  destruct (retired_state_sched s signatures k st) as ((_ & _ & _ & _ & Hq) & _).
  pose proof (startNext_data signatures (retired_state s signatures k st))
    as (_ & _ & _ & _ & _ & _ & Hq3).
  set (st3 := startNext signatures (retired_state s signatures k st)) in *.
  destruct (Nat.eqb (completed st3) (length signatures));
    cbn [resolve settled]; rewrite Hq3, Hq; reflexivity.
Qed.

(** A [.then] or [.catch] callback adds at most one record or one pending
    decode. *)
Lemma settled_state_grows (sig : SignatureInfo) (o : Outcome) (st : State) :
  let st' := settled_state s sig o st in
  length (transactions st') + length (detached st') <=
  S (length (transactions st) + length (detached st)).
Proof.
  unfold settled_state. destruct o as [tx|e]; [|cbn; lia].
  unfold then_callback. destruct s.
  - destruct (Full.isPumpfunTx tx) as [ty|e]; cbn [mbind Res_bind]; [|cbn; lia].
    destruct (Nat.eqb ty 0); [cbn; lia|].
    destruct tx as [tx'|]; [|cbn; lia].
    cbn [detach transactions detached]. rewrite length_app. cbn [length]. lia.
  - destruct (Minimal.isPumpfunTx tx) as [ty|e]; cbn [mbind Res_bind]; [|cbn; lia].
    destruct (Nat.eqb ty 0); [cbn; lia|].
    destruct tx as [tx'|]; [|cbn; lia].
    destruct (Minimal.parsePumpfunTx tx') as [parsed|e]; cbn [mbind Res_bind]; [|cbn; lia].
    cbn [push transactions detached]. rewrite length_app. cbn [length]. lia.
Qed.

Lemma name_settled_grows (j : nat) (name : Res string) (st st' : State) :
  name_settled j name st = Some st' ->
  length (transactions st') + length (detached st') <=
  length (transactions st) + length (detached st).
Proof.
  unfold name_settled. destruct (detached st !! j) as [d|] eqn:Hj; [|discriminate].
  cbn [mbind option_bind].
  assert (S (length (delete j (detached st))) = length (detached st)) as Hlen.
  { rewrite length_delete by (eexists; exact Hj).
    apply lookup_lt_Some in Hj. lia. }
  match goal with |- Some (match ?p with _ => _ end) = _ -> _ => destruct p end;
    intros [= <-];
    cbn [push log_line reject_unhandled drop_detached transactions detached];
    rewrite ?length_app; cbn [length]; lia.
Qed.

Lemma step_count_inv (st st' : State) (ev : Event) :
  Good signatures st -> count_inv signatures st ->
  step s signatures st ev = Some st' -> count_inv signatures st'.
Proof.
  intros HG [Hc Hr] Hstep. destruct ev as [k o|k|j name]; cbn [step] in Hstep.
  - assert (k ∈ inProgress st /\ k ∉ settled st) as [Hk Hq].
    { unfold fetch_settled in Hstep.
      destruct (decide (k ∈ inProgress st ∧ k ∉ settled st)); [assumption|discriminate]. }
    destruct (fetch_settled_enabled s signatures st k o HG Hk Hq) as (sig & _ & _ & He).
    rewrite He in Hstep. injection Hstep as <-.
    pose proof (settled_state_grows sig o st) as Hg. cbv zeta in Hg.
    pose proof (settled_state_sched s sig o st) as (_ & Hc' & _ & Hr' & Hq').
    split.
    + cbn [queue_finally transactions detached completed settled].
      rewrite size_union, size_singleton, Hc', Hq';
        [lia | apply disjoint_singleton_l; rewrite Hq'; exact Hq].
    + cbn [queue_finally resolved]. rewrite Hr'. exact Hr.
  - assert (k ∈ settled st) as Hq.
    { unfold finally_runs in Hstep. destruct (decide (k ∈ settled st)); [assumption|discriminate]. }
    rewrite (finally_runs_enabled s signatures st k Hq) in Hstep. injection Hstep as <-.
    assert (k ∈ inProgress st) as Hk by (apply HG, Hq).
    destruct (in_flight_unresolved signatures st k HG Hk) as [HrN _].
    pose proof (finally_callback_data s signatures k st) as (Ht & Hd & _ & Hc' & _).
    pose proof (size_remove _ _ Hq) as Hsz.
    split.
    + rewrite Ht, Hd, Hc', finally_callback_settled. lia.
    + intros r Hres.
      destruct (finally_callback_count s signatures k st r HrN Hres) as [_ ->].
      pose proof (Good_settled_bound st HG). lia.
  - pose proof (name_settled_grows j name st st' Hstep) as Hg.
    apply name_settled_sched in Hstep. destruct Hstep as (_ & Hc' & _ & Hr' & Hq').
    split; [rewrite Hc', Hq'; lia | rewrite Hr'; exact Hr].
Qed.

Lemma run_from_count_inv (evs : list Event) (st st' : State) :
  Good signatures st -> count_inv signatures st ->
  run_from s signatures st evs = Some st' -> count_inv signatures st'.
Proof.
  revert st. induction evs as [|ev evs IH]; intros st HG HC; cbn [run_from].
  - intros [= <-]. exact HC.
  - destruct (step s signatures st ev) as [st1|] eqn:E; [|discriminate].
    cbn [mbind option_bind]. apply IH.
    + eapply step_Good; eassumption.
    + eapply step_count_inv; eassumption.
Qed.

Lemma run_count_inv (evs : list Event) (st : State) :
  run s signatures evs = Some st -> count_inv signatures st.
Proof.
  apply run_from_count_inv; [apply getTransactionDetails_Good|].
  unfold getTransactionDetails.
  pose proof (startNext_data signatures initial) as (Ht & _ & Hd & _ & Hr & Hc & Hq).
  split; [|rewrite Hr; discriminate].
  rewrite Ht, Hd, Hc, Hq.
  cbn [initial transactions detached completed settled length]. lia.
Qed.

Lemma one_more_follows (outcome : nat -> Outcome) (st : State) :
  Good signatures st -> completed st < length signatures ->
  exists evs st',
    run_from s signatures st evs = Some st' /\ Forall (follows outcome) evs /\
    Good signatures st' /\ completed st' = S (completed st).
Proof.
  intros HG Hlt. destruct (pending_fetch signatures st HG Hlt) as [k Hk].
  destruct (decide (k ∈ settled st)) as [Hq|Hq].
  - exists [Finally k], (finally_callback s signatures k st).
    cbn [run_from step]. rewrite (finally_runs_enabled s signatures st k Hq).
    split; [reflexivity|]. split; [repeat constructor|].
    split; [apply finally_callback_Good; assumption|].
    apply finally_callback_data.
  - destruct (fetch_settled_enabled s signatures st k (outcome k) HG Hk Hq)
      as (sig & _ & _ & Hstep).
    set (st1 := queue_finally k (settled_state s sig (outcome k) st)) in *.
    assert (Good signatures st1) as HG1.
    { apply (step_Good s signatures st st1 (FetchSettled k (outcome k)) HG). exact Hstep. }
    assert (k ∈ settled st1) as Hq1.
    { cbn [st1 queue_finally settled]. apply elem_of_union_l, elem_of_singleton. reflexivity. }
    assert (k ∈ inProgress st1) as Hk1 by (apply HG1, Hq1).
    assert (completed st1 = completed st) as Hc1.
    { pose proof (settled_state_sched s sig (outcome k) st) as (_ & Hc & _). exact Hc. }
    exists [FetchSettled k (outcome k); Finally k], (finally_callback s signatures k st1).
    cbn [run_from step]. rewrite Hstep. cbn [mbind option_bind].
    rewrite (finally_runs_enabled s signatures st1 k Hq1).
    split; [reflexivity|]. split; [repeat constructor|].
    split; [apply finally_callback_Good; assumption|].
    rewrite <- Hc1. apply finally_callback_data.
Qed.

Lemma finish_follows (outcome : nat -> Outcome) (n : nat) (st : State) :
  0 < length signatures ->
  Good signatures st -> length signatures - completed st = n ->
  exists evs st',
    run_from s signatures st evs = Some st' /\ Forall (follows outcome) evs /\
    completed st' = length signatures /\ is_Some (resolved st').
Proof.
  intros Hpos. revert st. induction n as [|n IH]; intros st HG Hn.
  - exists [], st. split; [reflexivity|]. split; [constructor|].
    pose proof HG as (HI & _ & HR). destruct HI as [F C O T L Q].
    assert (completed st = length signatures) as Hc by lia.
    split; [exact Hc|]. unfold res_inv in HR.
    destruct (resolved st) as [r|]; [eexists; reflexivity | lia].
  - destruct (one_more_follows outcome st HG) as (evs1 & st1 & Hrun1 & Hf1 & HG1 & Hc1); [lia|].
    destruct (IH st1 HG1) as (evs & st' & Hrun & Hf & Hdone); [lia|].
    exists (evs1 ++ evs), st'. split; [|split; [apply Forall_app; split; assumption | exact Hdone]].
    rewrite run_from_app, Hrun1. exact Hrun.
Qed.

End Window.

(** X9: at every point of every run, either a fetch has been launched for
    every identifier of the list, or exactly [batchSize] fetches are in
    flight: a fetch that completes is replaced at once. *)
Theorem window_kept_full (s : Script) (signatures : list SignatureInfo)
    (evs : list Event) (st : State) :
  run s signatures evs = Some st ->
  length (launched st) = length signatures \/ size (inProgress st) = batchSize.
Proof. intros Hrun. apply Good_window. eapply run_Good; eassumption. Qed.

Lemma window_kept_full_witness :
  exists st, run MinimalScript (sigs_n 25) sample_events = Some st /\
             size (inProgress st) = batchSize.
Proof.
  assert (run MinimalScript (sigs_n 25) sample_events = Some _) as Hrun
    by (vm_compute; reflexivity).
  eexists. split; [exact Hrun|].
  destruct (window_kept_full _ _ _ _ Hrun) as [Hl|Hs]; [|exact Hs].
  vm_compute in Hl. discriminate.
Defined.

Lemma launched_from_start (signatures : list SignatureInfo) (st : State) :
  Good signatures st -> completed st = 0 ->
  launched st = seq 0 (Nat.min batchSize (length signatures)) /\
  (forall k, k ∈ inProgress st <-> k < Nat.min batchSize (length signatures)).
Proof.
  intros HG Hc. pose proof (Good_window signatures _ HG) as Hw.
  destruct HG as ([F C O T L Q] & _ & _).
  assert (length (launched st) = Nat.min batchSize (length signatures)) as Hn by lia.
  split; [rewrite <- Hn; exact O|].
  assert (inProgress st = set_seq 0 (length (launched st))) as Heq.
  { apply set_subseteq_size_eq.
    - intros k Hk. apply elem_of_set_seq. split; [lia | apply F, Hk].
    - rewrite size_set_seq. lia. }
  intros k. rewrite Heq, elem_of_set_seq, Hn. lia.
Qed.

Lemma getTransactionDetails_data (signatures : list SignatureInfo) :
  transactions (getTransactionDetails signatures) = [] /\
  resolved (getTransactionDetails signatures) = None /\
  completed (getTransactionDetails signatures) = 0.
Proof.
  unfold getTransactionDetails.
  pose proof (startNext_data signatures initial) as (Ht & _ & _ & _ & Hr & Hc & _).
  rewrite Ht, Hr, Hc. repeat split.
Qed.

(** X10: [getTransactionDetails] starts by launching the fetches of the
    first min(batchSize, length) positions, in order, and nothing else:
    nothing is completed, collected or resolved yet. *)
Theorem initial_launch (signatures : list SignatureInfo) :
  launched (getTransactionDetails signatures) =
    seq 0 (Nat.min batchSize (length signatures)) /\
  (forall k, k ∈ inProgress (getTransactionDetails signatures) <->
             k < Nat.min batchSize (length signatures)) /\
  completed (getTransactionDetails signatures) = 0 /\
  transactions (getTransactionDetails signatures) = [] /\
  resolved (getTransactionDetails signatures) = None.
Proof.
  pose proof (getTransactionDetails_Good signatures) as HG.
  destruct (getTransactionDetails_data signatures) as (Ht & Hr & Hc).
  destruct (launched_from_start signatures _ HG Hc) as [Hl Hin].
  split; [exact Hl|]. split; [exact Hin|].
  split; [exact Hc|]. split; [exact Ht | exact Hr].
Qed.

(** X11: for a non-empty list, [completed] never passes the length of the
    list, and the promise is resolved exactly when it reaches it. *)
Theorem resolved_iff_all_completed (s : Script)
    (signatures : list SignatureInfo) (evs : list Event) (st : State) :
  signatures <> [] ->
  run s signatures evs = Some st ->
  completed st <= length signatures /\
  (is_Some (resolved st) <-> completed st = length signatures).
Proof.
  intros Hne Hrun. apply run_Good in Hrun.
  destruct Hrun as ([F C O T L Q] & _ & HR).
  assert (0 < length signatures) as Hpos.
  { destruct signatures; [contradiction | cbn; lia]. }
  split; [lia|]. unfold res_inv in HR.
  destruct (resolved st) as [r|].
  - split; [intros _; apply HR | intros _; eexists; reflexivity].
  - split; [intros [r Hr]; discriminate | intros Hc; lia].
Qed.

Lemma resolved_iff_all_completed_witness :
  exists st, run MinimalScript (sigs_n 25) sample_events = Some st /\
             completed st <= 25 /\ resolved st = None.
Proof.
  assert (run MinimalScript (sigs_n 25) sample_events = Some _) as Hrun
    by (vm_compute; reflexivity).
  eexists. split; [exact Hrun|].
  destruct (resolved_iff_all_completed MinimalScript (sigs_n 25) sample_events _
              ltac:(discriminate) Hrun) as [Hle _].
  split; [exact Hle | reflexivity].
Defined.

(** X12: once the promise is resolved nothing is in flight, no fetch can
    settle and no [.finally] can run any more: the only jobs left are the
    detached decodes of the first script, and the resolved counts never
    change. *)
Theorem resolution_is_final (s : Script) (signatures : list SignatureInfo)
    (evs evs' : list Event) (st st' : State) (r : PipelineResult) :
  run s signatures evs = Some st ->
  resolved st = Some r ->
  run s signatures (evs ++ evs') = Some st' ->
  resolved st' = Some r /\ inProgress st' = ∅ /\
  completed st' = length signatures /\
  Forall (fun ev => exists j name, ev = NameSettled j name) evs'.
Proof.
  intros Hrun Hr. unfold run in *. rewrite run_from_app, Hrun.
  cbn [mbind option_bind].
  pose proof (run_from_Good s signatures evs _ st
                (getTransactionDetails_Good signatures) Hrun) as HG.
  clear Hrun. revert st HG Hr.
  induction evs' as [|ev evs' IH]; intros st HG Hr; cbn [run_from].
  - intros [= <-]. destruct (Good_resolved_idle signatures st r HG Hr) as (Hi & Hc & _).
    repeat split; [assumption..|constructor].
  - destruct (step s signatures st ev) as [st1|] eqn:E; [|discriminate].
    cbn [mbind option_bind]. intros Hrest.
    destruct (Good_resolved_idle signatures st r HG Hr) as (Hi & _ & _).
    destruct ev as [k o|k|j name]; cbn [step] in E.
    + exfalso. unfold fetch_settled in E.
      destruct (decide (k ∈ inProgress st ∧ k ∉ settled st)) as [[Hk _]|]; [|discriminate].
      rewrite Hi in Hk. set_solver.
    + exfalso. unfold finally_runs in E.
      destruct (decide (k ∈ settled st)) as [Hq|]; [|discriminate].
      destruct HG as ([F C O T L Q] & _). apply Q in Hq. rewrite Hi in Hq. set_solver.
    + pose proof (name_settled_sched j name st st1 E) as Hs.
      assert (Good signatures st1) as HG1 by (eapply Good_same_sched; eassumption).
      assert (resolved st1 = Some r) as Hr1 by (destruct Hs as (_ & _ & _ & -> & _); exact Hr).
      destruct (IH st1 HG1 Hr1 Hrest) as (H1 & H2 & H3 & H4).
      repeat split; [assumption..|].
      constructor; [eexists _, _; reflexivity | exact H4].
Qed.

Lemma resolution_is_final_witness :
  exists st',
    run FullScript (sigs_n 1)
      ([fetch_buy; Finally 0] ++ [NameSettled 0 (Ok "pepe"%string)]) = Some st' /\
    resolved st' = Some {| txCount := 1; pumpfunCount := 0 |}.
Proof.
  assert (run FullScript (sigs_n 1) [fetch_buy; Finally 0] = Some _) as Hrun
    by (vm_compute; reflexivity).
  assert (run FullScript (sigs_n 1)
            ([fetch_buy; Finally 0] ++ [NameSettled 0 (Ok "pepe"%string)]) = Some _)
    as Hrun' by (vm_compute; reflexivity).
  eexists. split; [exact Hrun'|].
  refine (proj1 (resolution_is_final FullScript (sigs_n 1) _ _ _ _ _ Hrun _ Hrun')).
  reflexivity.
Defined.

(** In the second script no promise is detached and no rejection is left
    unhandled, at any point of any run. *)
Lemma minimal_run_from_quiet (signatures : list SignatureInfo)
    (evs : list Event) (st st' : State) :
  unhandled st = [] -> detached st = [] ->
  run_from MinimalScript signatures st evs = Some st' ->
  unhandled st' = [] /\ detached st' = [].
Proof.
  revert st. induction evs as [|ev evs IH]; intros st Hu Hd; cbn [run_from].
  - intros [= <-]. split; assumption.
  - destruct (step MinimalScript signatures st ev) as [st1|] eqn:E; [|discriminate].
    cbn [mbind option_bind]. apply IH.
    + destruct ev as [k o|k|j name]; cbn [step] in E.
      * unfold fetch_settled in E.
        destruct (decide (k ∈ inProgress st ∧ k ∉ settled st)); [|discriminate].
        destruct (launched st !! k) as [pos|]; [|discriminate].
        cbn [mbind option_bind] in E.
        destruct (signatures !! pos) as [sig|]; [|discriminate].
        cbn [mbind option_bind] in E. injection E as <-.
        cbn [queue_finally unhandled]. unfold settled_state.
        destruct o as [tx|e]; [|exact Hu]. unfold then_callback.
        destruct (Minimal.isPumpfunTx tx) as [ty|e]; cbn [mbind Res_bind]; [|exact Hu].
        destruct (Nat.eqb ty 0); [exact Hu|].
        destruct tx as [tx'|]; [|exact Hu].
        destruct (Minimal.parsePumpfunTx tx') as [parsed|e]; cbn [mbind Res_bind]; exact Hu.
      * unfold finally_runs in E.
        destruct (decide (k ∈ settled st)); [|discriminate]. injection E as <-.
        pose proof (finally_callback_data MinimalScript signatures k st) as (_ & _ & Hu' & _).
        rewrite Hu'. exact Hu.
      * unfold name_settled in E. rewrite Hd in E. discriminate.
    + destruct ev as [k o|k|j name]; cbn [step] in E.
      * unfold fetch_settled in E.
        destruct (decide (k ∈ inProgress st ∧ k ∉ settled st)); [|discriminate].
        destruct (launched st !! k) as [pos|]; [|discriminate].
        cbn [mbind option_bind] in E.
        destruct (signatures !! pos) as [sig|]; [|discriminate].
        cbn [mbind option_bind] in E. injection E as <-.
        cbn [queue_finally detached]. unfold settled_state.
        destruct o as [tx|e]; [|exact Hd]. unfold then_callback.
        destruct (Minimal.isPumpfunTx tx) as [ty|e]; cbn [mbind Res_bind]; [|exact Hd].
        destruct (Nat.eqb ty 0); [exact Hd|].
        destruct tx as [tx'|]; [|exact Hd].
        destruct (Minimal.parsePumpfunTx tx') as [parsed|e]; cbn [mbind Res_bind]; exact Hd.
      * unfold finally_runs in E.
        destruct (decide (k ∈ settled st)); [|discriminate]. injection E as <-.
        pose proof (finally_callback_data MinimalScript signatures k st) as (_ & Hd' & _).
        rewrite Hd'. exact Hd.
      * unfold name_settled in E. rewrite Hd in E. discriminate.
Qed.

Lemma minimal_run_quiet (signatures : list SignatureInfo)
    (evs : list Event) (st : State) :
  run MinimalScript signatures evs = Some st ->
  unhandled st = [] /\ detached st = [].
Proof.
  unfold run. apply minimal_run_from_quiet; unfold getTransactionDetails.
  - pose proof (startNext_data signatures initial) as (_ & _ & _ & Hu & _).
    rewrite Hu. reflexivity.
  - pose proof (startNext_data signatures initial) as (_ & _ & Hd & _).
    rewrite Hd. reflexivity.
Qed.

(** X13: no run of the second script on a non-empty list gets stuck: from
    every point, and whatever each remaining fetch yields, the fetches
    still in flight or not yet launched can settle and run their
    [.finally], after which [completed] is the length of the list and the
    promise is resolved; at no point of that run is a rejection left
    unhandled, so the process is never about to exit. *)
Theorem run_can_always_finish (signatures : list SignatureInfo)
    (outcome : nat -> Outcome) (evs : list Event) (st : State) :
  signatures <> [] ->
  run MinimalScript signatures evs = Some st ->
  exists evs' st',
    Forall (follows outcome) evs' /\
    run MinimalScript signatures (evs ++ evs') = Some st' /\
    completed st' = length signatures /\ is_Some (resolved st') /\
    forall n st1,
      run MinimalScript signatures (take n (evs ++ evs')) = Some st1 ->
      ~ exiting st1.
Proof.
  intros Hne Hrun.
  assert (0 < length signatures) as Hpos.
  { destruct signatures; [contradiction | cbn; lia]. }
  destruct (finish_follows MinimalScript signatures outcome
              (length signatures - completed st) st)
    as (evs' & st' & Hr & Hf & Hc & Hres);
    [exact Hpos | eapply run_Good; eassumption | reflexivity |].
  exists evs', st'. split; [exact Hf|].
  split; [|split; [exact Hc|split; [exact Hres|]]].
  - unfold run in *. rewrite run_from_app, Hrun. exact Hr.
  - intros n st1 Hn. unfold exiting.
    destruct (minimal_run_quiet _ _ _ Hn) as [Hu _]. rewrite Hu. tauto.
Qed.

Lemma run_can_always_finish_witness :
  exists evs' st',
    run MinimalScript (sigs_n 25) (sample_events ++ evs') = Some st' /\
    completed st' = 25 /\ ~ exiting st'.
Proof.
  assert (run MinimalScript (sigs_n 25) sample_events = Some _) as Hrun
    by (vm_compute; reflexivity).
  destruct (run_can_always_finish (sigs_n 25)
              (fun _ => Fulfilled None) sample_events _ ltac:(discriminate) Hrun)
    as (evs' & st' & _ & Hr & Hc & _ & Hq).
  exists evs', st'. split; [exact Hr|]. split; [exact Hc|].
  apply (Hq (length (sample_events ++ evs'))). rewrite firstn_all. exact Hr.
Defined.

(** X14: at every point of every run the records collected and the
    decodes still pending are together no more than the identifiers of the
    list; so the array never gets longer than [txCount], and
    [pumpfunCount] is at most [txCount]. *)
Theorem never_more_records_than_identifiers (s : Script)
    (signatures : list SignatureInfo) (evs : list Event) (st : State) :
  run s signatures evs = Some st ->
  length (transactions st) + length (detached st) <= length signatures /\
  forall o, observe st = Some o ->
            o_pumpfunCount o <= o_txCount o /\
            length (o_transactions o) <= o_txCount o.
Proof.
  intros Hrun. pose proof (run_Good _ _ _ _ Hrun) as HG.
  destruct (run_count_inv s signatures evs st Hrun) as [Hc Hr].
  pose proof (Good_settled_bound signatures st HG) as Hb.
  split; [lia|].
  intros o Hobs. unfold observe in Hobs.
  destruct (resolved st) as [r|] eqn:E; [|discriminate].
  cbn [mbind option_bind] in Hobs. injection Hobs as <-.
  cbn [o_pumpfunCount o_txCount o_transactions].
  destruct (Good_resolved_idle signatures st r HG E) as (_ & _ & ->).
  split; [apply Hr; reflexivity | lia].
Qed.

Lemma never_more_records_than_identifiers_witness :
  exists st,
    run FullScript (sigs_n 1)
      [fetch_buy; Finally 0; NameSettled 0 (Ok "pepe"%string)] = Some st /\
    length (transactions st) + length (detached st) <= 1.
Proof.
  assert (run FullScript (sigs_n 1)
            [fetch_buy; Finally 0; NameSettled 0 (Ok "pepe"%string)] = Some _)
    as Hrun by (vm_compute; reflexivity).
  eexists. split; [exact Hrun|].
  exact (proj1 (never_more_records_than_identifiers _ _ _ _ Hrun)).
Defined.

(** ** What the two scripts collect *)

Lemma minimal_settled_state_pushes (signatures : list SignatureInfo)
    (k : nat) (sig : SignatureInfo) (o : Outcome) (st : State) :
  signatures !! k = Some sig ->
  let st' := settled_state MinimalScript sig o st in
  transactions st' = transactions st ++ pushed_by signatures (FetchSettled k o) /\
  detached st' = detached st.
Proof.
  intros Hsig. cbv zeta. unfold settled_state, pushed_by.
  destruct o as [[tx|]|e].
  - rewrite Hsig. unfold then_callback.
    destruct (Minimal.isPumpfunTx (Some tx)) as [[|n]|e]; cbn [mbind Res_bind Nat.eqb].
    + cbn. rewrite app_nil_r. split; reflexivity.
    + destruct (Minimal.parsePumpfunTx tx) as [parsed|e]; cbn [mbind Res_bind].
      * split; reflexivity.
      * cbn. rewrite app_nil_r. split; reflexivity.
    + cbn. rewrite app_nil_r. split; reflexivity.
  - cbn. rewrite app_nil_r. split; reflexivity.
  - cbn. rewrite app_nil_r. split; reflexivity.
Qed.

Lemma minimal_run_from_collects (signatures : list SignatureInfo)
    (evs : list Event) (st st' : State) :
  Good signatures st -> detached st = [] ->
  run_from MinimalScript signatures st evs = Some st' ->
  transactions st' = transactions st ++ collected_by signatures evs.
Proof.
  revert st. induction evs as [|ev evs IH]; intros st HG Hd; cbn [run_from].
  - intros [= <-]. unfold collected_by. cbn. rewrite app_nil_r. reflexivity.
  - destruct (step MinimalScript signatures st ev) as [st1|] eqn:E; [|discriminate].
    cbn [mbind option_bind]. intros Hrest.
    assert (Good signatures st1) as HG1 by (eapply step_Good; eassumption).
    assert (transactions st1 = transactions st ++ pushed_by signatures ev /\
            detached st1 = []) as [Ht1 Hd1].
    { destruct ev as [k o|k|j name]; cbn [step] in E.
      - assert (k ∈ inProgress st /\ k ∉ settled st) as [Hk Hq].
        { unfold fetch_settled in E.
          destruct (decide (k ∈ inProgress st ∧ k ∉ settled st)); [assumption|discriminate]. }
        destruct (fetch_settled_enabled MinimalScript signatures st k o HG Hk Hq)
          as (sig & _ & Hsig & He).
        rewrite He in E. injection E as <-.
        destruct (minimal_settled_state_pushes signatures k sig o st Hsig) as [Ht Hd'].
        cbn [queue_finally transactions detached]. split; [exact Ht | congruence].
      - assert (k ∈ settled st) as Hq.
        { unfold finally_runs in E. destruct (decide (k ∈ settled st)); [assumption|discriminate]. }
        rewrite (finally_runs_enabled MinimalScript signatures st k Hq) in E.
        injection E as <-.
        pose proof (finally_callback_data MinimalScript signatures k st) as (Ht & Hd' & _).
        cbn [pushed_by]. rewrite app_nil_r. split; [exact Ht | congruence].
      - unfold name_settled in E. rewrite Hd in E. discriminate. }
    rewrite (IH st1 HG1 Hd1 Hrest), Ht1, <- app_assoc. reflexivity.
Qed.

(** X15: in the second script the collected array is, at every point of
    every run, the list of the records of the fetches that fulfilled with
    a matched record whose scan did not throw, in the order in which these
    fetches settled (not the order of the list), each with the signature
    of the position it was launched for. *)
Theorem minimal_collects_in_settling_order (signatures : list SignatureInfo)
    (evs : list Event) (st : State) :
  run MinimalScript signatures evs = Some st ->
  transactions st = collected_by signatures evs.
Proof.
  intros Hrun. unfold run in Hrun.
  rewrite (minimal_run_from_collects signatures evs _ st
             (getTransactionDetails_Good signatures)); [| |exact Hrun].
  - unfold getTransactionDetails.
    pose proof (startNext_data signatures initial) as (Ht & _). rewrite Ht. reflexivity.
  - unfold getTransactionDetails.
    pose proof (startNext_data signatures initial) as (_ & _ & Hd & _). rewrite Hd. reflexivity.
Qed.

Lemma minimal_collects_in_settling_order_witness :
  exists st,
    run MinimalScript (sigs_n 2)
      [FetchSettled 1 (Fulfilled (Some (buy_tx fixture)));
       FetchSettled 0 (Fulfilled (Some buy_tx_no_inner))] = Some st /\
    r_signature <$> transactions st = [Some "B"%string; Some "A"%string].
Proof.
  assert (run MinimalScript (sigs_n 2)
            [FetchSettled 1 (Fulfilled (Some (buy_tx fixture)));
             FetchSettled 0 (Fulfilled (Some buy_tx_no_inner))] = Some _) as Hrun
    by (vm_compute; reflexivity).
  eexists. split; [exact Hrun|].
  rewrite (minimal_collects_in_settling_order _ _ _ Hrun). reflexivity.
Defined.

Lemma full_scan_instructions_mint (l : list Instruction) (f : Full.Fields) :
  Full.scan_instructions l = Ok (Some f) -> length (Full.mint f) = 32.
Proof.
  induction l as [|i l IH]; cbn [Full.scan_instructions]; [discriminate|].
  destruct (programId i) as [p|]; [|discriminate].
  destruct (equals p PUMPFUN_PROGRAM_ID); [|exact IH].
  destruct (data i) as [| |encoded]; cbn [bs58_decode]; [discriminate..|].
  destruct (Full.decode encoded) as [[g|]|e] eqn:E; cbn [mbind Res_bind];
    [|exact IH|discriminate].
  intros [= <-]. revert E. unfold Full.decode.
  destruct (decide (length encoded <> 137)); [discriminate|].
  destruct (decide (length (slice 16 48 encoded) <> 32)) as [|Hm]; [discriminate|].
  destruct (readBigInt64LE (slice 48 56 encoded)); cbn [mbind Res_bind]; [|discriminate].
  destruct (readBigInt64LE (slice 56 64 encoded)); cbn [mbind Res_bind]; [|discriminate].
  destruct (readBigInt64LE (slice 97 105 encoded)); cbn [mbind Res_bind]; [|discriminate].
  intros [= <-]. cbn [Full.mint]. lia.
Qed.

Lemma fetched_app_l (evs more : list Event) (tx : VersionedTransactionResponse) :
  fetched evs tx -> fetched (evs ++ more) tx.
Proof.
  intros [k Hk]. exists k. apply elem_of_app. left. exact Hk.
Qed.

Lemma shown_record_built (tx : VersionedTransactionResponse)
    (f : Full.Fields) (nm : string) (p : PumpfunTxResult) :
  Full.parsePumpfunTx_scan tx = Ok (Some f) ->
  (q ← Full.parsePumpfunTx_finish tx f nm; Full.showPumpfunTx (Some q)) = Ok p ->
  built_from tx p.
Proof.
  intros Hscan. unfold Full.parsePumpfunTx_finish.
  destruct (transaction tx) as [t|] eqn:Et; cbn [mbind Res_bind]; [|discriminate].
  unfold Full.showPumpfunTx. cbn [r_timestamp].
  destruct (parseInt (Full.timestamp f)) as [ts|] eqn:Ep; [|discriminate].
  destruct (Z.leb_spec (Z.abs ts) 8640000000000) as [Hle|]; [|discriminate].
  intros [= <-]. exists t, f, nm, ts.
  split; [exact Et|]. split; [exact Hscan|].
  split; [rewrite full_scan_flat in Hscan; eapply full_scan_instructions_mint; exact Hscan|].
  split; [exact Ep|]. split; [exact Hle | reflexivity].
Qed.

Lemma full_step_provenance (signatures : list SignatureInfo)
    (done : list Event) (st st' : State) (ev : Event) :
  Good signatures st ->
  provenance done st ->
  step FullScript signatures st ev = Some st' ->
  provenance (done ++ [ev]) st'.
Proof.
  intros HG [Ht Hd] Hstep.
  assert (Forall (fun p => exists tx, fetched (done ++ [ev]) tx /\ built_from tx p)
                 (transactions st)) as Ht1.
  { eapply Forall_impl; [exact Ht|]. intros p (tx & Hf & Hb).
    exists tx. split; [apply fetched_app_l; exact Hf | exact Hb]. }
  assert (Forall (fun d => fetched (done ++ [ev]) (d_tx d) /\
                           d_scan d = Full.parsePumpfunTx_scan (d_tx d))
                 (detached st)) as Hd1.
  { eapply Forall_impl; [exact Hd|]. intros d (Hf & Hs).
    split; [apply fetched_app_l; exact Hf | exact Hs]. }
  unfold provenance. destruct ev as [k o|k|j name]; cbn [step] in Hstep.
  - assert (k ∈ inProgress st /\ k ∉ settled st) as [Hk Hq].
    { unfold fetch_settled in Hstep.
      destruct (decide (k ∈ inProgress st ∧ k ∉ settled st)); [assumption|discriminate]. }
    destruct (fetch_settled_enabled FullScript signatures st k o HG Hk Hq)
      as (sig & _ & _ & He).
    rewrite He in Hstep. injection Hstep as <-.
    cbn [queue_finally transactions detached].
    unfold settled_state. destruct o as [tx|e]; [|split; assumption].
    unfold then_callback.
    destruct (Full.isPumpfunTx tx) as [ty|e]; cbn [mbind Res_bind]; [|split; assumption].
    destruct (Nat.eqb ty 0); [split; assumption|].
    destruct tx as [tx'|]; [|split; assumption].
    cbn [detach transactions detached]. split; [exact Ht1|].
    apply Forall_app. split; [exact Hd1|]. constructor; [|constructor].
    cbn [d_tx d_scan]. split; [|reflexivity].
    exists k. apply elem_of_app. right. apply list_elem_of_singleton. reflexivity.
  - assert (k ∈ settled st) as Hq.
    { unfold finally_runs in Hstep. destruct (decide (k ∈ settled st)); [assumption|discriminate]. }
    rewrite (finally_runs_enabled FullScript signatures st k Hq) in Hstep.
    injection Hstep as <-.
    pose proof (finally_callback_data FullScript signatures k st) as (Ht' & Hd' & _).
    rewrite Ht', Hd'. split; assumption.
  - unfold name_settled in Hstep.
    destruct (detached st !! j) as [d|] eqn:Hj; [|discriminate].
    cbn [mbind option_bind] in Hstep.
    assert (fetched (done ++ [NameSettled j name]) (d_tx d) /\
            d_scan d = Full.parsePumpfunTx_scan (d_tx d)) as [Hfd Hscan].
    { rewrite Forall_forall in Hd1.
      apply Hd1, list_elem_of_lookup. exists j. exact Hj. }
    assert (Forall (fun d => fetched (done ++ [NameSettled j name]) (d_tx d) /\
                             d_scan d = Full.parsePumpfunTx_scan (d_tx d))
                   (delete j (detached st))) as Hd'.
    { apply Forall_delete. exact Hd1. }
    destruct (d_scan d) as [[f|]|e] eqn:Es; cbn [mbind Res_bind] in Hstep.
    + destruct name as [nm|e]; cbn [mbind Res_bind] in Hstep.
      * match type of Hstep with
        | Some (match ?c with _ => _ end) = _ => destruct c as [q|e] eqn:Ep
        end; injection Hstep as <-; (split; [|exact Hd']).
        -- cbn [push transactions]. apply Forall_app. split; [exact Ht1|].
           constructor; [|constructor].
           exists (d_tx d). split; [exact Hfd|].
           eapply shown_record_built; [symmetry; exact Hscan | exact Ep].
        -- exact Ht1.
      * injection Hstep as <-. split; [exact Ht1 | exact Hd'].
    + cbn [Full.showPumpfunTx] in Hstep. injection Hstep as <-.
      split; [exact Ht1 | exact Hd'].
    + injection Hstep as <-. split; [exact Ht1 | exact Hd'].
Qed.

Lemma full_run_from_provenance (signatures : list SignatureInfo)
    (evs done : list Event) (st st' : State) :
  Good signatures st ->
  provenance done st ->
  run_from FullScript signatures st evs = Some st' ->
  provenance (done ++ evs) st'.
Proof.
  revert done st. induction evs as [|ev evs IH]; intros done st HG HP; cbn [run_from].
  - intros [= <-]. rewrite app_nil_r. exact HP.
  - destruct (step FullScript signatures st ev) as [st1|] eqn:E; [|discriminate].
    cbn [mbind option_bind]. intros Hrest.
    replace (done ++ ev :: evs) with ((done ++ [ev]) ++ evs)
      by (rewrite <- app_assoc; reflexivity).
    apply (IH (done ++ [ev]) st1); [eapply step_Good; eassumption| |exact Hrest].
    eapply full_step_provenance; eassumption.
Qed.

Lemma full_run_provenance (sigs : list SignatureInfo)
    (evs : list Event) (st : State) :
  run FullScript sigs evs = Some st -> provenance evs st.
Proof.
  intros Hrun. unfold run in Hrun.
  assert (provenance [] (getTransactionDetails sigs)) as H0.
  { unfold getTransactionDetails, provenance.
    pose proof (startNext_data sigs initial) as (Ht & _ & Hd & _).
    rewrite Ht, Hd. split; constructor. }
  exact (full_run_from_provenance sigs evs [] _ st
           (getTransactionDetails_Good sigs) H0 Hrun).
Qed.

(** X16: every record that the first script collects is the object that
    [parsePumpfunTx] builds from a record that one of the fetches of the
    run returned: the mint (32 bytes), the amounts, the flag and the
    timestamp that its scan finds, its slot and success flag, a token
    name, and as signature the first signature of the record, which is
    [undefined] when the record has none.  Its timestamp is within the
    range of [Date]: a payload whose timestamp lies outside it is never
    pushed, since [showPumpfunTx] throws before the push. *)
Theorem full_records_are_complete (sigs : list SignatureInfo)
    (evs : list Event) (st : State) :
  run FullScript sigs evs = Some st ->
  Forall (fun p => exists tx, fetched evs tx /\ built_from tx p) (transactions st).
Proof.
  intros Hrun. exact (proj1 (full_run_provenance sigs evs st Hrun)).
Qed.

Lemma full_records_are_complete_witness :
  exists st,
    run FullScript (sigs_n 1)
      [fetch_buy; Finally 0; NameSettled 0 (Ok "pepe"%string)] = Some st /\
    length (transactions st) = 1 /\
    Forall (fun p => exists tx,
              fetched [fetch_buy; Finally 0; NameSettled 0 (Ok "pepe"%string)] tx /\
              built_from tx p) (transactions st).
Proof.
  assert (run FullScript (sigs_n 1)
            [fetch_buy; Finally 0; NameSettled 0 (Ok "pepe"%string)] = Some _)
    as Hrun by (vm_compute; reflexivity).
  eexists. split; [exact Hrun|]. split; [reflexivity|].
  exact (full_records_are_complete _ _ _ Hrun).
Defined.

(** ** [getSignatures] *)

Section Signatures.

Variable startTime : Z.

(** The test that ends the loop on a page holds exactly when no entry of
    the page lies in the window: the test of the first entry adds nothing. *)
Lemma stop_test (first : SignatureInfo) (others : list SignatureInfo) :
  Nat.eqb (length (window startTime (first :: others))) 0
    && (time_of first <? startTime)%Z = true <->
  window startTime (first :: others) = [].
Proof.
  rewrite andb_true_iff, Nat.eqb_eq, Z.ltb_lt. split.
  - intros [Hl _]. apply nil_length_inv, Hl.
  - intros Hw. split; [rewrite Hw; reflexivity|].
    unfold window in Hw. rewrite filter_cons in Hw.
    destruct (decide (in_window startTime first = true)) as [|Hn]; [discriminate|].
    unfold in_window in Hn. apply not_true_is_false, Z.leb_gt in Hn. exact Hn.
Qed.

Lemma loop_stops (page : list SignatureInfo)
    (rest : list (Res (list SignatureInfo))) (before : option string)
    (run : SignaturesRun) :
  window startTime page = [] ->
  getSignatures_loop startTime (Ok page :: rest) before run =
    Some {| sr_signatures := sr_signatures run;
            sr_asked := sr_asked run ++ [before];
            sr_console := sr_console run |}.
Proof.
  intros Hw. cbn [getSignatures_loop]. destruct page as [|first others]; [reflexivity|].
  fold (window startTime (first :: others)).
  apply stop_test in Hw. rewrite Hw. reflexivity.
Qed.

Lemma loop_continues (page : list SignatureInfo)
    (rest : list (Res (list SignatureInfo))) (before : option string)
    (run : SignaturesRun) :
  continues startTime page ->
  getSignatures_loop startTime (Ok page :: rest) before run =
    getSignatures_loop startTime rest (last_signature page)
      {| sr_signatures := sr_signatures run ++ window startTime page;
         sr_asked := sr_asked run ++ [before];
         sr_console := sr_console run ++
           [FetchedSoFar (length (sr_signatures run ++ window startTime page))] |}.
Proof.
  intros Hc. cbn [getSignatures_loop]. destruct page as [|first others].
  - exfalso. apply Hc. reflexivity.
  - fold (window startTime (first :: others)).
    destruct (Nat.eqb (length (window startTime (first :: others))) 0
                && (time_of first <? startTime)%Z) eqn:E; [|reflexivity].
    exfalso. apply Hc, stop_test, E.
Qed.

Lemma loop_pages (pages : list (list SignatureInfo))
    (rest : list (Res (list SignatureInfo))) (before : option string)
    (run : SignaturesRun) :
  Forall (continues startTime) pages ->
  exists run',
    getSignatures_loop startTime ((Ok <$> pages) ++ rest) before run =
      getSignatures_loop startTime rest (cursor_after before pages) run' /\
    sr_signatures run' = sr_signatures run ++ concat (window startTime <$> pages) /\
    sr_asked run' = sr_asked run ++ cursors before pages /\
    exists lines, sr_console run' = sr_console run ++ lines.
Proof.
  intros Hp. revert before run. induction Hp as [|page pages Hc _ IH]; intros before run.
  - exists run. cbn. rewrite !app_nil_r. repeat split. exists []. rewrite app_nil_r. reflexivity.
  - cbn [fmap list_fmap app]. rewrite (loop_continues page _ before run Hc).
    destruct (IH (last_signature page)
                {| sr_signatures := sr_signatures run ++ window startTime page;
                   sr_asked := sr_asked run ++ [before];
                   sr_console := sr_console run ++
                     [FetchedSoFar (length (sr_signatures run ++ window startTime page))] |})
      as (run' & Hl & Hs & Ha & lines & Hcon).
    exists run'. split; [exact Hl|].
    cbn [sr_signatures sr_asked sr_console] in Hs, Ha, Hcon.
    cbn [concat cursors cursor_after]. rewrite Hs, Ha, Hcon, <- !app_assoc.
    repeat split. eexists. reflexivity.
Qed.

Lemma cursors_chain (before : option string) (pages : list (list SignatureInfo)) :
  cursors before pages ++ [cursor_after before pages] =
  before :: (last_signature <$> pages).
Proof.
  revert before. induction pages as [|page pages IH]; intros before.
  - reflexivity.
  - cbn [cursors cursor_after fmap list_fmap app]. rewrite IH. reflexivity.
Qed.

Lemma loop_in_window (responses : list (Res (list SignatureInfo)))
    (before : option string) (run run' : SignaturesRun) :
  Forall (fun sig => (startTime <= time_of sig)%Z) (sr_signatures run) ->
  getSignatures_loop startTime responses before run = Some run' ->
  Forall (fun sig => (startTime <= time_of sig)%Z) (sr_signatures run').
Proof.
  revert before run. induction responses as [|response rest IH]; intros before run Hin;
    cbn [getSignatures_loop]; [discriminate|].
  destruct response as [page|e]; [|intros [= <-]; constructor].
  destruct page as [|first others]; [intros [= <-]; exact Hin|].
  match goal with |- (if ?c then _ else _) = _ -> _ => destruct c end;
    [intros [= <-]; exact Hin|].
  apply IH. cbn [sr_signatures]. apply Forall_app. split; [exact Hin|].
  apply Forall_forall. intros sig Hs. apply list_elem_of_filter in Hs.
  destruct Hs as [Hw _]. unfold in_window in Hw. apply Z.leb_le, Hw.
Qed.

End Signatures.

(** X17: every signature that [getSignatures] returns has a block time at
    or after the start of the window (a [null] block time counting as 0),
    whatever the ledger answers. *)
Theorem signatures_are_in_window (s : Script) (pubKey : Res PublicKey)
    (startTime : Z) (responses : list (Res (list SignatureInfo)))
    (run : SignaturesRun) :
  getSignatures s pubKey startTime responses = Some (Ok run) ->
  Forall (fun sig => (startTime <= time_of sig)%Z) (sr_signatures run).
Proof.
  unfold getSignatures. destruct pubKey as [key|e]; [|discriminate].
  match goal with |- Ok <$> ?l = _ -> _ => destruct l as [run'|] eqn:E end;
    [|discriminate].
  intros [= <-]. eapply loop_in_window; [|exact E]. constructor.
Qed.

Lemma signatures_are_in_window_witness :
  exists run,
    getSignatures FullScript (Ok PUMPFUN_PROGRAM_ID) 100
      ((Ok <$> sample_pages) ++ [Ok sample_stop_page]) = Some (Ok run) /\
    Forall (fun sig => (100 <= time_of sig)%Z) (sr_signatures run).
Proof.
  assert (getSignatures FullScript (Ok PUMPFUN_PROGRAM_ID) 100
            ((Ok <$> sample_pages) ++ [Ok sample_stop_page]) = Some (Ok _)) as Hrun
    by (vm_compute; reflexivity).
  eexists. split; [exact Hrun|].
  exact (signatures_are_in_window _ _ _ _ _ Hrun).
Defined.

Lemma getSignatures_pages_stop (s : Script) (key : PublicKey)
    (startTime : Z) (pages : list (list SignatureInfo))
    (stop : list SignatureInfo) (rest : list (Res (list SignatureInfo))) :
  Forall (continues startTime) pages ->
  window startTime stop = [] ->
  exists run,
    getSignatures s (Ok key) startTime ((Ok <$> pages) ++ Ok stop :: rest)
      = Some (Ok run) /\
    sr_signatures run = concat (window startTime <$> pages) /\
    sr_asked run = None :: (last_signature <$> pages).
Proof.
  intros Hp Hstop. unfold getSignatures.
  match goal with |- context [getSignatures_loop _ _ _ ?r] => set (run0 := r) end.
  destruct (loop_pages startTime pages (Ok stop :: rest) None run0 Hp)
    as (run' & Hl & Hs & Ha & _).
  rewrite Hl, (loop_stops startTime stop rest _ run' Hstop).
  eexists. split; [reflexivity|]. cbn [sr_signatures sr_asked].
  rewrite Hs, Ha. cbn [run0 sr_signatures sr_asked app].
  split; [reflexivity | apply cursors_chain].
Qed.

(** X18: [getSignatures] goes on page after page as long as a page holds
    an entry in the window, even when the last entries of that page are
    older; it stops at the first page that is empty or entirely older.  It
    returns the in-window entries of the pages before, in order; the first
    request has no cursor and each later one has the signature of the last
    entry of the page before. *)
Theorem signatures_until_page_outside_window (s : Script) (key : PublicKey)
    (startTime : Z) (pages : list (list SignatureInfo))
    (stop : list SignatureInfo) (rest : list (Res (list SignatureInfo))) :
  Forall (continues startTime) pages ->
  window startTime stop = [] ->
  exists run,
    getSignatures s (Ok key) startTime ((Ok <$> pages) ++ Ok stop :: rest)
      = Some (Ok run) /\
    sr_signatures run = concat (window startTime <$> pages) /\
    sr_asked run = None :: (last_signature <$> pages).
Proof. apply getSignatures_pages_stop. Qed.

Lemma signatures_until_page_outside_window_witness :
  exists run,
    getSignatures FullScript (Ok PUMPFUN_PROGRAM_ID) 100
      ((Ok <$> sample_pages) ++ [Ok sample_stop_page]) = Some (Ok run) /\
    signature <$> sr_signatures run = ["s1"; "s2"; "s3"]%string /\
    sr_asked run = [None; Some "s2"; Some "s4"]%string.
Proof.
  destruct (signatures_until_page_outside_window FullScript PUMPFUN_PROGRAM_ID 100
              sample_pages sample_stop_page []) as (run & Hrun & Hs & Ha).
  - repeat constructor; vm_compute; discriminate.
  - reflexivity.
  - exists run. split; [exact Hrun|]. rewrite Hs, Ha. split; reflexivity.
Defined.

Lemma getSignatures_pages_error (s : Script) (key : PublicKey)
    (startTime : Z) (pages : list (list SignatureInfo)) (e : Exn)
    (rest : list (Res (list SignatureInfo))) :
  Forall (continues startTime) pages ->
  exists run lines,
    getSignatures s (Ok key) startTime ((Ok <$> pages) ++ Throw e :: rest)
      = Some (Ok run) /\
    sr_signatures run = [] /\
    sr_console run = lines ++ [ErrorFetchingSignatures e] /\
    length (sr_asked run) = S (length pages).
Proof.
  intros Hp. unfold getSignatures.
  match goal with |- context [getSignatures_loop _ _ _ ?r] => set (run0 := r) end.
  destruct (loop_pages startTime pages (Throw e :: rest) None run0 Hp)
    as (run' & Hl & _ & Ha & lines & Hc).
  rewrite Hl. cbn [getSignatures_loop fmap option_fmap option_map].
  eexists _, _. split; [reflexivity|]. cbn [sr_signatures sr_console sr_asked].
  split; [reflexivity|]. split; [reflexivity|].
  rewrite Ha. cbn [run0 sr_asked app]. rewrite cursors_chain.
  cbn [length]. rewrite length_fmap. reflexivity.
Qed.

(** X19: when a request to the ledger fails, [getSignatures] logs the
    error and returns an empty array: the signatures gathered from the
    pages before are lost. *)
Theorem signature_error_discards_pages (s : Script) (key : PublicKey)
    (startTime : Z) (pages : list (list SignatureInfo)) (e : Exn)
    (rest : list (Res (list SignatureInfo))) :
  Forall (continues startTime) pages ->
  exists run lines,
    getSignatures s (Ok key) startTime ((Ok <$> pages) ++ Throw e :: rest)
      = Some (Ok run) /\
    sr_signatures run = [] /\
    sr_console run = lines ++ [ErrorFetchingSignatures e] /\
    length (sr_asked run) = S (length pages).
Proof. apply getSignatures_pages_error. Qed.

Lemma signature_error_discards_pages_witness :
  exists run,
    getSignatures FullScript (Ok PUMPFUN_PROGRAM_ID) 100
      ((Ok <$> sample_pages) ++ [Throw (Error "429")]) = Some (Ok run) /\
    sr_signatures run = [].
Proof.
  destruct (signature_error_discards_pages FullScript PUMPFUN_PROGRAM_ID 100
              sample_pages (Error "429") []) as (run & lines & Hrun & Hs & _).
  - repeat constructor; vm_compute; discriminate.
  - exists run. split; [exact Hrun | exact Hs].
Defined.

(** X20: [getAllTransactions] returns an empty array, and fetches no
    record, when the address is not a valid key (no request is made at
    all) and when a request for signatures fails, even after pages that
    held signatures in the window. *)
Theorem source_failure_gives_empty_array (s : Script) (now daysAgo : Z)
    (responses : list (Res (list SignatureInfo))) :
  (forall e,
     getAllTransactions_from s (Throw e) now daysAgo responses
       = Some ReturnsEmptyArray) /\
  (forall key pages e rest,
     Forall (continues (startTime_of now daysAgo)) pages ->
     responses = (Ok <$> pages) ++ Throw e :: rest ->
     getAllTransactions_from s (Ok key) now daysAgo responses
       = Some ReturnsEmptyArray).
Proof.
  split.
  - intros e. reflexivity.
  - intros key pages e rest Hp ->. unfold getAllTransactions_from.
    destruct (getSignatures_pages_error s key (startTime_of now daysAgo)
                pages e rest Hp) as (run & _ & -> & Hs & _).
    cbn [mbind option_bind]. rewrite Hs. reflexivity.
Qed.

Lemma source_failure_gives_empty_array_witness :
  getAllTransactions_from FullScript (Ok PUMPFUN_PROGRAM_ID) 86500000 1
    ((Ok <$> sample_pages) ++ [Throw (Error "429")]) = Some ReturnsEmptyArray.
Proof.
  refine (proj2 (source_failure_gives_empty_array FullScript 86500000 1 _)
            PUMPFUN_PROGRAM_ID sample_pages (Error "429") [] _ eq_refl).
  repeat constructor; vm_compute; discriminate.
Defined.

(** X21: when the ledger answers without error, [getAllTransactions] hands
    to [getTransactionDetails] exactly the in-window entries of the pages
    before the first page outside the window, in order, and returns an
    empty array without calling it when there is none. *)
Theorem pipeline_gets_window_signatures (s : Script) (key : PublicKey)
    (now daysAgo : Z) (pages : list (list SignatureInfo))
    (stop : list SignatureInfo) (rest : list (Res (list SignatureInfo))) :
  Forall (continues (startTime_of now daysAgo)) pages ->
  window (startTime_of now daysAgo) stop = [] ->
  getAllTransactions_from s (Ok key) now daysAgo ((Ok <$> pages) ++ Ok stop :: rest) =
    Some (match pages with
          | [] => ReturnsEmptyArray
          | _ :: _ =>
              AwaitsDetails
                (getTransactionDetails
                   (concat (window (startTime_of now daysAgo) <$> pages)))
          end).
Proof.
  intros Hp Hstop. unfold getAllTransactions_from.
  destruct (getSignatures_pages_stop s key (startTime_of now daysAgo)
              pages stop rest Hp Hstop) as (run & -> & Hs & _).
  cbn [mbind option_bind]. rewrite Hs. f_equal.
  destruct pages as [|page pages']; [reflexivity|].
  unfold getAllTransactions.
  apply Forall_cons_1 in Hp. destruct Hp as [Hc _].
  cbn [fmap list_fmap concat]. unfold continues in Hc.
  destruct (window (startTime_of now daysAgo) page) as [|sig l]; [contradiction|].
  reflexivity.
Qed.

Lemma pipeline_gets_window_signatures_witness :
  exists st,
    getAllTransactions_from FullScript (Ok PUMPFUN_PROGRAM_ID) 86500000 1
      ((Ok <$> sample_pages) ++ [Ok sample_stop_page]) = Some (AwaitsDetails st) /\
    launched st = [0; 1; 2].
Proof.
  eexists. split.
  - rewrite (pipeline_gets_window_signatures FullScript PUMPFUN_PROGRAM_ID 86500000 1
               sample_pages sample_stop_page []).
    + reflexivity.
    + repeat constructor; vm_compute; discriminate.
    + vm_compute. reflexivity.
  - vm_compute. reflexivity.
Defined.

(** ** [nameOfToken] *)

Lemma quote_name_empty (name : string) : quote_name name = ""%string -> name = ""%string.
Proof.
  unfold quote_name. destruct (includes " " name); [|auto].
  unfold dquote. cbn. discriminate.
Qed.

(** X22: once [nameOfToken] has returned a non-empty name for a mint, the
    next call for that mint returns the same string without asking
    metaplex and without touching the cache: a name with a space, stored
    in quotes, is not quoted a second time. *)
Theorem nameOfToken_cache_hit (tokenNameCache : gmap string string)
    (mint : PublicKey) (metadata metadata' : Res (option string)) (name : string) :
  nl_name (nameOfToken tokenNameCache mint metadata) = Ok name ->
  name <> ""%string ->
  let cache := nl_cache (nameOfToken tokenNameCache mint metadata) in
  nameOfToken cache mint metadata' =
    {| nl_name := Ok name; nl_cache := cache; nl_fetched := false |}.
Proof.
  intros Hname Hne. cbv zeta.
  assert (nameOfToken_cached (nl_cache (nameOfToken tokenNameCache mint metadata)) mint
          = Some name) as Hhit.
  { revert Hname. unfold nameOfToken.
    destruct (nameOfToken_cached tokenNameCache mint) as [cached|] eqn:Ec.
    - cbn [nl_name nl_cache]. intros [= ->]. exact Ec.
    - unfold nameOfToken_store. destruct metadata as [[n|]|e]; cbn [nl_name nl_cache];
        [|discriminate..].
      intros [= Hq]. unfold nameOfToken_cached. rewrite lookup_insert_eq, Hq.
      destruct (String.eqb name "") eqn:E; [|reflexivity].
      apply String.eqb_eq in E. contradiction. }
  unfold nameOfToken at 1. rewrite Hhit. reflexivity.
Qed.

Lemma nameOfToken_cache_hit_witness :
  nl_name (nameOfToken (nl_cache (nameOfToken ∅ "mintA" (Ok (Some "Pepe Coin"%string))))
             "mintA" (Throw (Error "offline")))
  = nl_name (nameOfToken ∅ "mintA" (Ok (Some "Pepe Coin"%string))).
Proof.
  rewrite (nameOfToken_cache_hit ∅ "mintA" (Ok (Some "Pepe Coin"%string))
             (Throw (Error "offline")) (quote_name "Pepe Coin")).
  - reflexivity.
  - reflexivity.
  - vm_compute. discriminate.
Defined.

(** X23: a token whose name is the empty string is stored but never served
    from the cache: every later call for that mint asks metaplex again. *)
Theorem nameOfToken_empty_name_refetched (tokenNameCache : gmap string string)
    (mint : PublicKey) (metadata' : Res (option string)) :
  nameOfToken_cached tokenNameCache mint = None ->
  let first := nameOfToken tokenNameCache mint (Ok (Some ""%string)) in
  nl_name first = Ok ""%string /\
  nl_cache first !! mint = Some ""%string /\
  nl_fetched (nameOfToken (nl_cache first) mint metadata') = true.
Proof.
  intros Hmiss. cbv zeta.
  assert (nameOfToken tokenNameCache mint (Ok (Some ""%string)) =
          {| nl_name := Ok ""%string;
             nl_cache := <[mint := ""%string]> tokenNameCache;
             nl_fetched := true |}) as ->.
  { unfold nameOfToken. rewrite Hmiss. reflexivity. }
  cbn [nl_name nl_cache].
  split; [reflexivity|]. split; [apply lookup_insert_eq|].
  unfold nameOfToken, nameOfToken_cached. rewrite lookup_insert_eq.
  cbn [String.eqb]. destruct (nameOfToken_store _ mint metadata'). reflexivity.
Qed.

Lemma nameOfToken_empty_name_refetched_witness :
  nl_fetched (nameOfToken (nl_cache (nameOfToken ∅ "mintA" (Ok (Some ""%string))))
                "mintA" (Ok (Some "Pepe"%string))) = true.
Proof.
  refine (proj2 (proj2 (nameOfToken_empty_name_refetched ∅ "mintA"
                          (Ok (Some "Pepe"%string)) _))).
  reflexivity.
Defined.

(** X24: a call of [nameOfToken] never changes what the cache holds for
    another mint, and a call that fails (metaplex rejects, or the metadata
    has no name) leaves the whole cache as it was. *)
Theorem nameOfToken_cache_isolation (tokenNameCache : gmap string string)
    (mint : PublicKey) (metadata : Res (option string)) :
  (forall other, other <> mint ->
     nl_cache (nameOfToken tokenNameCache mint metadata) !! other =
     tokenNameCache !! other) /\
  (forall e, nl_name (nameOfToken tokenNameCache mint metadata) = Throw e ->
     nl_cache (nameOfToken tokenNameCache mint metadata) = tokenNameCache).
Proof.
  unfold nameOfToken.
  destruct (nameOfToken_cached tokenNameCache mint) as [cached|].
  - split; [reflexivity | intros e; discriminate].
  - unfold nameOfToken_store. destruct metadata as [[n|]|e]; cbn [nl_name nl_cache].
    + split; [|intros e; discriminate].
      intros other Hne. apply lookup_insert_ne. congruence.
    + split; reflexivity.
    + split; reflexivity.
Qed.

Lemma nameOfToken_cache_isolation_witness :
  nl_cache (nameOfToken {[ "mintB"%string := "Doge"%string ]} "mintA"
              (Ok (Some "Pepe"%string))) !! "mintB"%string = Some "Doge"%string.
Proof.
  rewrite (proj1 (nameOfToken_cache_isolation {[ "mintB"%string := "Doge"%string ]}
                    "mintA" (Ok (Some "Pepe"%string))) "mintB"%string).
  - apply lookup_singleton_eq.
  - discriminate.
Defined.

(** ** A matched record, from the fetch to the collected array *)

Lemma parseInt_toString (z : Z) : parseInt (toString z) = Some z.
Proof.
  unfold parseInt, toString. rewrite NilZero.isi.
  - cbn [fmap option_fmap option_map]. f_equal. apply DecimalZ.of_to.
  - destruct z; cbn; try discriminate. intros [= H]. revert H.
    apply Unsigned.to_uint_nonnil.
  - destruct z; cbn; try discriminate. intros [= H]. revert H.
    apply Unsigned.to_uint_nonnil.
Qed.

Lemma minimal_decode_long (blob : list byte) :
  64 <= length blob ->
  Minimal.decode blob =
    Ok {| Minimal.solAmount := toString (to_int64 (le_unsigned (slice 48 56 blob)));
          Minimal.tokenAmount := toString (to_int64 (le_unsigned (slice 56 64 blob)));
          Minimal.isBuy := isBuy_of blob |}.
Proof.
  intros Hlen. unfold Minimal.decode.
  rewrite !readBigInt64LE_eight by (rewrite slice_length; lia). reflexivity.
Qed.

Lemma full_decode_long (blob : list byte) :
  length blob = 137 ->
  Full.decode blob =
    Ok (Some {| Full.mint := slice 16 48 blob;
                Full.solAmount := toString (to_int64 (le_unsigned (slice 48 56 blob)));
                Full.tokenAmount := toString (to_int64 (le_unsigned (slice 56 64 blob)));
                Full.isBuy := isBuy_of blob;
                Full.timestamp := toString (to_int64 (le_unsigned (slice 97 105 blob))) |}).
Proof.
  intros Hlen. unfold Full.decode.
  destruct (decide (length blob <> 137)) as [Hn|_]; [contradiction|].
  destruct (decide (length (slice 16 48 blob) <> 32)) as [Hn|_].
  { exfalso. apply Hn. rewrite slice_length; lia. }
  rewrite !readBigInt64LE_eight by (rewrite slice_length; lia). reflexivity.
Qed.

Lemma full_matched_has_transaction (tx : VersionedTransactionResponse) (ty : nat) :
  Full.isPumpfunTx (Some tx) = Ok ty -> ty <> 0 ->
  exists t, transaction tx = Some t.
Proof.
  unfold Full.isPumpfunTx. destruct (transaction tx) as [t|].
  - intros _ _. exists t. reflexivity.
  - intros [= <-] H. contradiction.
Qed.

(** X25: in the second script, a fetch that fulfils with a matched record
    whose first inner instruction of the target program carries a blob of
    at least 64 bytes appends exactly one record: the signature of the
    identifier fetched, [blockTime], [slot], the success flag, the two
    amounts read from the blob, and [isBuy] read from byte 64 of the blob,
    whichever of 1 (buy) and 2 (sell) the classifier returned. *)
Theorem minimal_collects_decoded_payload (signatures : list SignatureInfo)
    (evs : list Event) (st : State) (k ty : nat)
    (tx : VersionedTransactionResponse)
    (pre post : list Instruction) (i : Instruction) (blob : list byte) :
  run MinimalScript signatures evs = Some st ->
  k ∈ inProgress st -> k ∉ settled st ->
  Minimal.isPumpfunTx (Some tx) = Ok ty -> ty <> 0 ->
  inner_flat tx = pre ++ i :: post ->
  Forall foreign pre ->
  programId i = Some PUMPFUN_PROGRAM_ID ->
  data i = Base58 blob ->
  64 <= length blob ->
  exists sig st',
    signatures !! k = Some sig /\
    step MinimalScript signatures st (FetchSettled k (Fulfilled (Some tx))) = Some st' /\
    transactions st' = transactions st ++
      [ {| r_mint := None;
           r_solAmount := Some (toString (to_int64 (le_unsigned (slice 48 56 blob))));
           r_tokenAmount := Some (toString (to_int64 (le_unsigned (slice 56 64 blob))));
           r_isBuy := Some (isBuy_of blob);
           r_timestamp := TimeNumber (blockTime tx);
           r_slot := slot tx;
           r_signature := Some (signature sig);
           r_success := success_of tx;
           r_tokenName := None |} ].
Proof.
  intros Hrun Hk Hq Hcls Hty Hflat Hpre Hp Hd Hlen.
  apply Nat.eqb_neq in Hty. pose proof (run_Good _ _ _ _ Hrun) as HG.
  destruct (fetch_settled_enabled MinimalScript signatures st k
              (Fulfilled (Some tx)) HG Hk Hq) as (sig & _ & Hsig & Hstep).
  pose proof (minimal_first_payload tx pre post i blob Hflat Hpre Hp Hd) as Hparse.
  rewrite (minimal_decode_long blob Hlen) in Hparse. cbn [mbind Res_bind] in Hparse.
  exists sig. eexists. split; [exact Hsig|]. split; [exact Hstep|].
  cbn [queue_finally transactions]. unfold settled_state, then_callback.
  rewrite Hcls. cbn [mbind Res_bind]. rewrite Hty, Hparse. reflexivity.
Qed.

Lemma minimal_collects_decoded_payload_witness :
  exists st',
    step MinimalScript (sigs_n 1) (getTransactionDetails (sigs_n 1))
      (FetchSettled 0 (Fulfilled (Some (buy_tx fixture)))) = Some st' /\
    r_isBuy <$> transactions st' = [Some true].
Proof.
  assert (0 ∈ inProgress (getTransactionDetails (sigs_n 1))) as Hk
    by (vm_compute; reflexivity).
  assert (0 ∉ settled (getTransactionDetails (sigs_n 1))) as Hq
    by (vm_compute; discriminate).
  destruct (minimal_collects_decoded_payload (sigs_n 1) [] (getTransactionDetails (sigs_n 1))
              0 1 (buy_tx fixture) [] [] (pumpfun_instruction fixture) fixture
              eq_refl Hk Hq) as (sig & st' & _ & Hstep & Ht).
  - vm_compute. reflexivity.
  - discriminate.
  - reflexivity.
  - constructor.
  - reflexivity.
  - reflexivity.
  - vm_compute. lia.
  - exists st'. split; [exact Hstep|]. rewrite Ht. vm_compute. reflexivity.
Defined.

(** X26: in the first script, a fetch that fulfils with a matched record
    whose first 137-byte blob of the target program is [blob] pushes
    nothing by itself; when the token name arrives, the record built from
    the blob, the record's first signature, slot and success flag and the
    name is printed and appended, provided the timestamp read at 97 lies
    within +-8 640 000 000 000 s; otherwise nothing is appended and the
    RangeError of [toISOString] is left unhandled. *)
Theorem full_collects_decoded_payload (sigs : list SignatureInfo)
    (evs : list Event) (st : State) (k ty : nat)
    (tx : VersionedTransactionResponse)
    (pre post : list Instruction) (i : Instruction) (blob : list byte)
    (nm : string) :
  run FullScript sigs evs = Some st ->
  k ∈ inProgress st -> k ∉ settled st ->
  Full.isPumpfunTx (Some tx) = Ok ty -> ty <> 0 ->
  inner_flat tx = pre ++ i :: post ->
  Forall (fun j => foreign j \/ skipped j) pre ->
  programId i = Some PUMPFUN_PROGRAM_ID ->
  data i = Base58 blob ->
  length blob = 137 ->
  exists t st1 st2,
    transaction tx = Some t /\
    step FullScript sigs st (FetchSettled k (Fulfilled (Some tx))) = Some st1 /\
    transactions st1 = transactions st /\
    name_settled (length (detached st)) (Ok nm) st1 = Some st2 /\
    let ts := to_int64 (le_unsigned (slice 97 105 blob)) in
    let p := {| r_mint := Some (slice 16 48 blob);
                r_solAmount := Some (toString (to_int64 (le_unsigned (slice 48 56 blob))));
                r_tokenAmount := Some (toString (to_int64 (le_unsigned (slice 56 64 blob))));
                r_isBuy := Some (isBuy_of blob);
                r_timestamp := TimeString (toString ts);
                r_slot := slot tx;
                r_signature := signatures t !! 0;
                r_success := success_of tx;
                r_tokenName := Some nm |} in
    if (Z.abs ts <=? 8640000000000)%Z
    then transactions st2 = transactions st ++ [p] /\
         console st2 = console st ++ [Shown p] /\
         unhandled st2 = unhandled st
    else transactions st2 = transactions st /\
         unhandled st2 = unhandled st ++ [RangeError].
Proof.
  intros Hrun Hk Hq Hcls Hty Hflat Hpre Hp Hd Hlen.
  destruct (full_matched_has_transaction tx ty Hcls Hty) as [t Ht].
  apply Nat.eqb_neq in Hty. pose proof (run_Good _ _ _ _ Hrun) as HG.
  destruct (fetch_settled_enabled FullScript sigs st k
              (Fulfilled (Some tx)) HG Hk Hq) as (sig & _ & Hsig & Hstep).
  destruct (full_first_payload tx pre post i blob Hflat Hpre Hp Hd Hlen)
    as (f & Hf & Hscan).
  rewrite (full_decode_long blob Hlen) in Hf. injection Hf as <-.
  set (d := {| d_tx := tx; d_scan := Full.parsePumpfunTx_scan tx |}).
  assert (settled_state FullScript sig (Fulfilled (Some tx)) st = detach d st) as Hst.
  { unfold settled_state, then_callback. rewrite Hcls. cbn [mbind Res_bind].
    rewrite Hty. reflexivity. }
  rewrite Hst in Hstep.
  exists t, (queue_finally k (detach d st)). eexists.
  split; [exact Ht|]. split; [exact Hstep|]. split; [reflexivity|].
  unfold name_settled. cbn [queue_finally detach detached].
  rewrite list_lookup_middle by reflexivity.
  cbn [mbind option_bind d d_scan d_tx]. rewrite Hscan. cbn [mbind Res_bind].
  unfold Full.parsePumpfunTx_finish. rewrite Ht. cbn [mbind Res_bind].
  unfold Full.showPumpfunTx.
  cbn [r_timestamp Full.mint Full.solAmount Full.tokenAmount Full.isBuy Full.timestamp].
  rewrite parseInt_toString. split; [reflexivity|]. cbv zeta.
  destruct (Z.abs (to_int64 (le_unsigned (slice 97 105 blob))) <=? 8640000000000)%Z.
  - repeat split.
  - repeat split.
Qed.

Lemma full_collects_decoded_payload_witness :
  exists st1 st2,
    step FullScript (sigs_n 1) (getTransactionDetails (sigs_n 1)) fetch_buy = Some st1 /\
    name_settled 0 (Ok "pepe"%string) st1 = Some st2 /\
    r_tokenName <$> transactions st2 = [Some "pepe"%string].
Proof.
  assert (0 ∈ inProgress (getTransactionDetails (sigs_n 1))) as Hk
    by (vm_compute; reflexivity).
  assert (0 ∉ settled (getTransactionDetails (sigs_n 1))) as Hq
    by (vm_compute; discriminate).
  destruct (full_collects_decoded_payload (sigs_n 1) [] (getTransactionDetails (sigs_n 1))
              0 1 (buy_tx fixture) [] [] (pumpfun_instruction fixture) fixture
              "pepe"%string eq_refl Hk Hq) as (t & st1 & st2 & _ & Hstep & _ & Hname & Hres).
  - vm_compute. reflexivity.
  - discriminate.
  - reflexivity.
  - constructor.
  - reflexivity.
  - reflexivity.
  - reflexivity.
  - exists st1, st2. split; [exact Hstep|].
    assert (detached (getTransactionDetails (sigs_n 1)) = []) as Hd0
      by (vm_compute; reflexivity).
    rewrite Hd0 in Hname. split; [exact Hname|].
    cbv zeta in Hres.
    assert ((Z.abs (to_int64 (le_unsigned (slice 97 105 fixture))) <=? 8640000000000)%Z
            = true) as Hin by (vm_compute; reflexivity).
    rewrite Hin in Hres. destruct Hres as (Ht & _).
    assert (transactions (getTransactionDetails (sigs_n 1)) = []) as Ht0
      by (vm_compute; reflexivity).
    rewrite Ht, Ht0. reflexivity.
Defined.

(** ** The length guard of the first script *)

Section Layout.
Local Open Scope Z_scope.




End Layout.





(** ** Matched records that yield no event *)

(** The count stored at [resolve] never exceeds the records collected. *)
Lemma step_counted (s : Script) (sigs : list SignatureInfo)
    (st st' : State) (ev : Event) :
  Good sigs st ->
  (forall r, resolved st = Some r -> pumpfunCount r <= length (transactions st)) ->
  step s sigs st ev = Some st' ->
  forall r, resolved st' = Some r -> pumpfunCount r <= length (transactions st').
Proof.
  intros HG Hc Hstep r Hr. destruct ev as [k o|k|j name]; cbn [step] in Hstep.
  - exfalso.
    assert (k ∈ inProgress st /\ k ∉ settled st) as [Hk Hq].
    { unfold fetch_settled in Hstep.
      destruct (decide (k ∈ inProgress st ∧ k ∉ settled st)); [assumption|discriminate]. }
    destruct (fetch_settled_enabled s sigs st k o HG Hk Hq) as (sig & _ & _ & He).
    rewrite He in Hstep. injection Hstep as <-.
    destruct (in_flight_unresolved sigs st k HG Hk) as [HrN _].
    pose proof (settled_state_sched s sig o st) as (_ & _ & _ & Hres & _).
    cbn [queue_finally resolved] in Hr. congruence.
  - assert (k ∈ settled st) as Hq.
    { unfold finally_runs in Hstep. destruct (decide (k ∈ settled st)); [assumption|discriminate]. }
    rewrite (finally_runs_enabled s sigs st k Hq) in Hstep. injection Hstep as <-.
    assert (k ∈ inProgress st) as Hk by (apply HG, Hq).
    destruct (in_flight_unresolved sigs st k HG Hk) as [HrN _].
    pose proof (finally_callback_data s sigs k st) as (Ht & _).
    destruct (finally_callback_count s sigs k st r HrN Hr) as [_ Hn].
    rewrite Ht, Hn. lia.
  - pose proof (name_settled_sched j name st st' Hstep) as (_ & _ & _ & Hres & _).
    rewrite Hres in Hr. specialize (Hc r Hr).
    assert (length (transactions st) <= length (transactions st')) as Hle.
    { unfold name_settled in Hstep.
      destruct (detached st !! j) as [d|]; [|discriminate].
      cbn [mbind option_bind] in Hstep.
      match type of Hstep with
      | Some (match ?c with _ => _ end) = _ => destruct c
      end; injection Hstep as <-;
        cbn [push log_line drop_detached reject_unhandled transactions].
      - rewrite length_app. lia.
      - lia. }
    lia.
Qed.

Lemma run_counted (s : Script) (sigs : list SignatureInfo)
    (evs : list Event) (st : State) (r : PipelineResult) :
  run s sigs evs = Some st ->
  resolved st = Some r -> pumpfunCount r <= length (transactions st).
Proof.
  unfold run.
  assert (forall r, resolved (getTransactionDetails sigs) = Some r ->
                    pumpfunCount r <= length (transactions (getTransactionDetails sigs)))
    as H0.
  { unfold getTransactionDetails.
    pose proof (startNext_data sigs initial) as (_ & _ & _ & _ & Hr & _).
    rewrite Hr. discriminate. }
  pose proof (getTransactionDetails_Good sigs) as HG.
  revert H0 HG r. generalize (getTransactionDetails sigs).
  induction evs as [|ev evs IH]; intros st0 H0 HG r; cbn [run_from].
  - intros [= <-]. apply H0.
  - destruct (step s sigs st0 ev) as [st1|] eqn:E; [|discriminate].
    cbn [mbind option_bind]. apply IH.
    + eapply step_counted; eassumption.
    + eapply step_Good; eassumption.
Qed.

Lemma minimal_run_counted (sigs : list SignatureInfo)
    (evs : list Event) (st : State) (r : PipelineResult) :
  run MinimalScript sigs evs = Some st ->
  resolved st = Some r -> pumpfunCount r = length (transactions st).
Proof.
  intros Hrun Hr.
  apply (minimal_count_matches sigs evs st
           {| o_transactions := transactions st;
              o_txCount := txCount r;
              o_pumpfunCount := pumpfunCount r |} Hrun).
  unfold observe. rewrite Hr. reflexivity.
Qed.

(** A run that goes on after one more job. *)
Lemma run_after_step (s : Script) (sigs : list SignatureInfo)
    (evs evs' : list Event) (st st1 st' : State) (ev : Event) :
  run s sigs evs = Some st ->
  step s sigs st ev = Some st1 ->
  run s sigs (evs ++ ev :: evs') = Some st' ->
  run_from s sigs st1 evs' = Some st'.
Proof.
  unfold run. intros Hrun Hstep. rewrite run_from_app, Hrun.
  cbn [mbind option_bind run_from]. rewrite Hstep. cbn [mbind option_bind].
  intros H. exact H.
Qed.

(** C2 (amended): for a fetched record classified as matched,
    - second script, the decode throws: the [.catch] of the fetch logs the
      error, the [.finally] counts the item as completed, no record is
      appended, then or later, no rejection is left unhandled, and the
      count stored at [resolve] is the number of records collected;
    - first script, the scan ends without a record (it throws, or finds no
      137-byte blob of the target program): no record is appended, by the
      [.then] of the fetch or by the detached promise when it goes on;
      the records collected at any later point are built from other
      fetched records, and the count stored at [resolve] is at most their
      number;
    - second script, the scan finds no instruction of the target program:
      a record holding signature, timestamp, slot and success only is
      appended, no rejection is left unhandled, and the record is counted
      at [resolve]. *)
Theorem matched_undecodable_records (sigs : list SignatureInfo)
    (evs : list Event) (st : State) (k : nat)
    (tx : VersionedTransactionResponse) (ty : nat) :
  k ∈ inProgress st -> k ∉ settled st -> ty <> 0 ->
  (forall e,
     run MinimalScript sigs evs = Some st ->
     Minimal.isPumpfunTx (Some tx) = Ok ty ->
     Minimal.parsePumpfunTx tx = Throw e ->
     exists sig st1 st2,
       sigs !! k = Some sig /\
       step MinimalScript sigs st (FetchSettled k (Fulfilled (Some tx))) = Some st1 /\
       transactions st1 = transactions st /\
       console st1 = console st ++ [ErrorFetching (signature sig) e] /\
       step MinimalScript sigs st1 (Finally k) = Some st2 /\
       completed st2 = S (completed st) /\
       forall evs' st',
         run MinimalScript sigs
           (evs ++ FetchSettled k (Fulfilled (Some tx)) :: evs') = Some st' ->
         transactions st' = transactions st ++ collected_by sigs evs' /\
         ~ exiting st' /\
         forall r, resolved st' = Some r ->
                   pumpfunCount r = length (transactions st')) /\
  (run FullScript sigs evs = Some st ->
   Full.isPumpfunTx (Some tx) = Ok ty ->
   (forall f, Full.parsePumpfunTx_scan tx <> Ok (Some f)) ->
   exists st1,
     step FullScript sigs st (FetchSettled k (Fulfilled (Some tx))) = Some st1 /\
     transactions st1 = transactions st /\
     (forall st2 j name,
        detached st2 !! j =
          Some {| d_tx := tx; d_scan := Full.parsePumpfunTx_scan tx |} ->
        exists st3, name_settled j name st2 = Some st3 /\
                    transactions st3 = transactions st2) /\
     forall evs' st',
       run FullScript sigs
         (evs ++ FetchSettled k (Fulfilled (Some tx)) :: evs') = Some st' ->
       Forall (fun p => exists tx',
                 tx' <> tx /\
                 fetched (evs ++ FetchSettled k (Fulfilled (Some tx)) :: evs') tx' /\
                 built_from tx' p) (transactions st') /\
       forall r, resolved st' = Some r ->
                 pumpfunCount r <= length (transactions st')) /\
  (run MinimalScript sigs evs = Some st ->
   Minimal.isPumpfunTx (Some tx) = Ok ty ->
   no_reference tx ->
   exists sig st1,
     sigs !! k = Some sig /\
     step MinimalScript sigs st (FetchSettled k (Fulfilled (Some tx))) = Some st1 /\
     transactions st1 =
       transactions st ++
       [ {| r_mint := None; r_solAmount := None; r_tokenAmount := None;
            r_isBuy := None; r_timestamp := TimeNumber (blockTime tx);
            r_slot := slot tx; r_signature := Some (signature sig);
            r_success := success_of tx; r_tokenName := None |} ] /\
     forall evs' st',
       run MinimalScript sigs
         (evs ++ FetchSettled k (Fulfilled (Some tx)) :: evs') = Some st' ->
       transactions st' = transactions st1 ++ collected_by sigs evs' /\
       ~ exiting st' /\
       forall r, resolved st' = Some r ->
                 pumpfunCount r = length (transactions st')).
Proof.
  intros Hk Hq Hty. apply Nat.eqb_neq in Hty.
  split; [|split].
  - intros e Hrun Hcls Hparse. pose proof (run_Good _ _ _ _ Hrun) as HG.
    destruct (minimal_run_quiet sigs evs st Hrun) as [_ Hd].
    destruct (fetch_settled_enabled MinimalScript sigs st k
                (Fulfilled (Some tx)) HG Hk Hq) as (sig & _ & Hsig & Hstep).
    assert (settled_state MinimalScript sig (Fulfilled (Some tx)) st =
            catch_callback sig e st) as Hst.
    { unfold settled_state, then_callback. rewrite Hcls. cbn [mbind Res_bind].
      rewrite Hty, Hparse. reflexivity. }
    rewrite Hst in Hstep.
    set (st1 := queue_finally k (catch_callback sig e st)) in *.
    assert (Good sigs st1) as HG1.
    { apply (step_Good MinimalScript sigs st st1
               (FetchSettled k (Fulfilled (Some tx))) HG). exact Hstep. }
    assert (k ∈ settled st1) as Hq1.
    { cbn [st1 queue_finally settled]. apply elem_of_union_l, elem_of_singleton.
      reflexivity. }
    exists sig, st1, (finally_callback MinimalScript sigs k st1).
    split; [exact Hsig|]. split; [exact Hstep|].
    split; [reflexivity|]. split; [reflexivity|].
    split; [exact (finally_runs_enabled MinimalScript sigs st1 k Hq1)|].
    split.
    { pose proof (finally_callback_data MinimalScript sigs k st1) as (_ & _ & _ & Hc & _).
      rewrite Hc. reflexivity. }
    intros evs' st' Hrun'. split; [|split].
    + pose proof (run_after_step MinimalScript sigs evs evs' st st1 st'
                    (FetchSettled k (Fulfilled (Some tx))) Hrun Hstep Hrun') as Hrest.
      rewrite (minimal_run_from_collects sigs evs' st1 st' HG1 Hd Hrest).
      reflexivity.
    + unfold exiting. destruct (minimal_run_quiet _ _ _ Hrun') as [Hu _].
      rewrite Hu. tauto.
    + intros r Hr. exact (minimal_run_counted _ _ _ _ Hrun' Hr).
  - intros Hrun Hcls Hscan. pose proof (run_Good _ _ _ _ Hrun) as HG.
    destruct (fetch_settled_enabled FullScript sigs st k
                (Fulfilled (Some tx)) HG Hk Hq) as (sig & _ & Hsig & Hstep).
    set (d := {| d_tx := tx; d_scan := Full.parsePumpfunTx_scan tx |}).
    assert (settled_state FullScript sig (Fulfilled (Some tx)) st = detach d st) as Hst.
    { unfold settled_state, then_callback. rewrite Hcls. cbn [mbind Res_bind].
      rewrite Hty. reflexivity. }
    rewrite Hst in Hstep.
    exists (queue_finally k (detach d st)). split; [exact Hstep|].
    split; [reflexivity|]. split.
    + intros st2 j name Hj.
      destruct (detached_without_record st2 j d name Hj Hscan)
        as (st3 & e & Hn & Ht & _).
      exists st3. split; [exact Hn | exact Ht].
    + intros evs' st' Hrun'. split.
      * destruct (full_run_provenance _ _ _ Hrun') as [Hprov _].
        eapply Forall_impl; [exact Hprov|]. intros p (tx' & Hf & Hb).
        exists tx'. split; [|split; assumption].
        intros ->. destruct Hb as (t & f & nm & ts & _ & Hs & _).
        exact (Hscan f Hs).
      * intros r Hr. exact (run_counted _ _ _ _ _ Hrun' Hr).
  - intros Hrun Hcls Hnone. pose proof (run_Good _ _ _ _ Hrun) as HG.
    destruct (minimal_run_quiet sigs evs st Hrun) as [_ Hd].
    pose proof (minimal_scan_no_reference tx Hnone) as Hparse.
    destruct (fetch_settled_enabled MinimalScript sigs st k
                (Fulfilled (Some tx)) HG Hk Hq) as (sig & _ & Hsig & Hstep).
    assert (settled_state MinimalScript sig (Fulfilled (Some tx)) st =
            push (Minimal.record_of (signature sig) tx None) st) as Hst.
    { unfold settled_state, then_callback. rewrite Hcls. cbn [mbind Res_bind].
      rewrite Hty, Hparse. reflexivity. }
    rewrite Hst in Hstep.
    set (st1 := queue_finally k (push (Minimal.record_of (signature sig) tx None) st)) in *.
    assert (Good sigs st1) as HG1.
    { apply (step_Good MinimalScript sigs st st1
               (FetchSettled k (Fulfilled (Some tx))) HG). exact Hstep. }
    exists sig, st1. split; [exact Hsig|]. split; [exact Hstep|].
    split; [reflexivity|].
    intros evs' st' Hrun'. split; [|split].
    + pose proof (run_after_step MinimalScript sigs evs evs' st st1 st'
                    (FetchSettled k (Fulfilled (Some tx))) Hrun Hstep Hrun') as Hrest.
      exact (minimal_run_from_collects sigs evs' st1 st' HG1 Hd Hrest).
    + unfold exiting. destruct (minimal_run_quiet _ _ _ Hrun') as [Hu _].
      rewrite Hu. tauto.
    + intros r Hr. exact (minimal_run_counted _ _ _ _ Hrun' Hr).
Qed.

Lemma matched_undecodable_records_witness :
  (exists st1 st2,
     step MinimalScript (sigs_n 1) (getTransactionDetails (sigs_n 1))
       (FetchSettled 0 (Fulfilled (Some (buy_tx (replicate 10 x00))))) = Some st1 /\
     transactions st1 = [] /\
     step MinimalScript (sigs_n 1) st1 (Finally 0) = Some st2 /\
     completed st2 = 1) /\
  (exists st1,
     step FullScript (sigs_n 1) (getTransactionDetails (sigs_n 1))
       (FetchSettled 0 (Fulfilled (Some (buy_tx (take 136 fixture))))) = Some st1 /\
     transactions st1 = []) /\
  (exists st1,
     step MinimalScript (sigs_n 1) (getTransactionDetails (sigs_n 1))
       (FetchSettled 0 (Fulfilled (Some buy_tx_no_inner))) = Some st1 /\
     length (transactions st1) = 1).
Proof.
  assert (0 ∈ inProgress (getTransactionDetails (sigs_n 1))) as Hk
    by (vm_compute; reflexivity).
  assert (0 ∉ settled (getTransactionDetails (sigs_n 1))) as Hq
    by (vm_compute; discriminate).
  assert (1 <> 0) as Hty by lia.
  split; [|split].
  - destruct (matched_undecodable_records (sigs_n 1) []
                (getTransactionDetails (sigs_n 1)) 0
                (buy_tx (replicate 10 x00)) 1 Hk Hq Hty) as (HA & _ & _).
    destruct (HA RangeError) as (sig & st1 & st2 & _ & Hstep & Ht & _ & Hfin & Hc & _);
      [reflexivity | vm_compute; reflexivity | vm_compute; reflexivity |].
    exists st1, st2. split; [exact Hstep|]. split; [exact Ht|].
    split; [exact Hfin | exact Hc].
  - destruct (matched_undecodable_records (sigs_n 1) []
                (getTransactionDetails (sigs_n 1)) 0
                (buy_tx (take 136 fixture)) 1 Hk Hq Hty) as (_ & HB & _).
    destruct HB as (st1 & Hstep & Ht & _);
      [reflexivity | vm_compute; reflexivity
       | intros f Hf; vm_compute in Hf; discriminate |].
    exists st1. split; [exact Hstep | exact Ht].
  - destruct (matched_undecodable_records (sigs_n 1) []
                (getTransactionDetails (sigs_n 1)) 0
                buy_tx_no_inner 1 Hk Hq Hty) as (_ & _ & HC).
    destruct HC as (sig & st1 & _ & Hstep & Ht & _);
      [reflexivity | vm_compute; reflexivity | constructor |].
    exists st1. split; [exact Hstep|]. rewrite Ht. reflexivity.
Defined.
